(** * imgclas.api: the serving and training wrapper, embedded and verified

    A shallow embedding of [imgclas/api.py].  Python values are modelled as
    follows:
    - [str] as [string]: the UTF-8 bytes of the text; comparing byte strings
      lexicographically ([String.le]) agrees with Python's comparison of
      [str] by code point;
    - [list] as [list], [dict] as [gmap] (a [dict] never holds a key twice,
      and every loop of the module that depends on the order of a [dict]
      sorts its items first), except [os.environ], which is iterated in its
      own order and is an association list;
    - an exception as a value of [exn], a call that may raise as a [result];
    - the module-level variables, the temporary directory and the calls made
      to collaborators as an explicit [world], threaded by the monad [M]. *)

From Stdlib Require Import ZArith String Ascii List Sorted Permutation.
From stdpp Require Import base option list sorting gmap strings fin_maps.

Local Open Scope string_scope.
Local Open Scope list_scope.
Set Warnings "-register-all".

(** ** Exceptions *)

(** [BadRequest] is werkzeug's exception; its description is either a text
    (the validators and the loader raise it with a message) or the exception
    that [catch_error] and [train] wrap into it. *)
Inductive exn : Type :=
| BadRequest (description : detail)
| StopIteration
| IndexError
| KeyError (key : string)
| AttributeError
| ValueError
| TypeError
| JSONDecodeError (doc : string)
| OSError (path : string)
| InvalidConfig (key : string)
| CollaboratorError (what : string)
with detail : Type :=
| Message (text : string)
| Cause (e : exn).

Inductive result (A : Type) : Type :=
| Return (a : A)
| Raise (e : exn).
Arguments Return {A} a.
Arguments Raise {A} e.

(** The messages of the module, by the names the specification gives to the
    error kinds (first line of each message). *)
Definition EmptyQuery : exn := BadRequest (Message "Empty query").
Definition UnreachableUrl : exn := BadRequest (Message "Failed url connection:").
Definition NotAnImage : exn := BadRequest (Message "Url image format error:").
Definition UnsupportedExtension : exn :=
  BadRequest (Message "Local image format error:").
Definition NoModelsAvailable : exn :=
  BadRequest (Message "You have no models in your `./models` folder to be used for inference.").
Definition NoCheckpointsAvailable (TIMESTAMP : string) : exn :=
  BadRequest (Message ("You have no checkpoints in your `./models/" ++ TIMESTAMP
                        ++ "/ckpts` folder to be used for inference.")).

(** ** Python builtins used by the module *)

Module Py.

(** [sorted(l)] on a list of [str]. *)
Definition sorted (l : list string) : list string := merge_sort String.le l.

(** [l[-1]]. *)
Definition item_last {A} (l : list A) : result A :=
  match last l with
  | Some x => Return x
  | None => Raise IndexError
  end.

(** [l[i]] for a Python integer [i]: negative indices count from the end. *)
Definition item {A} (l : list A) (i : Z) : result A :=
  let n := Z.of_nat (length l) in
  let j := if (i <? 0)%Z then (n + i)%Z else i in
  if (j <? 0)%Z then Raise IndexError
  else match l !! Z.to_nat j with
       | Some x => Return x
       | None => Raise IndexError
       end.

(** [s.startswith(p)] and [s.endswith(p)]. *)
Definition startswith (s p : string) : bool := String.prefix p s.

Definition endswith (s p : string) : bool :=
  (String.length p <=? String.length s)%nat
  && String.eqb (substring (String.length s - String.length p)
                           (String.length p) s) p.

(** [s.split(sep)[0]] for a one-character [sep]: the text before the
    first [sep], all of [s] when there is none. *)
Fixpoint split_first (sep : ascii) (s : string) : string :=
  match s with
  | EmptyString => EmptyString
  | String c t =>
      if Ascii.eqb c sep then EmptyString else String c (split_first sep t)
  end.

Fixpoint contains (sep : ascii) (s : string) : bool :=
  match s with
  | EmptyString => false
  | String c t => Ascii.eqb c sep || contains sep t
  end.

(** [s.split(sep)[-1]] for a one-character [sep]: the text after the last
    [sep], all of [s] when there is none. *)
Fixpoint split_last (sep : ascii) (s : string) : string :=
  match s with
  | EmptyString => EmptyString
  | String c t =>
      if contains sep t then split_last sep t
      else if Ascii.eqb c sep then t else s
  end.

(** [os.path.basename(p)]. *)
Definition basename (p : string) : string := split_last "/" p.

(** [s.split(sep, 1)]: [None] when [sep] does not occur in [s] (the list
    has one element), otherwise the text before and after its first
    occurrence. *)
Fixpoint split_once (sep s : string) : option (string * string) :=
  if String.prefix sep s
  then Some (EmptyString,
             substring (String.length sep)
                       (String.length s - String.length sep) s)
  else match s with
       | EmptyString => None
       | String c t =>
           match split_once sep t with
           | Some (before, after) => Some (String c before, after)
           | None => None
           end
       end.

(** [s.replace(a, b)] for one-character [a] and [b]. *)
Fixpoint replace (a b : ascii) (s : string) : string :=
  match s with
  | EmptyString => EmptyString
  | String c t => String (if Ascii.eqb c a then b else c) (replace a b t)
  end.

Definition upper (c : ascii) : ascii :=
  let n := nat_of_ascii c in
  if (97 <=? n)%nat && (n <=? 122)%nat then ascii_of_nat (n - 32) else c.

Definition lower (c : ascii) : ascii :=
  let n := nat_of_ascii c in
  if (65 <=? n)%nat && (n <=? 90)%nat then ascii_of_nat (n + 32) else c.

Fixpoint lower_all (s : string) : string :=
  match s with
  | EmptyString => EmptyString
  | String c t => String (lower c) (lower_all t)
  end.

(** [s.capitalize()], on ASCII text as the names of environment variables
    are: the first character in upper case, the others in lower case. *)
Definition capitalize (s : string) : string :=
  match s with
  | EmptyString => EmptyString
  | String c t => String (upper c) (lower_all t)
  end.

(** [dict.items()] sorted: the keys of a [dict] are distinct, so that
    [sorted] never compares two values. *)
Definition le_key {V} (p q : string * V) : Prop := String.le p.1 q.1.

Global Instance le_key_dec {V} : RelDecision (@le_key V).
Proof. intros p q. unfold le_key. apply _. Defined.

Definition sorted_items {V} (d : gmap string V) : list (string * V) :=
  merge_sort le_key (map_to_list d).

End Py.

(** ** Choosing the snapshot and the checkpoint ([load_inference_model]) *)

(** Lines 72-81: [timestamps] is [next(os.walk(paths.get_models_dir()))[1]]. *)
Definition select_timestamp (timestamps : list string) : result string :=
  if bool_decide (timestamps = []) then Raise NoModelsAvailable
  else if bool_decide ("api" ∈ timestamps) then Return "api"
  else Py.item_last (Py.sorted timestamps).

(** Lines 86-95: [ckpts] is [os.listdir(paths.get_checkpoints_dir())]. *)
Definition select_checkpoint (TIMESTAMP : string) (ckpts : list string)
  : result string :=
  if bool_decide (ckpts = []) then Raise (NoCheckpointsAvailable TIMESTAMP)
  else if bool_decide ("final_model.h5" ∈ ckpts) then Return "final_model.h5"
  else Py.item_last
         (Py.sorted (filter (λ name, Py.endswith name "*.h5" = true) ckpts)).

(** Lines 104-113: [info] is [Some] of what [load_class_info] returned when
    [info.txt] is listed in the splits directory, and [None] otherwise. *)
Definition resolve_class_info (class_names : list string)
    (info : option (list string)) : list string :=
  let class_info :=
    match info with
    | Some class_info =>
        if bool_decide (length class_info ≠ length class_names)
        then None else Some class_info
    | None => None
    end in
  match class_info with
  | Some class_info => class_info
  | None => replicate (length class_names) ""
  end.

(** ** JSON values and the configuration schema *)

(** What [json.loads] returns.  A number with a fraction or an exponent is
    kept as the decimal it was written as, [m * 10^e]. *)
Inductive json : Type :=
| JNull
| JBool (b : bool)
| JInt (n : Z)
| JFloat (m e : Z)
| JStr (s : string)
| JList (l : list json)
| JDict (d : list (string * json)).

Fixpoint json_eqb (a b : json) : bool :=
  match a, b with
  | JNull, JNull => true
  | JBool x, JBool y => Bool.eqb x y
  | JInt x, JInt y => (x =? y)%Z
  | JFloat m e, JFloat m' e' => (m =? m')%Z && (e =? e')%Z
  | JStr s, JStr t => String.eqb s t
  | JList l, JList l' =>
      (fix all2 (l l' : list json) : bool :=
         match l, l' with
         | [], [] => true
         | x :: l, y :: l' => json_eqb x y && all2 l l'
         | _, _ => false
         end) l l'
  | JDict d, JDict d' =>
      (fix all2 (d d' : list (string * json)) : bool :=
         match d, d' with
         | [], [] => true
         | (k, x) :: d, (k', y) :: d' =>
             String.eqb k k' && json_eqb x y && all2 d d'
         | _, _ => false
         end) d d'
  | _, _ => false
  end.

(** The name of the Python type of a decoded value, as [get_train_args]
    reads it from the schema ([getattr(builtins, g_val['type'])]). *)
Definition type_name (v : json) : string :=
  match v with
  | JNull => "NoneType"
  | JBool _ => "bool"
  | JInt _ => "int"
  | JFloat _ _ => "float"
  | JStr _ => "str"
  | JList _ => "list"
  | JDict _ => "dict"
  end.

(** [a <= b] on decoded numbers; [None] when one of them is not a number. *)
Definition num_le (a b : json) : option bool :=
  let parts v :=
    match v with
    | JInt n => Some (n, 0%Z)
    | JFloat m e => Some (m, e)
    | _ => None
    end in
  match parts a, parts b with
  | Some (m, e), Some (m', e') =>
      let lo := Z.min e e' in
      Some (m * 10 ^ (e - lo) <=? m' * 10 ^ (e' - lo))%Z
  | _, _ => None
  end.

(** One entry of [config.CONF]: the keys [get_train_args] reads ('value',
    'help', 'type', 'choices') and the range the specification names. *)
Record descriptor : Type := Descriptor {
  d_value : json;
  d_help : option string;
  d_type : option string;
  d_choices : option (list json);
  d_range : option (json * json);
}.

(** [g_val['value'] = v]. *)
Definition set_value (g_val : descriptor) (v : json) : descriptor :=
  {| d_value := v; d_help := d_help g_val; d_type := d_type g_val;
     d_choices := d_choices g_val; d_range := d_range g_val |}.

(** [config.CONF]: group -> key -> descriptor. *)
Abbreviation schema := (gmap string (gmap string descriptor)).

(** The keys of the schema, over all groups. *)
Definition schema_key (CONF : schema) (g_key : string) : Prop :=
  ∃ group val, CONF !! group = Some val ∧ is_Some (val !! g_key).

(** Modelled from the spec: [config.check_conf], of [imgclas/config.py],
    which is not among the sources.  "The merged configuration is validated
    against declared constraints (type, allowed choices, range) -- on
    violation, fails with InvalidConfig naming the offending key."  A
    descriptor violates its constraints when its value is not of the declared
    type, is not one of the declared choices, or lies outside the declared
    range (a [null] bound leaves that side open). *)
Definition violates (d : descriptor) : bool :=
  let v := d_value d in
  match d_type d with
  | Some t => negb (String.eqb (type_name v) t)
  | None => false
  end
  || match d_choices d with
     | Some choices => negb (existsb (json_eqb v) choices)
     | None => false
     end
  || match d_range d with
     | Some (lo, hi) =>
         negb (match lo with JNull => true | _ => default false (num_le lo v) end
               && match hi with JNull => true | _ => default false (num_le v hi) end)
     | None => false
     end.

(** The entries of the schema in the order [train] and [check_conf] visit
    them: groups sorted by name, keys sorted within each group. *)
Definition sorted_entries (CONF : schema) : list (string * descriptor) :=
  mjoin ((λ gv, Py.sorted_items gv.2) <$> Py.sorted_items CONF).

(** Modelled from the spec: [config.check_conf] (see [violates]); the first
    offending key in the order of [sorted_entries] is the one named. *)
Definition check_conf (CONF : schema) : result unit :=
  match list_find (λ kd, violates kd.2 = true) (sorted_entries CONF) with
  | Some (_, (g_key, _)) => Raise (InvalidConfig g_key)
  | None => Return tt
  end.

(** ** The collaborators *)

(** One uploaded file of a request: [f.filename] and what [f.read()] gives. *)
Record upload : Type := Upload {
  filename : string;
  content : string;
}.

(** [args['files']] is a list of uploads or, before the DEEPaaS upgrade the
    source mentions, a single upload. *)
Inductive files_arg : Type :=
| OneFile (f : upload)
| FileList (l : list upload).

(** Everything the module calls and does not define: the operating system,
    [paths], [data_utils], [config], [json], [requests], [tempfile], keras
    and the trainer.  A call that raises is [None] or [Raise]. *)
Class Collaborators : Type := {
  network : Type;
  graph : Type;
  prob : Type;
  (** [next(os.walk(paths.get_models_dir()))[1]]; [None] when the walk is
      empty (no such directory), where [next] raises [StopIteration]. *)
  os_walk_models : option (list string);
  (** [os.listdir(paths.get_checkpoints_dir())], with [paths.timestamp] set. *)
  os_listdir_ckpts : string → option (list string);
  (** [os.listdir(paths.get_ts_splits_dir())]. *)
  os_listdir_splits : string → option (list string);
  load_class_names : string → result (list string);
  load_class_info : string → result (list string);
  (** [json.load] of [conf.json] in the snapshot's configuration directory. *)
  json_load_conf : string → result json;
  (** [load_model] of a checkpoint of a snapshot, and the graph it sits in. *)
  load_model : string → string → result network;
  get_default_graph : network → graph;
  (** [json.loads]; [None] when the text is not JSON. *)
  json_loads : string → option json;
  (** [requests.head(url).headers.get('content-type')]: [None] when the
      request raises, [Some None] when the header is missing. *)
  requests_head : string → option (option string);
  (** [imgclas.test_utils.predict], with the arrays it returns as the
      sequences [format_prediction] zips; it reads the files it is given
      and writes none. *)
  predict : network → gmap string string → list string → json → Z → string
            → bool → result (list Z * list prob);
  (** The name [tempfile.NamedTemporaryFile] picks: not one in use. *)
  new_temp_name : gmap string string → string;
  new_temp_name_fresh : ∀ files, files !! new_temp_name files = None;
  (** [datetime.now().strftime('%Y-%m-%d_%H%M%S')]. *)
  now_strftime : string;
  conf_dict : schema → json;
  train_fn : string → json → option exn;
  (** [mount_nextcloud(paths.get_models_dir(), 'ncplants:/models')]. *)
  mount_nextcloud_models : option exn;
  (** [requests.compat.urlencode] of a dictionary given as its items. *)
  urlencode : list (string * string) → string;
  (** [pkg.get_metadata_lines("PKG-INFO")] of the module's distribution. *)
  pkg_info_lines : result (list string);
  (** [os.environ], in its order; the names are distinct. *)
  os_environ : list (string * string);
}.

(** ** The world: module variables, temporary files, calls made *)

(** The module-level variables of [api.py] (line 52-53) and
    [paths.timestamp]. *)
Record globals `{Collaborators} : Type := Globals {
  loaded : bool;
  g_graph : option graph;
  g_model : option network;
  g_conf : option json;
  g_class_names : option (list string);
  g_class_info : option (list string);
  paths_timestamp : option string;
}.

(** A call that leaves the process. *)
Inductive event : Type :=
| EvWalkModels
| EvListdirCkpts (TIMESTAMP : string)
| EvClearSession
| EvLoadClassNames (TIMESTAMP : string)
| EvListdirSplits (TIMESTAMP : string)
| EvLoadClassInfo (TIMESTAMP : string)
| EvOpenConf (TIMESTAMP : string)
| EvLoadModel (TIMESTAMP MODEL_NAME : string)
| EvHead (url : string)
| EvPredict (X : list string) (filemode : string) (merge : bool)
| EvTempFile (name : string)
| EvRemove (name : string)
| EvCheckConf
| EvPrintConfTable
| EvTrainFn (TIMESTAMP : string)
| EvMountNextcloud
| EvPrint.

(** The calls of [load_inference_model]. *)
Definition is_load_event (e : event) : bool :=
  match e with
  | EvWalkModels | EvListdirCkpts _ | EvClearSession | EvLoadClassNames _
  | EvListdirSplits _ | EvLoadClassInfo _ | EvOpenConf _ | EvLoadModel _ _ =>
      true
  | _ => false
  end.

Record world `{Collaborators} : Type := World {
  vars : globals;
  CONF : schema;                  (* config.CONF *)
  files : gmap string string;     (* the temporary directory *)
  trace : list event;             (* the calls made, oldest first *)
}.

Section Api.
Context `{Collab : Collaborators}.

(** A computation of the module: it may change the world and raise. *)
Definition M (A : Type) : Type := world → result A * world.

Definition ret {A} (a : A) : M A := λ w, (Return a, w).
Definition raise {A} (e : exn) : M A := λ w, (Raise e, w).
Definition bind {A B} (m : M A) (k : A → M B) : M B :=
  λ w, match m w with
       | (Return a, w') => k a w'
       | (Raise e, w') => (Raise e, w')
       end.

Notation "'let*' x := m 'in' k" := (bind m (λ x, k))
  (at level 10, x pattern, m at level 100, k at level 200).
Notation "m ;; k" := (bind m (λ _, k))
  (at level 100, k at level 200, right associativity).

(** A [result] computed without touching the world. *)
Definition lift {A} (r : result A) : M A := λ w, (r, w).

(** [None] raises [e]. *)
Definition or_raise {A} (o : option A) (e : exn) : M A :=
  match o with
  | Some a => ret a
  | None => raise e
  end.

Definition emit (e : event) : M unit :=
  λ w, (Return tt, {| vars := vars w; CONF := CONF w; files := files w;
                       trace := trace w ++ [e] |}).

Definition get_vars : M globals := λ w, (Return (vars w), w).
Definition put_vars (g : globals) : M unit :=
  λ w, (Return tt, {| vars := g; CONF := CONF w; files := files w;
                       trace := trace w |}).
Definition get_files : M (gmap string string) := λ w, (Return (files w), w).
Definition put_files (fs : gmap string string) : M unit :=
  λ w, (Return tt, {| vars := vars w; CONF := CONF w; files := fs;
                       trace := trace w |}).
Definition get_CONF : M schema := λ w, (Return (CONF w), w).
Definition put_CONF (c : schema) : M unit :=
  λ w, (Return tt, {| vars := vars w; CONF := c; files := files w;
                       trace := trace w |}).

(** [try: body finally: cleanup]: the cleanup runs on both exits; when it
    raises, its exception replaces the outcome of the body. *)
Definition try_finally {A} (body : M A) (cleanup : M unit) : M A :=
  λ w, let (r, w1) := body w in
       match cleanup w1 with
       | (Return _, w2) => (r, w2)
       | (Raise e, w2) => (Raise e, w2)
       end.

(** [try: body except Exception as e: handler(e)]. *)
Definition try_except {A} (body : M A) (handler : exn → M A) : M A :=
  λ w, match body w with
       | (Return a, w1) => (Return a, w1)
       | (Raise e, w1) => handler e w1
       end.

(** Lines 128-134, the decorator: any exception becomes a [BadRequest]
    carrying it. *)
Definition catch_error {A} (f : M A) : M A :=
  try_except f (λ e, raise (BadRequest (Cause e))).

(** Sequential [for]: the first exception ends the loop. *)
Fixpoint for_each {A} (l : list A) (body : A → M unit) : M unit :=
  match l with
  | [] => ret tt
  | x :: l => body x;; for_each l body
  end.

(** *** Assignments to the module variables *)

Definition set_loaded (b : bool) (g : globals) : globals :=
  {| loaded := b; g_graph := g_graph g; g_model := g_model g;
     g_conf := g_conf g; g_class_names := g_class_names g;
     g_class_info := g_class_info g; paths_timestamp := paths_timestamp g |}.
Definition set_graph (v : option graph) (g : globals) : globals :=
  {| loaded := loaded g; g_graph := v; g_model := g_model g;
     g_conf := g_conf g; g_class_names := g_class_names g;
     g_class_info := g_class_info g; paths_timestamp := paths_timestamp g |}.
Definition set_model (v : option network) (g : globals) : globals :=
  {| loaded := loaded g; g_graph := g_graph g; g_model := v;
     g_conf := g_conf g; g_class_names := g_class_names g;
     g_class_info := g_class_info g; paths_timestamp := paths_timestamp g |}.
Definition set_conf (v : option json) (g : globals) : globals :=
  {| loaded := loaded g; g_graph := g_graph g; g_model := g_model g;
     g_conf := v; g_class_names := g_class_names g;
     g_class_info := g_class_info g; paths_timestamp := paths_timestamp g |}.
Definition set_class_names (v : option (list string)) (g : globals) : globals :=
  {| loaded := loaded g; g_graph := g_graph g; g_model := g_model g;
     g_conf := g_conf g; g_class_names := v;
     g_class_info := g_class_info g; paths_timestamp := paths_timestamp g |}.
Definition set_class_info (v : option (list string)) (g : globals) : globals :=
  {| loaded := loaded g; g_graph := g_graph g; g_model := g_model g;
     g_conf := g_conf g; g_class_names := g_class_names g;
     g_class_info := v; paths_timestamp := paths_timestamp g |}.
Definition set_timestamp (v : option string) (g : globals) : globals :=
  {| loaded := loaded g; g_graph := g_graph g; g_model := g_model g;
     g_conf := g_conf g; g_class_names := g_class_names g;
     g_class_info := g_class_info g; paths_timestamp := v |}.

Definition assign (f : globals → globals) : M unit :=
  let* g := get_vars in put_vars (f g).

(** ** [load_inference_model] (lines 60-125) *)

Definition load_inference_model : M unit :=
  (* Set the timestamp *)
  emit EvWalkModels;;
  let* timestamps := or_raise os_walk_models StopIteration in
  let* TIMESTAMP := lift (select_timestamp timestamps) in
  assign (set_timestamp (Some TIMESTAMP));;
  (* Set the checkpoint model to use to make the prediction *)
  emit (EvListdirCkpts TIMESTAMP);;
  let* ckpts := or_raise (os_listdir_ckpts TIMESTAMP) (OSError "ckpts") in
  let* MODEL_NAME := lift (select_checkpoint TIMESTAMP ckpts) in
  (* Clear the previous loaded model *)
  emit EvClearSession;;
  (* Load the class names and info *)
  emit (EvLoadClassNames TIMESTAMP);;
  let* class_names := lift (load_class_names TIMESTAMP) in
  assign (set_class_names (Some class_names));;
  assign (set_class_info None);;
  emit (EvListdirSplits TIMESTAMP);;
  let* listing := or_raise (os_listdir_splits TIMESTAMP) (OSError "splits") in
  let* info :=
    if bool_decide ("info.txt" ∈ listing)
    then emit (EvLoadClassInfo TIMESTAMP);;
         let* class_info := lift (load_class_info TIMESTAMP) in
         assign (set_class_info (Some class_info));;
         ret (Some class_info)
    else ret None in
  assign (set_class_info (Some (resolve_class_info class_names info)));;
  (* Load training configuration *)
  emit (EvOpenConf TIMESTAMP);;
  let* conf := lift (json_load_conf TIMESTAMP) in
  assign (set_conf (Some conf));;
  (* Load the model *)
  emit (EvLoadModel TIMESTAMP MODEL_NAME);;
  let* model := lift (load_model TIMESTAMP MODEL_NAME) in
  assign (set_model (Some model));;
  assign (set_graph (Some (get_default_graph model)));;
  (* Set the model as loaded *)
  assign (set_loaded true).

(** [if not loaded: load_inference_model()] (lines 181-182 and 210-211). *)
Definition ensure_loaded : M unit :=
  let* g := get_vars in
  if negb (loaded g) then load_inference_model else ret tt.

(** ** The validators (lines 137-171) *)

Definition catch_url_error (url_list : list string) : M unit :=
  (* Error catch: Empty query *)
  if bool_decide (url_list = []) then raise EmptyQuery
  else
    for_each url_list (λ i,
      (* Error catch: Inexistent url *)
      emit (EvHead i);;
      let* url_type := or_raise (requests_head i) UnreachableUrl in
      (* Error catch: Wrong formatted urls *)
      let* url_type := or_raise url_type AttributeError in
      if bool_decide (Py.split_first "/" url_type ≠ "image")
      then raise NotAnImage
      else ret tt).

Definition allowed_extensions : list string :=
  ["png"; "jpg"; "jpeg"; "PNG"; "JPG"; "JPEG"].

Definition catch_localfile_error (file_list : list upload) : M unit :=
  (* Error catch: Empty query *)
  if bool_decide (file_list = []) then raise EmptyQuery
  else
    (* Error catch: Image format error *)
    for_each file_list (λ f,
      let extension := Py.split_last "." (Py.basename (filename f)) in
      if bool_decide (extension ∉ allowed_extensions)
      then raise UnsupportedExtension
      else ret tt).

(** ** Formatting (lines 242-281) *)

Definition top_K : Z := 5.

Definition image_link (pred_lab : string) : string :=
  "https://www.google.es/search?"
  ++ urlencode [("tbm", "isch"); ("q", pred_lab)].

Definition wikipedia_link (pred_lab : string) : string :=
  "https://en.wikipedia.org/wiki/" ++ Py.replace " " "_" pred_lab.

Record prediction : Type := Prediction {
  label_id : Z;
  label : string;
  probability : prob;
  google_images : string;
  wikipedia : string;
  metadata : string;
}.

Record response : Type := Response {
  status : string;
  predictions : list prediction;
}.

(** A module variable that is still [None] cannot be indexed. *)
Definition subscript {A} (l : option (list A)) (i : Z) : result A :=
  match l with
  | Some l => Py.item l i
  | None => Raise TypeError
  end.

Fixpoint format_rows (class_names class_info : option (list string))
    (rows : list (Z * prob)) : result (list prediction) :=
  match rows with
  | [] => Return []
  | (label_id, prob) :: rows =>
      match subscript class_names label_id with
      | Raise e => Raise e
      | Return name =>
          match subscript class_info label_id with
          | Raise e => Raise e
          | Return info =>
              match format_rows class_names class_info rows with
              | Raise e => Raise e
              | Return preds =>
                  Return ({| label_id := label_id; label := name;
                             probability := prob;
                             google_images := image_link name;
                             wikipedia := wikipedia_link name;
                             metadata := info |} :: preds)
              end
          end
      end
  end.

Definition format_prediction (labels : list Z) (probabilities : list prob)
  : M response :=
  let* g := get_vars in
  let* preds := lift (format_rows (g_class_names g) (g_class_info g)
                                  (zip labels probabilities)) in
  ret {| status := "ok"; predictions := preds |}.

(** ** Prediction (lines 174-239) *)

(** [with graph.as_default(): predict(model=model, X=X, conf=conf,
    top_K=top_K, filemode=filemode, merge=merge, use_multiprocessing=False)]. *)
Definition run_predict (X : list string) (filemode : string) (merge : bool)
  : M (list Z * list prob) :=
  let* g := get_vars in
  let* _ := or_raise (g_graph g) AttributeError in
  emit (EvPredict X filemode merge);;
  let* model := or_raise (g_model g) AttributeError in
  let* conf := or_raise (g_conf g) TypeError in
  let* fs := get_files in
  lift (predict model fs X conf top_K filemode merge).

Definition predict_url (urls : list string) (merge : bool) : M response :=
  catch_error (
    catch_url_error urls;;
    ensure_loaded;;
    let* (pred_lab, pred_prob) := run_predict urls "url" merge in
    format_prediction pred_lab pred_prob).

(** Lines 215-219: one temporary file per image, kept after [close]. *)
Fixpoint write_temp_files (images : list string) : M (list string) :=
  match images with
  | [] => ret []
  | image :: images =>
      let* fs := get_files in
      let name := new_temp_name fs in
      emit (EvTempFile name);;
      put_files (<[name := image]> fs);;
      let* filenames := write_temp_files images in
      ret (name :: filenames)
  end.

(** [os.remove(f)]. *)
Definition os_remove (f : string) : M unit :=
  emit (EvRemove f);;
  let* fs := get_files in
  match fs !! f with
  | Some _ => put_files (delete f fs)
  | None => raise (OSError f)
  end.

Definition predict_data (arg : files_arg) (merge : bool) : M response :=
  catch_error (
    let file_list :=
      match arg with
      | OneFile f => [f]
      | FileList l => l
      end in
    catch_localfile_error file_list;;
    ensure_loaded;;
    let images := content <$> file_list in
    let* filenames := write_temp_files images in
    let* (pred_lab, pred_prob) :=
      try_finally (try_except (run_predict filenames "local" merge)
                              (λ e, raise e))
                  (for_each filenames os_remove) in
    format_prediction pred_lab pred_prob).

(** ** Training (lines 295-330) *)

(** [g_val['value'] = json.loads(user_conf[g_key])]: the descriptor that
    [config.CONF] holds under [group] and [g_key] is changed in place. *)
Definition update_value (user_conf : gmap string string)
    (group g_key : string) : M unit :=
  let* raw := or_raise (user_conf !! g_key) (KeyError g_key) in
  let* v := or_raise (json_loads raw) (JSONDecodeError raw) in
  let* C := get_CONF in
  put_CONF (alter (alter (λ g_val, set_value g_val v) g_key) group C).

(** Lines 309-311. *)
Definition update_conf (user_conf : gmap string string) : M unit :=
  let* C := get_CONF in
  for_each (Py.sorted_items C) (λ gv,
    for_each (Py.sorted_items gv.2) (λ kd,
      update_value user_conf gv.1 kd.1)).

Definition call (outcome : option exn) : M unit :=
  match outcome with
  | Some e => raise e
  | None => ret tt
  end.

Definition train (user_conf : gmap string string) : M unit :=
  catch_error (
    (* Update the conf with the user input *)
    update_conf user_conf;;
    (* Check the configuration *)
    try_except (emit EvCheckConf;;
                let* C := get_CONF in
                lift (check_conf C))
               (λ e, raise (BadRequest (Cause e)));;
    let* C := get_CONF in
    let conf := conf_dict C in
    let timestamp := now_strftime in
    emit EvPrintConfTable;;
    emit EvClearSession;;          (* remove the model loaded for prediction *)
    emit (EvTrainFn timestamp);;
    call (train_fn timestamp conf);;
    (* Sync with NextCloud folders (if NextCloud is available) *)
    try_except (emit EvMountNextcloud;; call mount_nextcloud_models)
               (λ e, emit EvPrint)).

(** ** Metadata (lines 372-403) *)

Definition meta_keys : list string :=
  ["Name"; "Version"; "Summary"; "Home-page"; "Author"; "Author-email";
   "License"].

Definition empty_meta : gmap string (option string) :=
  list_to_map ((λ par, (par, None)) <$> meta_keys).

(** Lines 392-395, for one line of PKG-INFO: the parameters are those of the
    literal, in its order; the assignments never add a key. *)
Fixpoint read_line (line : string) (pars : list string)
    (meta : gmap string (option string))
  : result (gmap string (option string)) :=
  match pars with
  | [] => Return meta
  | par :: pars =>
      if Py.startswith line par then
        match Py.split_once ": " line with
        | Some (_, value) => read_line line pars (<[par := Some value]> meta)
        | None => Raise ValueError
        end
      else read_line line pars meta
  end.

Fixpoint read_lines (lines : list string) (meta : gmap string (option string))
  : result (gmap string (option string)) :=
  match lines with
  | [] => Return meta
  | line :: lines =>
      match read_line line meta_keys meta with
      | Return meta => read_lines lines meta
      | Raise e => Raise e
      end
  end.

(** The text after [CONTAINER_] matches [(.*?)$]: no line feed in it, but
    possibly one at its very end. *)
Fixpoint dots_to_end (s : string) : bool :=
  match s with
  | EmptyString => true
  | String c t =>
      if Ascii.eqb c "010" then String.eqb t EmptyString else dots_to_end t
  end.

(** [re.compile("^CONTAINER_(.*?)$").match(var)] gives a match. *)
Definition re_match_container (var : string) : bool :=
  String.prefix "CONTAINER_" var
  && dots_to_end (substring 10 (String.length var - 10) var).

(** [os.getenv(var)]. *)
Definition os_getenv (var : string) : option string :=
  (λ iv, iv.2.2) <$> list_find (λ kv, kv.1 = var) os_environ.

(** Lines 400-401. *)
Definition update_with_container_vars (container_vars : list string)
    (meta : gmap string (option string)) : gmap string (option string) :=
  foldl (λ meta var, <[Py.capitalize var := os_getenv var]> meta)
        meta container_vars.

Definition get_metadata : M (gmap string (option string)) :=
  catch_error (
    let* lines := lift pkg_info_lines in
    let* meta := lift (read_lines lines empty_meta) in
    (* Update information with Docker info *)
    let container_vars :=
      filter (λ var, re_match_container var = true) (os_environ.*1) in
    ret (update_with_container_vars container_vars meta)).

(** ** Vocabulary of the properties *)

(** The world after further calls were made. *)
Definition after_events (w : world) (evs : list event) : world :=
  {| vars := vars w; CONF := CONF w; files := files w;
     trace := trace w ++ evs |}.

(** The HEAD request for [url] answers with a content type whose primary
    type is [image]. *)
Definition image_url (url : string) : Prop :=
  ∃ url_type, requests_head url = Some (Some url_type)
              ∧ Py.split_first "/" url_type = "image".

(** The override of [g_key] is present and decodes to [v]. *)
Definition decodes_to (user_conf : gmap string string) (g_key : string)
    (v : json) : Prop :=
  ∃ raw, user_conf !! g_key = Some raw ∧ json_loads raw = Some v.

(** The exception is the one [update_value] raises for a key of the schema:
    its override is absent, or is not JSON. *)
Definition bad_override (C : schema) (user_conf : gmap string string)
    (e : exn) : Prop :=
  ∃ g_key, schema_key C g_key
    ∧ ((e = KeyError g_key ∧ user_conf !! g_key = None)
       ∨ (∃ raw, e = JSONDecodeError raw ∧ user_conf !! g_key = Some raw
                 ∧ json_loads raw = None)).

(** A descriptor with the decoded override of its key as its value. *)
Definition override (user_conf : gmap string string) (g_key : string)
    (g_val : descriptor) : descriptor :=
  match user_conf !! g_key ≫= json_loads with
  | Some v => set_value g_val v
  | None => g_val
  end.

(** The schema with every value replaced by the decoded override. *)
Definition merged (user_conf : gmap string string) (C : schema) : schema :=
  (λ val : gmap string descriptor,
     map_imap (λ g_key g_val, Some (override user_conf g_key g_val)) val)
  <$> C.


(** Every run of [m] relates the world before to the world after by [R]. *)
Definition stable {A} (R : relation world) (m : M A) : Prop :=
  ∀ w, R w (m w).2.


(** Nothing but the schema has changed, and no call was made. *)
Definition silent : relation world :=
  λ w w', vars w' = vars w ∧ files w' = files w ∧ trace w' = trace w.

(** The calls made are calls that satisfy [ok]. *)
Definition calls (ok : event → Prop) : relation world :=
  λ w w', ∃ evs, trace w' = trace w ++ evs ∧ Forall ok evs.

(** The call creates no temporary file. *)
Definition no_temp (e : event) : Prop := ∀ name, e ≠ EvTempFile name.

(** The temporary directory is as it was, and no file was created in it. *)
Definition keeps_files : relation world :=
  λ w w', files w' = files w ∧ calls no_temp w w'.

(** The temporary directory is as it was, and every temporary file created
    since was a new one and has been removed. *)
Definition tidy : relation world :=
  λ w w', files w' = files w
          ∧ ∃ evs, trace w' = trace w ++ evs
                   ∧ ∀ name, EvTempFile name ∈ evs →
                             EvRemove name ∈ evs ∧ files w !! name = None.

(** Started with the model loaded, the run leaves the module variables as
    they were and makes only calls that satisfy [ok]. *)
Definition cached (ok : event → Prop) : relation world :=
  λ w w', loaded (vars w) = true → vars w' = vars w ∧ calls ok w w'.

(** The module variables are as they were. *)
Definition same_vars : relation world := λ w w', vars w' = vars w.

(** [i] is an index of a list of length [n], counted from either end. *)
Definition in_range (n : nat) (i : Z) : Prop :=
  (- Z.of_nat n ≤ i < Z.of_nat n)%Z.

(** Two descriptors that differ in their value at most. *)
Definition same_constraints (d d' : descriptor) : Prop :=
  d_help d' = d_help d ∧ d_type d' = d_type d
  ∧ d_choices d' = d_choices d ∧ d_range d' = d_range d.

(** Two schemas with the same groups, the same keys in each group and the
    same constraints on each key. *)
Definition same_shape (C C' : schema) : Prop :=
  ∀ group,
    option_Forall2
      (λ val val' : gmap string descriptor,
         ∀ g_key, option_Forall2 same_constraints
                    (val !! g_key) (val' !! g_key))
      (C !! group) (C' !! group).

(** The schema keeps its shape. *)
Definition keeps_shape : relation world :=
  λ w w', same_shape (CONF w) (CONF w').

End Api.

(** ** A concrete deployment

    Two snapshots, none named [api]; an [info.txt] one line short; a schema
    of two groups; a decoder for the few JSON texts the examples use. *)

Definition demo_head (url : string) : option (option string) :=
  if String.eqb url "http://a/cat.png" then Some (Some "image/png")
  else if String.eqb url "http://a/page" then Some (Some "text/html")
  else if String.eqb url "http://a/raw" then Some None
  else None.

Definition demo_json_loads (s : string) : option json :=
  if String.eqb s "null" then Some JNull
  else if String.eqb s "true" then Some (JBool true)
  else if String.eqb s "false" then Some (JBool false)
  else if String.eqb s "1" then Some (JInt 1)
  else if String.eqb s "2" then Some (JInt 2)
  else if String.eqb s "64" then Some (JInt 64)
  else None.

Definition demo : Collaborators := {|
  network := string;
  graph := unit;
  prob := Z;
  os_walk_models := Some ["2018-01-01"; "2019-05-05"];
  os_listdir_ckpts := λ _, Some ["epoch-01.h5"; "final_model.h5"];
  os_listdir_splits := λ _, Some ["classes.txt"; "info.txt"];
  load_class_names := λ _, Return ["cat"; "dog"];
  load_class_info := λ _, Return ["a small feline"];
  json_load_conf := λ _, Return (JDict []);
  load_model := λ ts name, Return name;
  get_default_graph := λ _, tt;
  json_loads := demo_json_loads;
  requests_head := demo_head;
  predict := λ _ _ _ _ _ _ _, Return ([1; 0]%Z, [90; 10]%Z);
  new_temp_name := λ fs, fresh (dom fs);
  new_temp_name_fresh := λ fs, not_elem_of_dom_1 fs _ (is_fresh (dom fs));
  now_strftime := "2019-05-06_101500";
  conf_dict := λ _, JDict [];
  train_fn := λ _ _, None;
  mount_nextcloud_models := None;
  urlencode := λ _, "tbm=isch";
  pkg_info_lines := Return ["Name: imgclas"; "Version: 0.1"];
  os_environ := [("HOME", "/root"); ("CONTAINER_FOO", "bar")];
|}.

Definition demo_globals : @globals demo :=
  {| loaded := false; g_graph := None; g_model := None; g_conf := None;
     g_class_names := None; g_class_info := None; paths_timestamp := None |}.

Definition demo_image_size : descriptor :=
  {| d_value := JInt 224; d_help := None; d_type := Some "int";
     d_choices := None; d_range := None |}.

Definition demo_batch_size : descriptor :=
  {| d_value := JInt 16; d_help := None; d_type := Some "int";
     d_choices := Some [JInt 1; JInt 2; JInt 16]; d_range := None |}.

Definition demo_CONF : schema :=
  {[ "model" := {[ "image_size" := demo_image_size ]};
     "training" := {[ "batch_size" := demo_batch_size ]} ]}.

Definition demo_world : @world demo :=
  {| vars := demo_globals; CONF := demo_CONF; files := ∅; trace := [] |}.

(** The same deployment once the model of [2019-05-05] has been loaded. *)
Definition demo_loaded_world : @world demo :=
  {| vars := @Globals demo true (Some tt) (Some "final_model.h5")
                      (Some (JDict [])) (Some ["cat"; "dog"]) (Some [""; ""])
                      (Some "2019-05-05");
     CONF := demo_CONF; files := ∅; trace := [] |}.

(** ** Further deployments

    The same site with the listings, the trainer and the synchronisation as
    parameters: an empty models directory, a snapshot without checkpoints,
    an [info.txt] that fits the class names, a trainer that fails. *)

Definition site (walk : option (list string)) (ckpts splits info : list string)
    (trainer sync : option exn) : Collaborators := {|
  network := string;
  graph := unit;
  prob := Z;
  os_walk_models := walk;
  os_listdir_ckpts := λ _, Some ckpts;
  os_listdir_splits := λ _, Some splits;
  load_class_names := λ _, Return ["cat"; "dog"];
  load_class_info := λ _, Return info;
  json_load_conf := λ _, Return (JDict []);
  load_model := λ ts name, Return name;
  get_default_graph := λ _, tt;
  json_loads := demo_json_loads;
  requests_head := demo_head;
  predict := λ _ _ _ _ _ _ _, Return ([1; 0]%Z, [90; 10]%Z);
  new_temp_name := λ fs, fresh (dom fs);
  new_temp_name_fresh := λ fs, not_elem_of_dom_1 fs _ (is_fresh (dom fs));
  now_strftime := "2019-05-06_101500";
  conf_dict := λ _, JDict [];
  train_fn := λ _ _, trainer;
  mount_nextcloud_models := sync;
  urlencode := λ _, "tbm=isch";
  pkg_info_lines := Return ["Name: imgclas"; "Version: 0.1"];
  os_environ := [("HOME", "/root"); ("CONTAINER_FOO", "bar")];
|}.

(** The world of a site before any call. *)
Definition site_world (S : Collaborators) (C : schema) : @world S :=
  {| vars := @Globals S false None None None None None None;
     CONF := C; files := ∅; trace := [] |}.

(** A schema whose values the decoder of the deployments reads back. *)
Definition small_CONF : schema :=
  {[ "model" := {[ "image_size" := set_value demo_image_size (JInt 64) ]};
     "training" := {[ "batch_size" := set_value demo_batch_size (JInt 2) ]} ]}.

(** * The arguments of [train] and [imgclas.model_utils] *)

Module PyFmt.

(** The line feed. *)
Definition nl : string := String "010" EmptyString.

(** [c * n] for a one-character string [c]. *)
Fixpoint times (c : ascii) (n : nat) : string :=
  match n with
  | O => EmptyString
  | S n => String c (times c n)
  end.

(** ["{:<n}".format(s)]: [s] padded with spaces on its right up to [n]
    characters, and [s] itself when it is longer. *)
Definition ljust (n : nat) (s : string) : string :=
  (s ++ times " " (n - String.length s))%string.

(** [bool(v)] for a decoded value. *)
Definition truthy (v : json) : bool :=
  match v with
  | JNull => false
  | JBool b => b
  | JInt n => negb (n =? 0)%Z
  | JFloat m _ => negb (m =? 0)%Z
  | JStr s => negb (String.eqb s EmptyString)
  | JList l => match l with [] => false | _ => true end
  | JDict d => match d with [] => false | _ => true end
  end.

(** [os.path.join(a, b)] for a relative [b]. *)
Definition path_join (a b : string) : string :=
  if String.eqb a EmptyString then b
  else if Py.endswith a "/" then (a ++ b)%string
  else (a ++ "/" ++ b)%string.

(** [''.join(l)]. *)
Definition join (l : list string) : string :=
  foldr String.append EmptyString l.

End PyFmt.

(** What Python prints: [json.dumps], [json.dump] with sorted keys, [str],
    and the names that [builtins] has. *)
Class Printers : Type := {
  json_dumps : json → string;
  (** [json.dump(conf, outfile, sort_keys=True, indent=4)]: the text. *)
  json_dump_sorted : gmap string (gmap string json) → string;
  py_str : json → string;
  (** [getattr(builtins, name)]: [None] when [builtins] has no such
      attribute, otherwise whether the attribute is true as a condition (a
      type is; [None] and [False] are attributes that are not). *)
  builtins_getattr : string → option bool;
}.

(** One value of the dictionary [get_train_args] returns. *)
Record train_arg : Type := TrainArg {
  arg_default : string;
  arg_help : string;
  arg_required : bool;
}.

(** A [dict] of [dict]s as [items()] lists it, in insertion order. *)
Abbreviation conf_items := (list (string * list (string * descriptor))).

(** The listing is one of the schema: the keys of a [dict] are distinct. *)
Definition lists_schema (default_conf : conf_items) (C : schema) : Prop :=
  NoDup default_conf.*1
  ∧ Forall (λ gv, NoDup gv.2.*1) default_conf
  ∧ C = list_to_map (prod_map id list_to_map <$> default_conf).

Section TrainArgs.
Context `{Collab : Collaborators} `{Pr : Printers}.

(** Lines 350-364, for one key of one group. *)
Definition opt_args (group : string) (g_val : descriptor) : result train_arg :=
  (* Load optional keys *)
  let help := default EmptyString (d_help g_val) in
  match
    match d_type g_val with
    | Some t =>
        match builtins_getattr t with
        | Some true => Return (Some t)
        | Some false => Return None
        | None => Raise AttributeError
        end
    | None => Return None
    end
  with
  | Raise e => Raise e
  | Return type =>
      let choices := d_choices g_val in
      (* Additional info in help string *)
      let help := (help ++ PyFmt.nl ++ "Group name: **" ++ group ++ "**")%string in
      let help :=
        match choices with
        | Some (c :: cs) =>
            (help ++ PyFmt.nl ++ "Choices: " ++ py_str (JList (c :: cs)))%string
        | _ => help
        end in
      let help :=
        match type with
        | Some t => (help ++ PyFmt.nl ++ "Type: " ++ t)%string
        | None => help
        end in
      Return {| arg_default := json_dumps (d_value g_val);
                arg_help := help;
                arg_required := false |}
  end.

(** Lines 349-368: the keys of one group. *)
Fixpoint args_of_group (group : string) (val : list (string * descriptor))
    (train_args : gmap string train_arg) : result (gmap string train_arg) :=
  match val with
  | [] => Return train_args
  | (g_key, g_val) :: val =>
      match opt_args group g_val with
      | Return opt => args_of_group group val (<[g_key := opt]> train_args)
      | Raise e => Raise e
      end
  end.

(** Lines 348-368. *)
Fixpoint args_of_groups (default_conf : conf_items)
    (train_args : gmap string train_arg) : result (gmap string train_arg) :=
  match default_conf with
  | [] => Return train_args
  | (group, val) :: default_conf =>
      match args_of_group group val train_args with
      | Return train_args => args_of_groups default_conf train_args
      | Raise e => Raise e
      end
  end.

(** [get_train_args] (lines 333-369), on [config.CONF] as its [items()]
    list it. *)
Definition get_train_args (default_conf : conf_items)
  : M (gmap string train_arg) :=
  catch_error (lift (args_of_groups default_conf ∅)).

(** The two loops as one, over the keys of all groups in the order the
    loops visit them. *)
Fixpoint args_of_entries (entries : list (string * (string * descriptor)))
    (train_args : gmap string train_arg) : result (gmap string train_arg) :=
  match entries with
  | [] => Return train_args
  | (g_key, (group, g_val)) :: entries =>
      match opt_args group g_val with
      | Return opt => args_of_entries entries (<[g_key := opt]> train_args)
      | Raise e => Raise e
      end
  end.

End TrainArgs.

(** The keys of all groups, each with its group and its descriptor, in the
    order of the listing. *)
Definition flat_items (default_conf : conf_items)
  : list (string * (string * descriptor)) :=
  mjoin ((λ gv, (λ kd, (kd.1, (gv.1, kd.2))) <$> gv.2) <$> default_conf).

(** The declared type of the entry, if any, is a name of [builtins]. *)
Definition known_type `{Printers} (e : string * (string * descriptor)) : Prop :=
  ∀ t, d_type e.2.2 = Some t → is_Some (builtins_getattr t).

(** ** [save_conf] (model_utils.py, lines 116-139) *)

Section SaveConf.
Context `{Pr : Printers}.

(** Line 133. *)
Definition txt_header : string :=
  (PyFmt.ljust 25 "group" ++ PyFmt.ljust 30 "key" ++ PyFmt.ljust 30 "value"
   ++ " " ++ PyFmt.nl)%string.

(** Line 137. *)
Definition txt_row (key g_key : string) (g_val : json) : string :=
  (PyFmt.ljust 25 key ++ PyFmt.ljust 30 g_key
   ++ PyFmt.ljust 15 (py_str g_val) ++ " " ++ PyFmt.nl)%string.

(** Lines 136-138: the writes for one group. *)
Definition txt_group (key : string) (val : gmap string json) : list string :=
  ((λ kv, txt_row key kv.1 kv.2) <$> Py.sorted_items val)
  ++ [(PyFmt.times "-" 75 ++ PyFmt.nl)%string].

(** Lines 133-138: what is written to [conf.txt], one element per call of
    [write]. *)
Definition conf_txt (conf : gmap string (gmap string json)) : list string :=
  txt_header
  :: (PyFmt.times "=" 75 ++ PyFmt.nl)%string
  :: mjoin ((λ gv, txt_group gv.1 gv.2) <$> Py.sorted_items conf).

(** [save_conf], on the files of the configuration directory [save_dir]
    (an existing directory): both files are opened for writing, which
    replaces what they held. *)
Definition save_conf (save_dir : string) (conf : gmap string (gmap string json))
    (fs : gmap string string) : gmap string string :=
  let fs := <[PyFmt.path_join save_dir "conf.json" := json_dump_sorted conf]> fs in
  <[PyFmt.path_join save_dir "conf.txt" := PyFmt.join (conf_txt conf)]> fs.

End SaveConf.

(** ** [get_callbacks] (model_utils.py, lines 181-237) *)

(** The callbacks of keras and of the module, with their arguments. *)
Inductive callback : Type :=
| TerminateOnNaN
| LRHistory
| LR_scheduler (lr_decay : json) (epoch_milestones : list Z)
| RemoteMonitor
| EarlyStopping (patience : Z).

(** The floating-point arithmetic of numpy and Python. *)
Class Numeric : Type := {
  ndarray : Type;
  (** [np.array(schedule)]. *)
  np_array : json → result ndarray;
  (** [(a * epochs).astype(np.int)], as the list [tolist()] gives. *)
  np_times : ndarray → json → result (list Z);
  (** [int(0.1 * epochs)]. *)
  int_tenth : json → result Z;
}.

(** [CONF[group][key]]. *)
Definition conf_item (CONF : gmap string (gmap string json))
    (group key : string) : result json :=
  match CONF !! group with
  | None => Raise (KeyError group)
  | Some val =>
      match val !! key with
      | None => Raise (KeyError key)
      | Some v => Return v
      end
  end.

Definition and_then {A B} (r : result A) (k : A → result B) : result B :=
  match r with
  | Return a => k a
  | Raise e => Raise e
  end.

Section Callbacks.
Context `{Num : Numeric}.

Definition get_callbacks (CONF : gmap string (gmap string json))
    (use_lr_decay : bool) : result (option (list callback)) :=
  (* Add mandatory callbacks *)
  let calls := [TerminateOnNaN; LRHistory] in
  (* Add optional callbacks *)
  and_then
    (if use_lr_decay then
       and_then (conf_item CONF "training" "lr_step_schedule") (λ schedule,
       and_then (np_array schedule) (λ a,
       and_then (conf_item CONF "training" "epochs") (λ epochs,
       and_then (np_times a epochs) (λ milestones,
       and_then (conf_item CONF "training" "lr_step_decay") (λ lr_decay,
       Return (calls ++ [LR_scheduler lr_decay milestones]))))))
     else Return calls) (λ calls,
  and_then (conf_item CONF "monitor" "use_remote") (λ use_remote,
  let calls := if PyFmt.truthy use_remote then calls ++ [RemoteMonitor]
               else calls in
  and_then (conf_item CONF "training" "use_validation") (λ use_validation,
  and_then
    (if PyFmt.truthy use_validation then
       and_then (conf_item CONF "training" "use_early_stopping")
         (λ use_early_stopping,
       if PyFmt.truthy use_early_stopping then
         and_then (conf_item CONF "training" "epochs") (λ epochs,
         and_then (int_tenth epochs) (λ patience,
         Return (calls ++ [EarlyStopping patience])))
       else Return calls)
     else Return calls) (λ calls,
  Return (match calls with
          | [] => None
          | _ => Some calls
          end))))).

End Callbacks.

(** The callbacks the module adds without any condition. *)
Definition mandatory (c : callback) : Prop :=
  c = TerminateOnNaN ∨ c = LRHistory.

(** ** Printers and arithmetic for the examples *)

Definition demo_json_dumps (v : json) : string :=
  match v with
  | JNull => "null"
  | JBool true => "true"
  | JBool false => "false"
  | JInt 1 => "1"
  | JInt 2 => "2"
  | JInt 64 => "64"
  | _ => "{}"
  end.

Definition demo_printers : Printers := {|
  json_dumps := demo_json_dumps;
  json_dump_sorted := λ _, "{}";
  py_str := demo_json_dumps;
  builtins_getattr := λ name,
    if bool_decide (name ∈ ["int"; "float"; "str"; "bool"; "list"; "dict"])
    then Some true
    else if bool_decide (name ∈ ["None"; "False"]) then Some false
    else None;
|}.

Definition small_items : conf_items :=
  [("model", [("image_size", set_value demo_image_size (JInt 64))]);
   ("training", [("batch_size", set_value demo_batch_size (JInt 2))])].

Definition demo_numeric : Numeric := {|
  ndarray := list json;
  np_array := λ schedule,
    match schedule with
    | JList l => Return l
    | _ => Return [schedule]
    end;
  np_times := λ a epochs,
    match a, epochs with
    | [], JInt _ => Return []
    | _, _ => Raise TypeError
    end;
  int_tenth := λ epochs,
    match epochs with
    | JInt n => Return (n / 10)%Z
    | _ => Raise TypeError
    end;
|}.

Definition demo_train_conf : gmap string (gmap string json) :=
  {[ "training" := {[ "use_validation" := JBool false;
                      "epochs" := JInt 30 ]};
     "monitor" := {[ "use_remote" := JBool true ]} ]}.

(** * Properties *)

(** ** Sorting *)

Lemma item_last_sorted (l : list string) :
  l ≠ [] →
  ∃ m, Py.item_last (Py.sorted l) = Return m ∧ m ∈ l
       ∧ ∀ t, t ∈ l → String.le t m.
Proof.
  intros Hne. unfold Py.item_last, Py.sorted.
  pose proof (merge_sort_Permutation String.le l) as Hperm.
  pose proof (StronglySorted_merge_sort String.le l) as Hsorted.
  destruct (last (merge_sort String.le l)) as [m|] eqn:Hlast.
  - exists m. apply last_Some in Hlast as [l' Hl'].
    rewrite Hl' in Hperm, Hsorted. split; [done|]. split.
    + rewrite <- Hperm. set_solver.
    + intros t Ht. rewrite <- Hperm in Ht.
      apply elem_of_app in Ht as [Ht|Ht].
      * eapply (StronglySorted_app_1_elem_of String.le); [done..|set_solver].
      * apply list_elem_of_singleton in Ht as ->. done.
  - apply last_None in Hlast. rewrite Hlast in Hperm.
    apply Permutation_nil_l in Hperm. done.
Qed.

(** ** Snapshot and checkpoint selection *)

Example select_timestamp_api :
  select_timestamp ["2018-01-01"; "api"; "2019-05-05"] = Return "api".
Proof. vm_compute. reflexivity. Qed.

Example select_timestamp_last :
  select_timestamp ["2019-05-05"; "2018-01-01"] = Return "2019-05-05".
Proof. vm_compute. reflexivity. Qed.

Example select_checkpoint_final :
  select_checkpoint "api" ["epoch-01.h5"; "epoch-09.h5"; "final_model.h5"]
  = Return "final_model.h5".
Proof. vm_compute. reflexivity. Qed.

(** C3: with no snapshot directory the selection fails with the
    NoModelsAvailable client error; with a directory named [api] it returns
    ["api"]; otherwise it returns a directory name that is greatest in
    lexicographic order. *)
Theorem select_timestamp_policy (timestamps : list string) :
  (timestamps = [] → select_timestamp timestamps = Raise NoModelsAvailable)
  ∧ (timestamps ≠ [] → "api" ∈ timestamps →
     select_timestamp timestamps = Return "api")
  ∧ (timestamps ≠ [] → "api" ∉ timestamps →
     ∃ m, select_timestamp timestamps = Return m ∧ m ∈ timestamps
          ∧ ∀ t, t ∈ timestamps → String.le t m).
Proof.
  unfold select_timestamp. repeat split.
  - intros ->. done.
  - intros Hne Hapi. rewrite bool_decide_eq_false_2 by done.
    by rewrite bool_decide_eq_true_2.
  - intros Hne Hapi. rewrite !bool_decide_eq_false_2 by done.
    by apply item_last_sorted.
Qed.

Lemma select_timestamp_policy_witness :
  select_timestamp [] = Raise NoModelsAvailable
  ∧ select_timestamp ["2018-01-01"; "api"; "2019-05-05"] = Return "api"
  ∧ ∃ m, select_timestamp ["2018-01-01"; "2019-05-05"] = Return m
         ∧ m ∈ ["2018-01-01"; "2019-05-05"]
         ∧ ∀ t, t ∈ ["2018-01-01"; "2019-05-05"] → String.le t m.
Proof.
  split; [|split].
  - apply (select_timestamp_policy []). reflexivity.
  - apply (select_timestamp_policy ["2018-01-01"; "api"; "2019-05-05"]).
    + discriminate.
    + compute_done.
  - apply (select_timestamp_policy ["2018-01-01"; "2019-05-05"]).
    + discriminate.
    + compute_done.
Defined.

(** No name ends with the four characters [*.h5] unless it holds a star. *)
Lemma select_checkpoint_no_star (TIMESTAMP : string) (ckpts : list string) :
  ckpts ≠ [] → "final_model.h5" ∉ ckpts →
  Forall (λ name, Py.endswith name "*.h5" = false) ckpts →
  select_checkpoint TIMESTAMP ckpts = Raise IndexError.
Proof.
  intros Hne Hfinal Hstar. unfold select_checkpoint.
  rewrite !bool_decide_eq_false_2 by done.
  replace (filter _ ckpts) with (@nil string); [done|].
  symmetry. clear Hne Hfinal.
  induction Hstar as [|name l Hname _ IH]; [done|].
  rewrite filter_cons_False; [apply IH | by rewrite Hname].
Qed.

(** C1: on the two checkpoints [epoch-01.h5] and [epoch-09.h5] the
    selection raises [IndexError] where the policy asks for [epoch-09.h5]:
    the names are filtered by [endswith('*.h5')], which none of them
    satisfies. *)
Theorem select_checkpoint_epochs (TIMESTAMP : string) :
  select_checkpoint TIMESTAMP ["epoch-01.h5"; "epoch-09.h5"] = Raise IndexError.
Proof. vm_compute. reflexivity. Qed.

(** ** Class metadata *)

Lemma resolve_class_info_mismatch (class_names class_info : list string) :
  length class_info ≠ length class_names →
  resolve_class_info class_names (Some class_info)
  = replicate (length class_names) "".
Proof.
  intros Hlen. unfold resolve_class_info.
  by rewrite bool_decide_eq_true_2.
Qed.

(** ** What a computation leaves unchanged *)

Section Frame.
Context `{Collab : Collaborators}.

Section preorder.
Context (R : relation world) `{!PreOrder R}.

Lemma stable_ret {A} (a : A) : stable R (ret a).
Proof. intros w. simpl. reflexivity. Qed.

Lemma stable_raise {A} (e : exn) : stable R (@raise _ A e).
Proof. intros w. simpl. reflexivity. Qed.

Lemma stable_lift {A} (r : result A) : stable R (lift r).
Proof. intros w. simpl. reflexivity. Qed.

Lemma stable_or_raise {A} (o : option A) (e : exn) : stable R (or_raise o e).
Proof. destruct o; [apply stable_ret | apply stable_raise]. Qed.

Lemma stable_call (o : option exn) : stable R (call o).
Proof. destruct o; [apply stable_raise | apply stable_ret]. Qed.

Lemma stable_get_vars : stable R get_vars.
Proof. intros w. simpl. reflexivity. Qed.

Lemma stable_get_files : stable R get_files.
Proof. intros w. simpl. reflexivity. Qed.

Lemma stable_get_CONF : stable R get_CONF.
Proof. intros w. simpl. reflexivity. Qed.

Lemma stable_bind {A B} (m : M A) (k : A → M B) :
  stable R m → (∀ a, stable R (k a)) → stable R (bind m k).
Proof.
  intros Hm Hk w. unfold bind. specialize (Hm w).
  destruct (m w) as [[a|e] w1]; simpl in *; [|done].
  etrans; [done|]. apply Hk.
Qed.

Lemma stable_try_except {A} (body : M A) (handler : exn → M A) :
  stable R body → (∀ e, stable R (handler e)) →
  stable R (try_except body handler).
Proof.
  intros Hm Hk w. unfold try_except. specialize (Hm w).
  destruct (body w) as [[a|e] w1]; simpl in *; [done|].
  etrans; [done|]. apply Hk.
Qed.

Lemma stable_try_finally {A} (body : M A) (cleanup : M unit) :
  stable R body → stable R cleanup → stable R (try_finally body cleanup).
Proof.
  intros Hm Hk w. unfold try_finally. specialize (Hm w).
  destruct (body w) as [r w1]; simpl in *. specialize (Hk w1).
  destruct (cleanup w1) as [[[]|e] w2]; simpl in *; by etrans.
Qed.

Lemma stable_catch_error {A} (f : M A) : stable R f → stable R (catch_error f).
Proof.
  intros Hf. apply stable_try_except; [done|]. intros e. apply stable_raise.
Qed.

Lemma stable_for_each {A} (l : list A) (body : A → M unit) :
  (∀ x, x ∈ l → stable R (body x)) → stable R (for_each l body).
Proof.
  induction l as [|x l IH]; intros Hbody; simpl.
  - apply stable_ret.
  - apply stable_bind; [apply Hbody; left|].
    intros _. apply IH. intros y Hy. apply Hbody. by right.
Qed.

Lemma stable_if {A} (b : bool) (m1 m2 : M A) :
  stable R m1 → stable R m2 → stable R (if b then m1 else m2).
Proof. by destruct b. Qed.

End preorder.

Global Instance silent_preorder : PreOrder silent.
Proof.
  split; [by intros w|]. unfold silent.
  intros w1 w2 w3 (?&?&?) (?&?&?). repeat split; congruence.
Qed.

Lemma after_events_nil (w : world) : after_events w [] = w.
Proof. destruct w. unfold after_events. simpl. by rewrite app_nil_r. Qed.

Lemma after_events_app (w : world) (evs evs' : list event) :
  after_events (after_events w evs) evs' = after_events w (evs ++ evs').
Proof. unfold after_events. simpl. by rewrite app_assoc. Qed.

Global Instance calls_preorder (ok : event → Prop) : PreOrder (calls ok).
Proof.
  split.
  - intros w. exists []. by rewrite app_nil_r.
  - intros w1 w2 w3 (evs & H12 & Hevs) (evs' & H23 & Hevs').
    exists (evs ++ evs'). rewrite H23, H12, app_assoc. split; [done|].
    by apply Forall_app.
Qed.

Global Instance cached_preorder (ok : event → Prop) : PreOrder (cached ok).
Proof.
  split.
  - intros w _. split; reflexivity.
  - intros w1 w2 w3 H12 H23 Hloaded. destruct (H12 Hloaded) as [Hv12 Hc12].
    rewrite <- Hv12 in Hloaded. destruct (H23 Hloaded) as [Hv23 Hc23].
    split; [congruence | by etrans].
Qed.

Lemma emit_after (e : event) (w : world) :
  emit e w = (Return tt, after_events w [e]).
Proof. reflexivity. Qed.

Lemma calls_emit (ok : event → Prop) (e : event) :
  ok e → stable (calls ok) (emit e).
Proof. intros He w. exists [e]. split; [done|]. by constructor. Qed.

Lemma calls_silent (ok : event → Prop) {A} (m : M A) :
  (∀ w, trace (m w).2 = trace w) → stable (calls ok) m.
Proof. intros Hm w. exists []. by rewrite app_nil_r, Hm. Qed.

Lemma cached_emit (ok : event → Prop) (e : event) :
  ok e → stable (cached ok) (emit e).
Proof. intros He w _. split; [done|]. by apply calls_emit. Qed.

Lemma cached_put_files (ok : event → Prop) (fs : gmap string string) :
  stable (cached ok) (put_files fs).
Proof. intros w _. split; [done|]. exists []. simpl. by rewrite app_nil_r. Qed.

Lemma cached_ensure_loaded (ok : event → Prop) :
  stable (cached ok) ensure_loaded.
Proof.
  intros w Hloaded. unfold ensure_loaded, bind, get_vars. rewrite Hloaded.
  simpl. split; reflexivity.
Qed.

Global Instance keeps_files_preorder : PreOrder keeps_files.
Proof.
  split.
  - intros w. split; reflexivity.
  - intros w1 w2 w3 [Hf12 Hc12] [Hf23 Hc23]. split; [congruence | by etrans].
Qed.

Global Instance tidy_preorder : PreOrder tidy.
Proof.
  split.
  - intros w. split; [done|]. exists []. rewrite app_nil_r. split; [done|].
    intros name Hin. by apply elem_of_nil in Hin.
  - intros w1 w2 w3 (Hf12 & evs & Ht12 & H12) (Hf23 & evs' & Ht23 & H23).
    split; [congruence|]. exists (evs ++ evs').
    rewrite Ht23, Ht12, app_assoc. split; [done|].
    intros name [Hin|Hin]%elem_of_app.
    + destruct (H12 name Hin) as [??]. split; [|done].
      apply elem_of_app. by left.
    + destruct (H23 name Hin) as [??]. split; [|congruence].
      apply elem_of_app. by right.
Qed.

Lemma keeps_files_emit (e : event) : no_temp e → stable keeps_files (emit e).
Proof. intros He w. split; [done|]. by apply calls_emit. Qed.

Lemma keeps_files_assign (f : globals → globals) :
  stable keeps_files (assign f).
Proof. intros w. split; [done|]. by apply calls_silent. Qed.

Lemma keeps_files_tidy {A} (m : M A) : stable keeps_files m → stable tidy m.
Proof.
  intros Hm w. destruct (Hm w) as (Hf & evs & Ht & Hevs).
  split; [done|]. exists evs. split; [done|].
  intros name Hin. rewrite Forall_forall in Hevs.
  by destruct (Hevs _ Hin name).
Qed.

End Frame.

(** The structure of a computation decides what it leaves unchanged: the
    combinators are taken apart, [prim] closes the primitive steps. *)
Ltac stable_with prim :=
  repeat first
    [ match goal with
      | |- PreOrder _ => apply _
      | |- ∀ _, _ => intro
      | |- stable _ (match ?x with _ => _ end) => destruct x
      end
    | apply stable_ret | apply stable_raise | apply stable_lift
    | apply stable_or_raise | apply stable_call
    | apply stable_get_vars | apply stable_get_files | apply stable_get_CONF
    | prim
    | apply stable_bind
    | apply stable_for_each
    | apply stable_try_except
    | apply stable_try_finally
    | apply stable_catch_error
    | apply stable_if ].

(** ** The validators *)

Section Validators.
Context `{Collab : Collaborators}.

(** The loop of [catch_url_error]: the requests go out in the order of the
    list, and the first URL that is not an image ends them. *)
Lemma check_urls_images (urls : list string) (body : string → M unit)
    (w : world) :
  Forall (λ url, ∀ w, body url w = (Return tt, after_events w [EvHead url]))
         urls →
  for_each urls body w = (Return tt, after_events w (EvHead <$> urls)).
Proof.
  intros Hurls. revert w.
  induction Hurls as [|url urls Hurl _ IH]; intros w; simpl.
  - by rewrite after_events_nil.
  - unfold bind. rewrite Hurl, IH. by rewrite after_events_app.
Qed.

Lemma check_urls_first_bad (good rest : list string) (bad : string)
    (body : string → M unit) (e : exn) (w : world) :
  Forall (λ url, ∀ w, body url w = (Return tt, after_events w [EvHead url]))
         good →
  (∀ w, body bad w = (Raise e, after_events w [EvHead bad])) →
  for_each (good ++ bad :: rest) body w
  = (Raise e, after_events w (EvHead <$> good ++ [bad])).
Proof.
  intros Hgood Hbad. revert w.
  induction Hgood as [|url urls Hurl _ IH]; intros w; simpl.
  - unfold bind. by rewrite Hbad.
  - unfold bind. rewrite Hurl, IH. by rewrite after_events_app.
Qed.

Lemma image_url_body (url : string) (w : world) :
  image_url url →
  bind (emit (EvHead url)) (λ _,
    bind (or_raise (requests_head url) UnreachableUrl) (λ url_type,
      bind (or_raise url_type AttributeError) (λ url_type,
        if bool_decide (Py.split_first "/" url_type ≠ "image")
        then raise NotAnImage else ret tt))) w
  = (Return tt, after_events w [EvHead url]).
Proof.
  intros (t & Hhead & Himage). unfold bind. rewrite emit_after, Hhead. simpl.
  by rewrite bool_decide_eq_false_2 by (by intros []).
Qed.

(** C7, as the code has it: the HEAD requests go out in the order of the
    list and stop at the first URL that fails.  When every URL answers with
    an image content type the validator returns; when the first URL that
    does not is unreachable it raises UnreachableUrl; when that URL answers
    with a content type whose primary type is not [image] it raises
    NotAnImage.  No request is made for the URLs after it. *)
Theorem catch_url_error_first_failure (w : world) :
  (∀ urls, urls ≠ [] → Forall image_url urls →
     catch_url_error urls w = (Return tt, after_events w (EvHead <$> urls)))
  ∧ (∀ good bad rest, Forall image_url good → requests_head bad = None →
       catch_url_error (good ++ bad :: rest) w
       = (Raise UnreachableUrl, after_events w (EvHead <$> good ++ [bad])))
  ∧ (∀ good bad rest url_type, Forall image_url good →
       requests_head bad = Some (Some url_type) →
       Py.split_first "/" url_type ≠ "image" →
       catch_url_error (good ++ bad :: rest) w
       = (Raise NotAnImage, after_events w (EvHead <$> good ++ [bad]))).
Proof.
  split; [|split].
  - intros urls Hne Hurls. unfold catch_url_error.
    rewrite bool_decide_eq_false_2 by done.
    apply check_urls_images. eapply Forall_impl; [done|].
    intros url Hurl w'. by apply image_url_body.
  - intros good bad rest Hgood Hbad. unfold catch_url_error.
    rewrite bool_decide_eq_false_2 by (by destruct good).
    apply check_urls_first_bad.
    + eapply Forall_impl; [done|]. intros url Hurl w'. by apply image_url_body.
    + intros w'. unfold bind. by rewrite emit_after, Hbad.
  - intros good bad rest url_type Hgood Hbad Htype. unfold catch_url_error.
    rewrite bool_decide_eq_false_2 by (by destruct good).
    apply check_urls_first_bad.
    + eapply Forall_impl; [done|]. intros url Hurl w'. by apply image_url_body.
    + intros w'. unfold bind. rewrite emit_after, Hbad. simpl.
      by rewrite bool_decide_eq_true_2.
Qed.

(** C8: on the empty list both validators raise EmptyQuery, and both
    prediction calls end there: the world is as it was, so that the model
    was neither loaded nor run. *)
Theorem empty_query (merge : bool) (w : world) :
  catch_url_error [] w = (Raise EmptyQuery, w)
  ∧ catch_localfile_error [] w = (Raise EmptyQuery, w)
  ∧ predict_url [] merge w = (Raise (BadRequest (Cause EmptyQuery)), w)
  ∧ predict_data (FileList []) merge w
    = (Raise (BadRequest (Cause EmptyQuery)), w).
Proof. repeat split. Qed.

End Validators.

(** ** Loading the model *)

Section Loading.
Context `{Collab : Collaborators}.

Lemma stable_write_temp_files (R : relation world) `{!PreOrder R}
    (images : list string) :
  (∀ name, stable R (emit (EvTempFile name))) →
  (∀ fs, stable R (put_files fs)) →
  stable R (write_temp_files images).
Proof.
  intros Hemit Hput. induction images as [|image images IH]; simpl.
  - apply stable_ret, _.
  - stable_with ltac:(first [apply Hemit | apply Hput | apply IH]).
Qed.

Lemma cached_predict_url (urls : list string) (merge : bool) :
  stable (cached (λ e, is_load_event e = false)) (predict_url urls merge).
Proof.
  unfold predict_url, run_predict, format_prediction, catch_url_error.
  stable_with ltac:(first [ apply cached_ensure_loaded
                          | apply cached_emit; reflexivity ]).
Qed.

Lemma cached_predict_data (arg : files_arg) (merge : bool) :
  stable (cached (λ e, is_load_event e = false)) (predict_data arg merge).
Proof.
  unfold predict_data, run_predict, format_prediction, catch_localfile_error,
    os_remove.
  stable_with ltac:(first [ apply cached_ensure_loaded
                          | apply cached_emit; reflexivity
                          | apply cached_put_files
                          | apply stable_write_temp_files ]).
Qed.

(** C6: with the loaded flag set, the load-if-absent step returns at once
    and leaves the world as it was; a prediction call then leaves the cached
    network, configuration, class names and metadata unchanged and makes
    none of the calls of the loader. *)
Theorem loaded_no_reload (w : world) :
  loaded (vars w) = true →
  ensure_loaded w = (Return tt, w)
  ∧ ∀ merge,
      (∀ urls, vars (predict_url urls merge w).2 = vars w
               ∧ calls (λ e, is_load_event e = false)
                       w (predict_url urls merge w).2)
      ∧ (∀ arg, vars (predict_data arg merge w).2 = vars w
                ∧ calls (λ e, is_load_event e = false)
                        w (predict_data arg merge w).2).
Proof.
  intros Hloaded. split.
  - unfold ensure_loaded, bind, get_vars. by rewrite Hloaded.
  - intros merge. split.
    + intros urls. by apply cached_predict_url.
    + intros arg. by apply cached_predict_data.
Qed.

(** Running the loader: every call of a collaborator is a case. *)
Ltac run_load H :=
  cbv [load_inference_model bind emit or_raise lift assign get_vars put_vars
       ret raise] in H;
  repeat (case_match; simplify_eq/=).

(** A successful load sets the flag: the next call will not load again. *)
Lemma load_inference_model_loaded (w w' : world) :
  load_inference_model w = (Return tt, w') → loaded (vars w') = true.
Proof.
  intros Hload. run_load Hload; done.
Qed.

Lemma format_rows_metadata (class_names : option (list string)) (n : nat)
    (rows : list (Z * prob)) (preds : list prediction) :
  format_rows class_names (Some (replicate n "")) rows = Return preds →
  Forall (λ p, metadata p = "") preds.
Proof.
  revert preds. induction rows as [|[label_id p] rows IH]; intros preds; simpl.
  - intros [= <-]. constructor.
  - destruct (subscript class_names label_id) as [name|]; [|done].
    destruct (Py.item (replicate n "") label_id) as [info|] eqn:Hinfo; [|done].
    destruct (format_rows _ _ rows) as [preds'|]; [|done].
    intros [= <-]. constructor; [|by apply IH]. simpl.
    unfold Py.item in Hinfo. repeat case_match; simplify_eq.
    all: by eapply lookup_replicate_1.
Qed.

(** C4: when [info.txt] is listed and holds a number of lines other than
    the number of class names, a load that succeeds leaves as metadata one
    empty string per class name, and every prediction formatted from then on
    carries the empty string as its metadata. *)
Theorem mismatched_info_discarded (w w' : world)
    (TIMESTAMP : string) (listing class_names class_info : list string) :
  load_inference_model w = (Return tt, w') →
  paths_timestamp (vars w') = Some TIMESTAMP →
  os_listdir_splits TIMESTAMP = Some listing → "info.txt" ∈ listing →
  load_class_names TIMESTAMP = Return class_names →
  load_class_info TIMESTAMP = Return class_info →
  length class_info ≠ length class_names →
  g_class_names (vars w') = Some class_names
  ∧ g_class_info (vars w') = Some (replicate (length class_names) "")
  ∧ ∀ labels probabilities r w'',
      format_prediction labels probabilities w' = (Return r, w'') →
      Forall (λ p, metadata p = "") (predictions r).
Proof.
  intros Hload Hts Hlisting Hinfo Hnames Hlines Hlen.
  assert (g_class_names (vars w') = Some class_names
          ∧ g_class_info (vars w')
            = Some (replicate (length class_names) "")) as [Hn Hi].
  { run_load Hload.
    - rewrite Hnames in *. rewrite Hlines in *. simplify_eq.
      by rewrite resolve_class_info_mismatch.
    - match goal with
      | Hlisted : bool_decide (_ ∈ _) = false |- _ =>
          by apply bool_decide_eq_false_1 in Hlisted
      end. }
  repeat split; [done..|].
  intros labels probabilities r w''.
  unfold format_prediction, bind, get_vars, lift, ret. rewrite Hn, Hi.
  destruct (format_rows _ _ _) as [preds|] eqn:Hrows; [|done].
  intros [= <- <-]. simpl. by eapply format_rows_metadata.
Qed.

End Loading.

(** ** Temporary files *)

Section TempFiles.
Context `{Collab : Collaborators}.

(** The files written are new ones, each under its own name. *)
Lemma write_temp_files_spec (images : list string) (w : world) :
  ∃ names fs',
    write_temp_files images w
    = (Return names, {| vars := vars w; CONF := CONF w; files := fs';
                        trace := trace w ++ (EvTempFile <$> names) |})
    ∧ NoDup names
    ∧ (∀ n, n ∈ names → files w !! n = None ∧ is_Some (fs' !! n))
    ∧ (∀ n, n ∉ names → fs' !! n = files w !! n).
Proof.
  revert w. induction images as [|image images IH]; intros w; simpl.
  - exists [], (files w). simpl. rewrite app_nil_r. destruct w.
    split; [done|]. split; [apply NoDup_nil_2|].
    split; [|done]. intros n Hn. by apply elem_of_nil in Hn.
  - unfold bind at 1. simpl. unfold bind at 1. simpl. unfold bind at 1. simpl.
    set (name := new_temp_name (files w)).
    set (w1 := {| vars := vars w; CONF := CONF w;
                  files := <[name := image]> (files w);
                  trace := trace w ++ [EvTempFile name] |}).
    destruct (IH w1) as (names & fs' & Hrun & Hnodup & Hnew & Hold).
    unfold bind. rewrite Hrun. simpl.
    exists (name :: names), fs'. rewrite <- app_assoc. simpl.
    assert (name ∉ names) as Hname.
    { intros Hin. destruct (Hnew _ Hin) as [Hnone _]. simpl in Hnone.
      by rewrite lookup_insert_eq in Hnone. }
    split; [done|]. split; [by constructor|]. split.
    + intros n [->|Hin]%elem_of_cons.
      * split; [apply new_temp_name_fresh|].
        rewrite (Hold _ Hname). simpl. by rewrite lookup_insert_eq.
      * destruct (Hnew _ Hin) as [Hnone Hsome]. split; [|done].
        simpl in Hnone. rewrite lookup_insert_ne in Hnone; [done|].
        by intros ->.
    + intros n Hn. apply not_elem_of_cons in Hn as [Hne Hn].
      rewrite (Hold _ Hn). simpl. by rewrite lookup_insert_ne.
Qed.

(** Removing files that are there removes them all. *)
Lemma remove_all_spec (names : list string) (w : world) :
  (∀ n, n ∈ names → is_Some (files w !! n)) → NoDup names →
  for_each names os_remove w
  = (Return tt, {| vars := vars w; CONF := CONF w;
                   files := foldr delete (files w) names;
                   trace := trace w ++ (EvRemove <$> names) |}).
Proof.
  intros Hthere Hnodup. revert w Hthere.
  induction Hnodup as [|n names Hn _ IH]; intros w Hthere; simpl.
  - rewrite app_nil_r. by destruct w.
  - destruct (Hthere n) as [image Hfile]; [by left|].
    unfold bind at 1, os_remove, bind. simpl. rewrite Hfile. simpl.
    rewrite IH; simpl.
    + by rewrite delete_foldr_delete, <- app_assoc.
    + intros n' Hn'. rewrite lookup_delete_ne by (by intros ->).
      apply Hthere. by right.
Qed.

(** The scope of the temporary files: whatever the body does with them,
    they are gone when it is left. *)
Lemma tidy_temp_block {A B} (images : list string)
    (body : list string → M A) (k : A → M B) :
  (∀ names, stable keeps_files (body names)) →
  (∀ a, stable tidy (k a)) →
  stable tidy
    (bind (write_temp_files images) (λ filenames,
       bind (try_finally (body filenames) (for_each filenames os_remove)) k)).
Proof.
  intros Hbody Hk w. unfold bind at 1.
  destruct (write_temp_files_spec images w)
    as (names & fs' & -> & Hnodup & Hnew & Hold).
  set (w3 := {| vars := vars w; CONF := CONF w; files := fs';
                trace := trace w ++ (EvTempFile <$> names) |}).
  unfold bind, try_finally.
  destruct (Hbody names w3) as (Hfiles & evs & Htrace & Hevs).
  destruct (body names w3) as [r w4]. simpl in Hfiles, Htrace.
  rewrite remove_all_spec;
    [|intros n Hn; rewrite Hfiles; by apply Hnew|done].
  set (w5 := {| vars := vars w4; CONF := CONF w4;
                files := foldr delete (files w4) names;
                trace := trace w4 ++ (EvRemove <$> names) |}).
  assert (tidy w w5) as Htidy.
  { split.
    - simpl. rewrite Hfiles. apply map_eq. intros n.
      destruct (decide (n ∈ names)) as [Hn|Hn].
      + rewrite lookup_foldr_delete by done. symmetry. by apply Hnew.
      + rewrite lookup_foldr_delete_not_elem_of by done. by apply Hold.
    - exists ((EvTempFile <$> names) ++ evs ++ (EvRemove <$> names)).
      simpl. rewrite Htrace, <- !app_assoc. split; [done|].
      intros name Hin. rewrite !elem_of_app in Hin.
      destruct Hin as [Hin|[Hin|Hin]].
      + apply list_elem_of_fmap in Hin as (n & [= ->] & Hn). split.
        * rewrite !elem_of_app. right. right. by apply list_elem_of_fmap_2.
        * by apply Hnew.
      + rewrite Forall_forall in Hevs. by destruct (Hevs _ Hin name).
      + by apply list_elem_of_fmap in Hin as (n & [=] & _). }
  destruct r as [a|e]; simpl; [|done].
  etrans; [done|]. apply Hk.
Qed.

Lemma tidy_predict_data (arg : files_arg) (merge : bool) :
  stable tidy (predict_data arg merge).
Proof.
  unfold predict_data, format_prediction, catch_localfile_error,
    ensure_loaded, load_inference_model.
  stable_with ltac:(first
    [ apply tidy_temp_block;
      [ intros ?; unfold run_predict;
        stable_with ltac:(apply keeps_files_emit; by intros ?)
      | intros ? ]
    | apply keeps_files_tidy;
      first [ apply keeps_files_emit; by intros ? | apply keeps_files_assign ]
    ]).
Qed.

(** C5: when a local-file prediction call returns, normally or with an
    exception, every temporary file it created has been removed, and the
    temporary directory holds what it held before the call. *)
Theorem temp_files_removed (arg : files_arg) (merge : bool) (w : world) :
  let w' := (predict_data arg merge w).2 in
  files w' = files w
  ∧ ∃ evs, trace w' = trace w ++ evs
           ∧ ∀ name, EvTempFile name ∈ evs →
                     EvRemove name ∈ evs ∧ files w' !! name = None.
Proof.
  destruct (tidy_predict_data arg merge w) as (Hfiles & evs & Htrace & Hevs).
  simpl. split; [done|]. exists evs. split; [done|].
  intros name Hin. rewrite Hfiles. by apply Hevs.
Qed.

End TempFiles.

(** ** Training *)

Section SortedItems.
Context {V : Type}.

Lemma elem_of_sorted_items (d : gmap string V) (k : string) (v : V) :
  (k, v) ∈ Py.sorted_items d ↔ d !! k = Some v.
Proof.
  unfold Py.sorted_items. rewrite merge_sort_Permutation.
  apply elem_of_map_to_list.
Qed.

Lemma NoDup_sorted_items (d : gmap string V) : NoDup (Py.sorted_items d).*1.
Proof.
  unfold Py.sorted_items. rewrite merge_sort_Permutation.
  apply NoDup_fst_map_to_list.
Qed.

Lemma foldl_fmap {A B C} (f : A → B → A) (g : C → B) (a : A) (l : list C) :
  foldl f a (g <$> l) = foldl (λ a x, f a (g x)) a l.
Proof. revert a. induction l as [|x l IH]; intros a; simpl; [done|apply IH]. Qed.

(** In-place updates of distinct keys, one after the other. *)
Lemma foldl_alter_other (fs : list (string * (V → V))) (m : gmap string V)
    (k : string) :
  k ∉ fs.*1 → foldl (λ m kf, alter kf.2 kf.1 m) m fs !! k = m !! k.
Proof.
  revert m. induction fs as [|[k' f] fs IH]; intros m Hk; simpl; [done|].
  rewrite fmap_cons in Hk. apply not_elem_of_cons in Hk as [Hne Hk].
  rewrite IH by done. by apply lookup_alter_ne.
Qed.

Lemma foldl_alter_elem (fs : list (string * (V → V))) (m : gmap string V)
    (k : string) (f : V → V) :
  NoDup fs.*1 → (k, f) ∈ fs →
  foldl (λ m kf, alter kf.2 kf.1 m) m fs !! k = f <$> m !! k.
Proof.
  revert m. induction fs as [|[k' f'] fs IH]; intros m Hnodup Hin; simpl.
  - by apply elem_of_nil in Hin.
  - rewrite fmap_cons in Hnodup. apply NoDup_cons in Hnodup as [Hk' Hnodup].
    apply elem_of_cons in Hin as [[= -> ->]|Hin].
    + rewrite foldl_alter_other by done. apply lookup_alter_eq.
    + rewrite IH by done. rewrite lookup_alter_ne; [done|].
      intros ->. apply Hk'. apply list_elem_of_fmap. by exists (k, f).
Qed.

End SortedItems.

Section Training.
Context `{Collab : Collaborators}.

(** The updates of one group, as one update of the group. *)
Lemma update_group_alter (user_conf : gmap string string) (group : string)
    (items : list (string * descriptor)) (C : schema) :
  foldl (λ C kd, alter (alter (override user_conf kd.1) kd.1) group C) C items
  = alter (λ val, foldl (λ val kd, alter (override user_conf kd.1) kd.1 val)
                        val items) group C.
Proof.
  revert C. induction items as [|kd items IH]; intros C; simpl.
  - symmetry. by apply alter_id.
  - by rewrite IH, alter_alter_eq.
Qed.

Lemma update_group_merged (user_conf : gmap string string)
    (val : gmap string descriptor) :
  foldl (λ val kd, alter (override user_conf kd.1) kd.1 val)
        val (Py.sorted_items val)
  = map_imap (λ g_key g_val, Some (override user_conf g_key g_val)) val.
Proof.
  apply map_eq. intros k. rewrite map_lookup_imap.
  pose proof (NoDup_sorted_items val) as Hnodup.
  set (fs := (λ kd : string * descriptor, (kd.1, override user_conf kd.1))
             <$> Py.sorted_items val).
  assert (fs.*1 = (Py.sorted_items val).*1) as Hkeys.
  { unfold fs. rewrite <- list_fmap_compose. done. }
  transitivity (foldl (λ m kf, alter kf.2 kf.1 m) val fs !! k).
  { unfold fs. by rewrite foldl_fmap. }
  destruct (val !! k) as [d|] eqn:Hk; simpl.
  - rewrite (foldl_alter_elem fs val k (override user_conf k)).
    + by rewrite Hk.
    + by rewrite Hkeys.
    + apply list_elem_of_fmap. exists (k, d). split; [done|].
      by apply elem_of_sorted_items.
  - rewrite foldl_alter_other; [done|]. rewrite Hkeys.
    intros ([k' d] & -> & Hin)%list_elem_of_fmap.
    apply elem_of_sorted_items in Hin. simpl in Hk. congruence.
Qed.

Lemma update_groups_alter (user_conf : gmap string string)
    (l : list (string * gmap string descriptor)) (C : schema) :
  foldl (λ C gv,
           foldl (λ C kd, alter (alter (override user_conf kd.1) kd.1) gv.1 C)
                 C (Py.sorted_items gv.2)) C l
  = foldl (λ C gv,
             alter (λ val, foldl (λ val kd,
                                    alter (override user_conf kd.1) kd.1 val)
                                 val (Py.sorted_items gv.2)) gv.1 C) C l.
Proof.
  revert C. induction l as [|gv l IH]; intros C; simpl; [done|].
  by rewrite update_group_alter, IH.
Qed.

(** All the updates of [update_conf], when none raises. *)
Lemma update_all_merged (user_conf : gmap string string) (C : schema) :
  foldl (λ C gv,
           foldl (λ C kd, alter (alter (override user_conf kd.1) kd.1) gv.1 C)
                 C (Py.sorted_items gv.2))
        C (Py.sorted_items C)
  = merged user_conf C.
Proof.
  set (G := λ val0 val : gmap string descriptor,
         foldl (λ val kd, alter (override user_conf kd.1) kd.1 val)
               val (Py.sorted_items val0)).
  set (fs := (λ gv : string * gmap string descriptor, (gv.1, G gv.2))
             <$> Py.sorted_items C).
  assert (fs.*1 = (Py.sorted_items C).*1) as Hkeys.
  { unfold fs. rewrite <- list_fmap_compose. done. }
  pose proof (NoDup_sorted_items C) as Hnodup.
  transitivity (foldl (λ m gf, alter gf.2 gf.1 m) C fs).
  { unfold fs. rewrite foldl_fmap. apply update_groups_alter. }
  apply map_eq. intros g. unfold merged. rewrite lookup_fmap.
  destruct (C !! g) as [val|] eqn:Hg; simpl.
  - rewrite (foldl_alter_elem fs C g (G val)).
    + rewrite Hg. simpl. unfold G. by rewrite update_group_merged.
    + by rewrite Hkeys.
    + apply list_elem_of_fmap. exists (g, val). split; [done|].
      by apply elem_of_sorted_items.
  - rewrite foldl_alter_other; [done|]. rewrite Hkeys.
    intros ([g' val] & -> & Hin)%list_elem_of_fmap.
    apply elem_of_sorted_items in Hin. simpl in Hg. congruence.
Qed.

(** A loop whose steps change nothing but the schema: either every step
    returns, or the first that raises ends it. *)
Lemma for_each_steps {A} (l : list A) (body : A → M unit)
    (step : A → schema → schema) (good : A → Prop) (bad : A → exn → Prop) :
  (∀ x w, x ∈ l →
     silent w (body x w).2
     ∧ match (body x w).1 with
       | Return _ => good x ∧ CONF (body x w).2 = step x (CONF w)
       | Raise e => bad x e
       end) →
  ∀ w, silent w (for_each l body w).2
       ∧ match (for_each l body w).1 with
         | Return _ =>
             Forall good l
             ∧ CONF (for_each l body w).2 = foldl (λ C x, step x C) (CONF w) l
         | Raise e => ∃ x, x ∈ l ∧ bad x e
         end.
Proof.
  induction l as [|x l IH]; intros Hbody w; simpl.
  - split; [reflexivity|]. by split.
  - unfold bind. destruct (Hbody x w) as [Hsilent Hx]; [by left|].
    destruct (body x w) as [[[]|e] w1]; simpl in *.
    + destruct Hx as [Hgood Hstep].
      destruct (IH (λ y w Hy, Hbody y w (list_elem_of_further _ _ _ Hy)) w1)
        as [Hsilent' Hl].
      split; [by etrans|].
      destruct (for_each l body w1) as [[[]|e] w2]; simpl in *.
      * destruct Hl as [Hall ->]. rewrite Hstep. split; [by constructor|done].
      * destruct Hl as (y & Hy & Hbad). exists y. split; [by right|done].
    + split; [done|]. exists x. split; [by left|done].
Qed.

Lemma update_value_step (user_conf : gmap string string) (group g_key : string)
    (w : world) :
  silent w (update_value user_conf group g_key w).2
  ∧ match (update_value user_conf group g_key w).1 with
    | Return _ =>
        (∃ v, decodes_to user_conf g_key v)
        ∧ CONF (update_value user_conf group g_key w).2
          = alter (alter (override user_conf g_key) g_key) group (CONF w)
    | Raise e =>
        (e = KeyError g_key ∧ user_conf !! g_key = None)
        ∨ (∃ raw, e = JSONDecodeError raw ∧ user_conf !! g_key = Some raw
                  ∧ json_loads raw = None)
    end.
Proof.
  unfold update_value, bind, or_raise, get_CONF, put_CONF, ret, raise.
  destruct (user_conf !! g_key) as [raw|] eqn:Hraw; simpl;
    [|split; [reflexivity | by left]].
  destruct (json_loads raw) as [v|] eqn:Hv; simpl.
  - split; [done|]. split; [by exists v, raw|].
    apply alter_ext. intros val _. apply alter_ext. intros g_val _.
    unfold override. rewrite Hraw. simpl. by rewrite Hv.
  - split; [reflexivity|]. right. by exists raw.
Qed.

Lemma update_conf_spec (user_conf : gmap string string) (w : world) :
  silent w (update_conf user_conf w).2
  ∧ match (update_conf user_conf w).1 with
    | Return _ =>
        (∀ g_key, schema_key (CONF w) g_key →
                  ∃ v, decodes_to user_conf g_key v)
        ∧ CONF (update_conf user_conf w).2 = merged user_conf (CONF w)
    | Raise e => bad_override (CONF w) user_conf e
    end.
Proof.
  unfold update_conf, bind, get_CONF. simpl.
  match goal with |- context [for_each ?l ?body w] =>
    pose proof (for_each_steps l body
      (λ gv C, foldl (λ C kd, alter (alter (override user_conf kd.1) kd.1)
                                    gv.1 C) C (Py.sorted_items gv.2))
      (λ gv, Forall (λ kd, ∃ v, decodes_to user_conf kd.1 v)
                    (Py.sorted_items gv.2))
      (λ gv e, ∃ kd, kd ∈ Py.sorted_items gv.2
          ∧ ((e = KeyError kd.1 ∧ user_conf !! kd.1 = None)
             ∨ (∃ raw, e = JSONDecodeError raw ∧ user_conf !! kd.1 = Some raw
                       ∧ json_loads raw = None)))) as Hloop
  end.
  lapply Hloop; clear Hloop; [intros Hloop; specialize (Hloop w)|].
  2: { intros gv w0 _.
    apply (for_each_steps _ _
      (λ kd C, alter (alter (override user_conf kd.1) kd.1) gv.1 C)
      (λ kd, ∃ v, decodes_to user_conf kd.1 v)
      (λ kd e, (e = KeyError kd.1 ∧ user_conf !! kd.1 = None)
               ∨ (∃ raw, e = JSONDecodeError raw
                         ∧ user_conf !! kd.1 = Some raw
                         ∧ json_loads raw = None))).
    intros kd w1 _. apply update_value_step. }
  destruct Hloop as [Hsilent Hloop]. split; [done|].
  destruct (for_each _ _ w) as [[[]|e] w1]; simpl in *.
  - destruct Hloop as [Hall ->]. split; [|apply update_all_merged].
    intros g_key (group & val & Hgroup & [g_val Hkey]).
    rewrite Forall_forall in Hall.
    apply elem_of_sorted_items in Hgroup. specialize (Hall _ Hgroup).
    rewrite Forall_forall in Hall.
    apply elem_of_sorted_items in Hkey. apply (Hall _ Hkey).
  - destruct Hloop as ([group val] & Hgroup & [g_key g_val] & Hkey & Hbad).
    apply elem_of_sorted_items in Hgroup, Hkey.
    exists g_key. split; [|done]. exists group, val. simpl in Hkey. eauto.
Qed.

Lemma for_each_ext {A} (l : list A) (f g : A → M unit) :
  (∀ x w, x ∈ l → f x w = g x w) → ∀ w, for_each l f w = for_each l g w.
Proof.
  induction l as [|x l IH]; intros Hfg w; simpl; [done|].
  unfold bind. rewrite Hfg by left. destruct (g x w) as [[[]|e] w1]; [|done].
  apply IH. intros y w' Hy. apply Hfg. by right.
Qed.

(** [update_conf] reads the overrides of the keys of the schema only. *)
Lemma update_conf_ext (user_conf user_conf' : gmap string string) (w : world) :
  (∀ g_key, schema_key (CONF w) g_key →
            user_conf' !! g_key = user_conf !! g_key) →
  update_conf user_conf' w = update_conf user_conf w.
Proof.
  intros Hagree. unfold update_conf, bind, get_CONF. simpl.
  apply for_each_ext. intros [group val] w0 Hgroup.
  apply for_each_ext. intros [g_key g_val] w1 Hkey. simpl.
  apply elem_of_sorted_items in Hgroup, Hkey.
  unfold update_value. rewrite Hagree; [done|].
  exists group, val. eauto.
Qed.

Lemma train_ext (user_conf user_conf' : gmap string string) (w : world) :
  update_conf user_conf' w = update_conf user_conf w →
  train user_conf' w = train user_conf w.
Proof.
  intros Hupdate. unfold train, catch_error, try_except, bind.
  by rewrite Hupdate.
Qed.

Lemma train_update_raises (user_conf : gmap string string) (w w1 : world)
    (e : exn) :
  update_conf user_conf w = (Raise e, w1) →
  train user_conf w = (Raise (BadRequest (Cause e)), w1).
Proof.
  intros Hupdate. unfold train, catch_error, try_except, bind.
  by rewrite Hupdate.
Qed.

Lemma train_check_raises (user_conf : gmap string string) (w w1 : world)
    (e : exn) :
  update_conf user_conf w = (Return tt, w1) →
  check_conf (CONF w1) = Raise e →
  train user_conf w
  = (Raise (BadRequest (Cause (BadRequest (Cause e)))),
     after_events w1 [EvCheckConf]).
Proof.
  intros Hupdate Hcheck. unfold train, catch_error, try_except, bind.
  rewrite Hupdate. simpl. unfold lift. by rewrite Hcheck.
Qed.

Lemma elem_of_sorted_entries (C : schema) (g_key : string)
    (g_val : descriptor) :
  (g_key, g_val) ∈ sorted_entries C
  ↔ ∃ group val, C !! group = Some val ∧ val !! g_key = Some g_val.
Proof.
  unfold sorted_entries. rewrite list_elem_of_join. split.
  - intros (l & Hin & ([group val] & -> & Hgroup)%list_elem_of_fmap).
    exists group, val. by rewrite <- !elem_of_sorted_items.
  - intros (group & val & Hgroup & Hkey).
    exists (Py.sorted_items val). rewrite elem_of_sorted_items.
    split; [done|]. apply list_elem_of_fmap. exists (group, val).
    by rewrite elem_of_sorted_items.
Qed.

(** Modelled [check_conf]: a violation makes it name a violating key. *)
Lemma check_conf_violation (C : schema) (group g_key : string)
    (val : gmap string descriptor) (g_val : descriptor) :
  C !! group = Some val → val !! g_key = Some g_val →
  violates g_val = true →
  ∃ key, check_conf C = Raise (InvalidConfig key)
         ∧ ∃ group' val' g_val', C !! group' = Some val'
             ∧ val' !! key = Some g_val' ∧ violates g_val' = true.
Proof.
  intros Hgroup Hkey Hviolates. unfold check_conf.
  destruct (list_find _ (sorted_entries C)) as [[i [key g_val']]|] eqn:Hfind.
  - exists key. split; [done|].
    apply list_find_Some in Hfind as (Hi & Hbad & _).
    apply list_elem_of_lookup_2, elem_of_sorted_entries in Hi
      as (group' & val' & ? & ?).
    by exists group', val', g_val'.
  - apply list_find_None in Hfind. rewrite Forall_forall in Hfind.
    destruct (Hfind (g_key, g_val)); [|done].
    apply elem_of_sorted_entries. eauto.
Qed.

Lemma override_decodes (user_conf : gmap string string) (g_key : string)
    (g_val : descriptor) (v : json) :
  decodes_to user_conf g_key v →
  override user_conf g_key g_val = set_value g_val v.
Proof. intros (raw & Hraw & Hv). unfold override. rewrite Hraw. simpl. by rewrite Hv. Qed.

Lemma merged_lookup (user_conf : gmap string string) (C : schema)
    (group g_key : string) (g_val' : descriptor) :
  (∃ val', merged user_conf C !! group = Some val'
           ∧ val' !! g_key = Some g_val')
  ↔ ∃ val g_val, C !! group = Some val ∧ val !! g_key = Some g_val
                 ∧ g_val' = override user_conf g_key g_val.
Proof.
  unfold merged. rewrite lookup_fmap. split.
  - intros (val' & Hgroup & Hkey).
    destruct (C !! group) as [val|]; simplify_eq/=.
    rewrite map_lookup_imap in Hkey.
    destruct (val !! g_key) as [g_val|] eqn:Hval; simplify_eq/=.
    by exists val, g_val.
  - intros (val & g_val & -> & Hkey & ->). eexists. split; [done|].
    rewrite map_lookup_imap, Hkey. done.
Qed.

(** C10, as the code has it: [train] reads the overrides of the keys of the
    schema and no other entry; when the override of a key of the schema is
    absent, it raises a client error before the configuration is checked and
    before the trainer is called: no call has been made.  The error carries
    the failed lookup of an absent key or, when the override of a key that
    comes earlier is not JSON, that decoding failure; it is a failed lookup
    whenever every override given for a key of the schema decodes. *)
Theorem train_needs_every_key (user_conf : gmap string string) (w : world) :
  (∀ user_conf',
     (∀ g_key, schema_key (CONF w) g_key →
               user_conf' !! g_key = user_conf !! g_key) →
     train user_conf' w = train user_conf w)
  ∧ (∀ g_key, schema_key (CONF w) g_key → user_conf !! g_key = None →
     ∃ e w',
       train user_conf w = (Raise (BadRequest (Cause e)), w')
       ∧ trace w' = trace w
       ∧ bad_override (CONF w) user_conf e
       ∧ ((∀ k raw, schema_key (CONF w) k → user_conf !! k = Some raw →
                    is_Some (json_loads raw)) →
          ∃ k, e = KeyError k ∧ schema_key (CONF w) k
               ∧ user_conf !! k = None)).
Proof.
  split.
  - intros user_conf' Hagree. by apply train_ext, update_conf_ext.
  - intros g_key Hkey Habsent.
    destruct (update_conf_spec user_conf w) as [(_ & _ & Htrace) Hresult].
    destruct (update_conf user_conf w) as [[[]|e] w'] eqn:Hupdate;
      simpl in *.
    + destruct Hresult as [Hall _].
      destruct (Hall _ Hkey) as (v & raw & Hraw & _). congruence.
    + exists e, w'. split; [by apply train_update_raises|].
      split; [done|]. split; [done|].
      intros Hdecode. destruct Hresult as (k & Hk & [[-> Hnone]|Hjson]).
      * by exists k.
      * destruct Hjson as (raw & _ & Hraw & Hnot).
        destruct (Hdecode _ _ Hk Hraw) as [v Hv]. congruence.
Qed.

(** C2, as the code has it: an override whose key is not a key of the
    schema changes nothing, it is not an error; when every key of the schema
    has an override that decodes and the decoded value of some key violates
    the constraints declared for it, [train] fails with InvalidConfig naming
    a key whose decoded value violates its constraints, after the check of
    the configuration and before the trainer is called. *)
Theorem train_overrides_checked (user_conf : gmap string string) (w : world) :
  (∀ key raw, ¬ schema_key (CONF w) key →
     train (<[key := raw]> user_conf) w = train user_conf w)
  ∧ ((∀ g_key, schema_key (CONF w) g_key →
               ∃ v, decodes_to user_conf g_key v) →
     ∀ group val g_key g_val v,
       CONF w !! group = Some val → val !! g_key = Some g_val →
       decodes_to user_conf g_key v → violates (set_value g_val v) = true →
       ∃ key w',
         train user_conf w
         = (Raise (BadRequest (Cause (BadRequest (Cause (InvalidConfig key))))),
            w')
         ∧ trace w' = trace w ++ [EvCheckConf]
         ∧ ∃ group' val' g_val' v',
             CONF w !! group' = Some val' ∧ val' !! key = Some g_val'
             ∧ decodes_to user_conf key v'
             ∧ violates (set_value g_val' v') = true).
Proof.
  split.
  - intros key raw Hkey. apply train_ext, update_conf_ext.
    intros g_key Hg. apply lookup_insert_ne. by intros ->.
  - intros Hall group val g_key g_val v Hgroup Hval Hv Hviolates.
    destruct (update_conf_spec user_conf w) as [(_ & _ & Htrace) Hresult].
    destruct (update_conf user_conf w) as [[[]|e] w1] eqn:Hupdate;
      simpl in *.
    + destruct Hresult as [_ Hmerged].
      destruct (proj2 (merged_lookup user_conf (CONF w) group g_key
                         (set_value g_val v)))
        as (mval & Hmgroup & Hmkey).
      { exists val, g_val. by rewrite (override_decodes _ _ _ v). }
      rewrite <- Hmerged in Hmgroup.
      destruct (check_conf_violation _ _ _ _ _ Hmgroup Hmkey Hviolates)
        as (key & Hcheck & group' & mval' & g_val'' & Hg' & Hk' & Hbad).
      exists key, (after_events w1 [EvCheckConf]).
      split; [by apply train_check_raises|]. simpl. rewrite Htrace.
      split; [done|]. rewrite Hmerged in Hg'.
      destruct (proj1 (merged_lookup user_conf (CONF w) group' key g_val''))
        as (val' & g_val' & Hgroup' & Hkey' & ->); [by exists mval'|].
      destruct (Hall key) as [v' Hv']; [by exists group', val'; eauto|].
      exists group', val', g_val', v'.
      by rewrite <- (override_decodes user_conf key g_val' v').
    + destruct Hresult as (k & Hk & Hbad). destruct (Hall _ Hk) as (v0 & raw & Hraw & Hv0).
      destruct Hbad as [[_ Hnone]|(raw' & _ & Hraw' & Hnot)]; congruence.
Qed.

End Training.

(** ** Metadata *)

Section Metadata.
Context `{Collab : Collaborators}.

Lemma os_getenv_elem (var val : string) :
  NoDup (os_environ.*1) → (var, val) ∈ os_environ →
  os_getenv var = Some val.
Proof.
  unfold os_getenv. induction os_environ as [|[k v] env IH]; intros Hnodup Hin.
  - by apply elem_of_nil in Hin.
  - rewrite fmap_cons in Hnodup. apply NoDup_cons in Hnodup as [Hk Hnodup].
    simpl. case_decide as Hkv; simpl in *.
    + subst k. apply elem_of_cons in Hin as [[= <-]|Hin]; [done|].
      destruct Hk. apply list_elem_of_fmap. by exists (var, val).
    + apply elem_of_cons in Hin as [[= <- <-]|Hin]; [done|].
      rewrite <- (IH Hnodup Hin). by destruct (list_find _ env) as [[i [k' v']]|].
Qed.

(** The assignments of lines 400-401 to other keys leave a key alone. *)
Lemma update_with_container_vars_other (container_vars : list string)
    (meta : gmap string (option string)) (key : string) :
  Forall (λ var, Py.capitalize var ≠ key) container_vars →
  update_with_container_vars container_vars meta !! key = meta !! key.
Proof.
  unfold update_with_container_vars. intros Hother. revert meta.
  induction Hother as [|var vars Hvar _ IH]; intros meta; simpl; [done|].
  rewrite IH. by apply lookup_insert_ne.
Qed.

Lemma update_with_container_vars_elem (container_vars : list string)
    (meta : gmap string (option string)) (var : string) :
  var ∈ container_vars →
  (∀ var', var' ∈ container_vars →
           Py.capitalize var' = Py.capitalize var → var' = var) →
  update_with_container_vars container_vars meta !! Py.capitalize var
  = Some (os_getenv var).
Proof.
  revert meta.
  induction container_vars as [|var' vars IH]; intros meta Hin Hunique.
  - by apply elem_of_nil in Hin.
  - destruct (decide (var ∈ vars)) as [Hvars|Hvars].
    + apply IH; [done|]. intros v Hv. apply Hunique. by right.
    + apply elem_of_cons in Hin as [<-|Hin]; [|done].
      unfold update_with_container_vars. simpl.
      fold (update_with_container_vars vars
              (<[Py.capitalize var := os_getenv var]> meta)).
      rewrite update_with_container_vars_other.
      * apply lookup_insert_eq.
      * apply Forall_forall. intros v Hv Hcap. apply Hvars.
        rewrite <- (Hunique v); [done|by right|done].
Qed.

(** C9, as the code has it: when PKG-INFO is read without error, the result
    holds, for each environment variable whose name matches
    [^CONTAINER_(.*?)$], an entry keyed by the whole name capitalized (first
    character in upper case, the others in lower case: [Container_foo] for
    [CONTAINER_FOO]), not by the suffix; the entry maps to the value of the
    variable, when no other such variable has a name with the same
    capitalized form. *)
Theorem container_vars_capitalized (w : world) (lines : list string)
    (meta0 : gmap string (option string)) :
  pkg_info_lines = Return lines →
  read_lines lines empty_meta = Return meta0 →
  ∃ meta,
    get_metadata w = (Return meta, w)
    ∧ ∀ var val,
        NoDup (os_environ.*1) → (var, val) ∈ os_environ →
        re_match_container var = true →
        (∀ var', var' ∈ os_environ.*1 → re_match_container var' = true →
                 Py.capitalize var' = Py.capitalize var → var' = var) →
        meta !! Py.capitalize var = Some (Some val).
Proof.
  intros Hlines Hmeta. eexists. split.
  - unfold get_metadata, catch_error, try_except, bind, lift, ret.
    rewrite Hlines, Hmeta. reflexivity.
  - intros var val Hnodup Hin Hmatch Hunique.
    rewrite update_with_container_vars_elem.
    + by rewrite (os_getenv_elem var val).
    + apply list_elem_of_filter. split; [done|].
      apply list_elem_of_fmap. by exists (var, val).
    + intros var' [Hmatch' Hvar']%list_elem_of_filter. by apply Hunique.
Qed.

End Metadata.

(** ** The properties on the concrete deployment *)

Lemma demo_schema_keys (g_key : string) :
  schema_key demo_CONF g_key ↔ g_key = "image_size" ∨ g_key = "batch_size".
Proof.
  unfold schema_key, demo_CONF. split.
  - intros (group & val & Hgroup & Hkey).
    apply lookup_insert_Some in Hgroup as [[<- <-]|[_ Hgroup]].
    + left. destruct (decide (g_key = "image_size")) as [|Hne]; [done|].
      rewrite lookup_singleton_ne in Hkey by done. by destruct Hkey.
    + apply lookup_singleton_Some in Hgroup as [<- <-].
      right. destruct (decide (g_key = "batch_size")) as [|Hne]; [done|].
      rewrite lookup_singleton_ne in Hkey by done. by destruct Hkey.
  - intros [->| ->].
    + eexists "model", _. split; [reflexivity|]. by eexists.
    + eexists "training", _. split; [reflexivity|]. by eexists.
Qed.

Lemma loaded_no_reload_witness :
  loaded (vars demo_loaded_world) = true
  ∧ @ensure_loaded demo demo_loaded_world = (Return tt, demo_loaded_world).
Proof.
  split; [reflexivity|].
  apply (loaded_no_reload (Collab := demo) demo_loaded_world). reflexivity.
Defined.

Lemma mismatched_info_discarded_witness :
  let w' := (@load_inference_model demo demo_world).2 in
  g_class_names (vars w') = Some ["cat"; "dog"]
  ∧ g_class_info (vars w') = Some [""; ""].
Proof.
  intros w'.
  assert (@load_inference_model demo demo_world = (Return tt, w')) as Hload
    by apply surjective_pairing.
  assert (paths_timestamp (vars w') = Some "2019-05-05") as Hts
    by (vm_compute; reflexivity).
  assert ("info.txt" ∈ ["classes.txt"; "info.txt"]) as Hlisted
    by compute_done.
  destruct (mismatched_info_discarded (Collab := demo) demo_world w'
              "2019-05-05" ["classes.txt"; "info.txt"] ["cat"; "dog"]
              ["a small feline"] Hload Hts eq_refl Hlisted eq_refl eq_refl)
    as (Hnames & Hinfo & _); [discriminate|].
  exact (conj Hnames Hinfo).
Defined.

Lemma catch_url_error_first_failure_witness :
  @catch_url_error demo ["http://a/cat.png"] demo_world
  = (Return tt, after_events demo_world [EvHead "http://a/cat.png"])
  ∧ @catch_url_error demo
      (["http://a/cat.png"] ++ "http://b" :: ["http://a/page"]) demo_world
    = (Raise UnreachableUrl,
       after_events demo_world
         (EvHead <$> ["http://a/cat.png"] ++ ["http://b"]))
  ∧ @catch_url_error demo
      (["http://a/cat.png"] ++ "http://a/page" :: ["http://b"]) demo_world
    = (Raise NotAnImage,
       after_events demo_world
         (EvHead <$> ["http://a/cat.png"] ++ ["http://a/page"])).
Proof.
  assert (@image_url demo "http://a/cat.png") as Himage.
  { exists "image/png". split; reflexivity. }
  destruct (catch_url_error_first_failure (Collab := demo) demo_world)
    as (Hall & Hunreachable & Hnot).
  split; [|split].
  - apply (Hall ["http://a/cat.png"]); [discriminate|].
    constructor; [exact Himage | constructor].
  - apply Hunreachable; [|reflexivity].
    constructor; [exact Himage | constructor].
  - apply (Hnot _ _ _ "text/html"); [|reflexivity|discriminate].
    constructor; [exact Himage | constructor].
Defined.

(** C7 as stated fails: the second URL cannot be reached, yet the error is
    NotAnImage, raised for the first URL, and no request is made for the
    second. *)
Lemma catch_url_error_not_exact :
  let urls := ["http://a/page"; "http://b"] in
  let out := @catch_url_error demo urls demo_world in
  ¬ (out.1 = Raise UnreachableUrl
     ↔ ∃ url, url ∈ urls ∧ @requests_head demo url = None)
  ∧ trace out.2 ≠ EvHead <$> urls.
Proof.
  simpl. split.
  - intros [_ H]. enough (@Raise unit NotAnImage = Raise UnreachableUrl) by done.
    apply H. exists "http://b". split; [compute_done | reflexivity].
  - discriminate.
Qed.

Lemma train_overrides_checked_witness :
  let user_conf : gmap string string :=
    {[ "image_size" := "64"; "batch_size" := "64" ]} in
  @train demo (<["zzz" := "1"]> user_conf) demo_world
  = @train demo user_conf demo_world
  ∧ ∃ key w',
      @train demo user_conf demo_world
      = (Raise (BadRequest (Cause (BadRequest (Cause (InvalidConfig key))))),
         w')
      ∧ trace w' = trace demo_world ++ [EvCheckConf].
Proof.
  intros user_conf.
  assert (∀ g_key, schema_key (CONF demo_world) g_key →
                   ∃ v, @decodes_to demo user_conf g_key v) as Hall.
  { change (CONF demo_world) with demo_CONF.
    intros g_key [->| ->]%demo_schema_keys;
      exists (JInt 64), "64"; split; vm_compute; reflexivity. }
  assert (CONF demo_world !! "training"
          = Some ({[ "batch_size" := demo_batch_size ]}
                  : gmap string descriptor)) as Hgroup
    by (vm_compute; reflexivity).
  assert (({[ "batch_size" := demo_batch_size ]} : gmap string descriptor)
          !! "batch_size" = Some demo_batch_size) as Hkey
    by (vm_compute; reflexivity).
  assert (@decodes_to demo user_conf "batch_size" (JInt 64)) as Hv
    by (exists "64"; split; vm_compute; reflexivity).
  assert (violates (set_value demo_batch_size (JInt 64)) = true) as Hbad
    by (vm_compute; reflexivity).
  assert (¬ schema_key (CONF demo_world) "zzz") as Hzzz.
  { change (CONF demo_world) with demo_CONF. rewrite demo_schema_keys.
    by intros [|]. }
  destruct (train_overrides_checked (Collab := demo) user_conf demo_world)
    as [Hunknown Hinvalid].
  split; [exact (Hunknown "zzz" "1" Hzzz)|].
  destruct (Hinvalid Hall _ _ _ _ _ Hgroup Hkey Hv Hbad)
    as (key & w' & Hrun & Htrace & _).
  exists key, w'. exact (conj Hrun Htrace).
Defined.

(** C2 as stated fails: the override [zzz] matches no key of the schema,
    and the trainer is called. *)
Lemma train_unknown_key_accepted :
  let user_conf : gmap string string :=
    {[ "image_size" := "64"; "batch_size" := "2"; "zzz" := "1" ]} in
  ¬ schema_key demo_CONF "zzz"
  ∧ user_conf !! "zzz" = Some "1"
  ∧ (@train demo user_conf demo_world).1 = Return tt
  ∧ trace (@train demo user_conf demo_world).2
    = [EvCheckConf; EvPrintConfTable; EvClearSession;
       EvTrainFn "2019-05-06_101500"; EvMountNextcloud].
Proof.
  intros user_conf. split; [rewrite demo_schema_keys; by intros [|]|].
  repeat split; vm_compute; reflexivity.
Qed.

Lemma train_needs_every_key_witness :
  let user_conf : gmap string string := {[ "image_size" := "64" ]} in
  @train demo (<["zzz" := "1"]> user_conf) demo_world
  = @train demo user_conf demo_world
  ∧ ∃ k w', @train demo user_conf demo_world
            = (Raise (BadRequest (Cause (KeyError k))), w')
            ∧ trace w' = trace demo_world.
Proof.
  intros user_conf.
  assert (∀ g_key, schema_key (CONF demo_world) g_key →
            <["zzz" := "1"]> user_conf !! g_key = user_conf !! g_key)
    as Hagree.
  { change (CONF demo_world) with demo_CONF.
    intros g_key [->| ->]%demo_schema_keys; vm_compute; reflexivity. }
  assert (schema_key (CONF demo_world) "batch_size") as Hkey.
  { change (CONF demo_world) with demo_CONF. rewrite demo_schema_keys.
    by right. }
  assert (user_conf !! "batch_size" = None) as Habsent
    by (vm_compute; reflexivity).
  assert (∀ k raw, schema_key (CONF demo_world) k →
            user_conf !! k = Some raw → is_Some (@json_loads demo raw))
    as Hdecode.
  { change (CONF demo_world) with demo_CONF.
    intros k raw [->| ->]%demo_schema_keys Hraw.
    - apply lookup_singleton_Some in Hraw as [_ <-]. by eexists.
    - by apply lookup_singleton_Some in Hraw as [? _]. }
  destruct (train_needs_every_key (Collab := demo) user_conf demo_world)
    as [Hext Hraise].
  split; [exact (Hext _ Hagree)|].
  destruct (Hraise "batch_size" Hkey Habsent)
    as (e & w' & Hrun & Htrace & _ & Herror).
  destruct (Herror Hdecode) as (k & -> & _).
  exists k, w'. exact (conj Hrun Htrace).
Defined.

(** C10 as stated fails: [batch_size] is absent from the overrides, and the
    error is the decoding failure of the override of [image_size], which
    comes first, not a failed lookup. *)
Lemma train_absent_key_decode_error :
  let user_conf : gmap string string := {[ "image_size" := "{" ]} in
  schema_key demo_CONF "batch_size"
  ∧ user_conf !! "batch_size" = None
  ∧ (@train demo user_conf demo_world).1
    = Raise (BadRequest (Cause (JSONDecodeError "{"))).
Proof.
  intros user_conf. split; [rewrite demo_schema_keys; by right|].
  split; vm_compute; reflexivity.
Qed.

Lemma container_vars_capitalized_witness :
  ∃ meta, @get_metadata demo demo_world = (Return meta, demo_world)
          ∧ meta !! "Container_foo" = Some (Some "bar").
Proof.
  edestruct (container_vars_capitalized (Collab := demo) demo_world)
    as (meta & Hrun & Hvars); [reflexivity | reflexivity |].
  exists meta. split; [exact Hrun|].
  apply (Hvars "CONTAINER_FOO" "bar").
  - compute_done.
  - compute_done.
  - reflexivity.
  - simpl. intros var' Hin Hmatch Hcap.
    apply elem_of_cons in Hin as [->|Hin]; [discriminate|].
    by apply list_elem_of_singleton in Hin.
Defined.

(** C9 as stated fails: the result holds no entry under the suffix [FOO]
    of [CONTAINER_FOO]; the entry is under [Container_foo]. *)
Lemma container_suffix_key_absent :
  ("CONTAINER_FOO", "bar") ∈ @os_environ demo
  ∧ ∃ meta, @get_metadata demo demo_world = (Return meta, demo_world)
            ∧ meta !! "FOO" = None
            ∧ meta !! "Container_foo" = Some (Some "bar").
Proof.
  split; [compute_done|].
  eexists. split; [reflexivity|]. split; vm_compute; reflexivity.
Qed.

(** * Further properties of the code *)

(** ** Checkpoint selection as the code has it *)

Lemma filter_sorted_greatest (P : string → Prop) `{!∀ x, Decision (P x)}
    (l : list string) :
  filter P l ≠ [] →
  ∃ m, Py.item_last (Py.sorted (filter P l)) = Return m ∧ m ∈ l ∧ P m
       ∧ ∀ t, t ∈ l → P t → String.le t m.
Proof.
  intros Hne. destruct (item_last_sorted _ Hne) as (m & Hlast & Hin & Hmax).
  apply list_elem_of_filter in Hin as [Hm Hin].
  exists m. repeat split; [done..|].
  intros t Ht HPt. apply Hmax. by apply list_elem_of_filter.
Qed.

(** X1: An empty checkpoint directory is the NoCheckpointsAvailable client
    error naming the snapshot; [final_model.h5] is chosen whenever it is
    listed; otherwise the choice is the greatest of the names that end with
    the four characters [*.h5], and the lookup fails when there is none. *)
Theorem select_checkpoint_policy (TIMESTAMP : string) (ckpts : list string) :
  (ckpts = [] →
   select_checkpoint TIMESTAMP ckpts = Raise (NoCheckpointsAvailable TIMESTAMP))
  ∧ ("final_model.h5" ∈ ckpts →
     select_checkpoint TIMESTAMP ckpts = Return "final_model.h5")
  ∧ (ckpts ≠ [] → "final_model.h5" ∉ ckpts →
     (Forall (λ name, Py.endswith name "*.h5" = false) ckpts →
      select_checkpoint TIMESTAMP ckpts = Raise IndexError)
     ∧ (Exists (λ name, Py.endswith name "*.h5" = true) ckpts →
        ∃ m, select_checkpoint TIMESTAMP ckpts = Return m ∧ m ∈ ckpts
             ∧ Py.endswith m "*.h5" = true
             ∧ ∀ t, t ∈ ckpts → Py.endswith t "*.h5" = true → String.le t m)).
Proof.
  split; [|split].
  - intros ->. done.
  - intros Hfinal. unfold select_checkpoint.
    rewrite bool_decide_eq_false_2 by (intros ->; by apply elem_of_nil in Hfinal).
    by rewrite bool_decide_eq_true_2.
  - intros Hne Hfinal. split.
    + by apply select_checkpoint_no_star.
    + intros Hstar. unfold select_checkpoint.
      rewrite !bool_decide_eq_false_2 by done.
      apply filter_sorted_greatest.
      apply Exists_exists in Hstar as (name & Hin & Hname).
      intros Hnil. assert (name ∈ filter (λ name, Py.endswith name "*.h5" = true) ckpts) as Hf
        by by apply list_elem_of_filter.
      rewrite Hnil in Hf. by apply elem_of_nil in Hf.
Qed.

Lemma select_checkpoint_policy_witness :
  select_checkpoint "api" [] = Raise (NoCheckpointsAvailable "api")
  ∧ select_checkpoint "api" ["epoch-01.h5"; "final_model.h5"]
    = Return "final_model.h5"
  ∧ select_checkpoint "api" ["a.h5"; "b.h5"] = Raise IndexError
  ∧ ∃ m, select_checkpoint "api" ["x*.h5"; "a.h5"; "b*.h5"] = Return m
         ∧ m ∈ ["x*.h5"; "a.h5"; "b*.h5"].
Proof.
  split; [|split; [|split]].
  - by apply (select_checkpoint_policy "api" []).
  - apply (select_checkpoint_policy "api" ["epoch-01.h5"; "final_model.h5"]).
    compute_done.
  - apply (select_checkpoint_policy "api" ["a.h5"; "b.h5"]);
      [discriminate | compute_done | by repeat constructor].
  - destruct (select_checkpoint_policy "api" ["x*.h5"; "a.h5"; "b*.h5"])
      as (_ & _ & Hother).
    destruct Hother as [_ Hstar]; [discriminate | compute_done|].
    destruct Hstar as (m & Hm & Hin & _); [by left|].
    by exists m.
Defined.

(** ** The state a load leaves *)

(** Running the loader in a hypothesis: every call of a collaborator is a
    case. *)
Ltac loader_cases H :=
  cbv [load_inference_model bind emit or_raise lift assign get_vars put_vars
       ret raise] in H;
  repeat (case_match; simplify_eq/=).

Section LoadedState.
Context `{Collab : Collaborators}.

Lemma resolve_class_info_length (class_names : list string)
    (info : option (list string)) :
  length (resolve_class_info class_names info) = length class_names.
Proof.
  unfold resolve_class_info. destruct info as [class_info|]; simpl.
  - case_bool_decide as Hlen; simpl; [by rewrite length_replicate|done].
  - by rewrite length_replicate.
Qed.

(** X2: A load that succeeds sets the flag and every cached variable, and the
    metadata list is as long as the list of class names; it touches neither
    the temporary directory nor the configuration schema. *)
Theorem load_success_state (w w' : world) :
  load_inference_model w = (Return tt, w') →
  loaded (vars w') = true
  ∧ (∃ TIMESTAMP class_names class_info conf model,
       paths_timestamp (vars w') = Some TIMESTAMP
       ∧ g_class_names (vars w') = Some class_names
       ∧ g_class_info (vars w') = Some class_info
       ∧ length class_info = length class_names
       ∧ g_conf (vars w') = Some conf
       ∧ g_model (vars w') = Some model
       ∧ g_graph (vars w') = Some (get_default_graph model))
  ∧ files w' = files w ∧ CONF w' = CONF w.
Proof.
  intros Hload. loader_cases Hload.
  all: split; [done|]; split; [|done].
  all: eexists _, _, _, _, _; repeat split; apply resolve_class_info_length.
Qed.

(** X3: The metadata a successful load leaves: the lines of [info.txt] when the
    file is listed with as many lines as there are class names, and one
    empty string per class name when the file is not listed. *)
Theorem load_class_info_applied (w w' : world) (TIMESTAMP : string)
    (listing class_names : list string) :
  load_inference_model w = (Return tt, w') →
  paths_timestamp (vars w') = Some TIMESTAMP →
  os_listdir_splits TIMESTAMP = Some listing →
  load_class_names TIMESTAMP = Return class_names →
  ("info.txt" ∉ listing →
   g_class_info (vars w') = Some (replicate (length class_names) ""))
  ∧ (∀ class_info, "info.txt" ∈ listing →
       load_class_info TIMESTAMP = Return class_info →
       length class_info = length class_names →
       g_class_info (vars w') = Some class_info).
Proof.
  intros Hload Hts Hlisting Hnames. loader_cases Hload.
  all: match goal with
       | H : bool_decide _ = _ |- _ =>
           first [ apply bool_decide_eq_true_1 in H
                 | apply bool_decide_eq_false_1 in H ];
           rename H into Hlisted
       end.
  all: match goal with
       | H : load_class_names _ = Return ?l |- _ =>
           assert (l = class_names) as -> by congruence
       end.
  - split; [done|]. intros class_info _ Hinfo Hlen.
    match goal with
    | H : load_class_info _ = Return ?l |- _ =>
        assert (l = class_info) as -> by congruence
    end.
    unfold resolve_class_info. by rewrite bool_decide_eq_false_2 by naive_solver.
  - split; [done|]. by intros class_info Hin.
Qed.

(** X4: A load that fails leaves the flag, the cached network and its graph as
    they were: the flag is set by the last statement only, so that the next
    prediction call loads again. *)
Theorem load_failure_keeps_flag (w w' : world) (e : exn) :
  load_inference_model w = (Raise e, w') →
  loaded (vars w') = loaded (vars w)
  ∧ g_model (vars w') = g_model (vars w)
  ∧ g_graph (vars w') = g_graph (vars w)
  ∧ files w' = files w ∧ CONF w' = CONF w.
Proof. intros Hload. loader_cases Hload; done. Qed.

(** X5: The failures of the selection: without a models directory the walk is
    empty and [next] raises; without a snapshot the error is
    NoModelsAvailable; with a snapshot whose checkpoint directory is empty
    it is NoCheckpointsAvailable naming the snapshot, [paths.timestamp]
    being already set.  In all three the session has not been cleared and
    no file of the snapshot was read. *)
Theorem load_selection_failures (w : world) :
  (os_walk_models = None →
   load_inference_model w = (Raise StopIteration, after_events w [EvWalkModels]))
  ∧ (os_walk_models = Some [] →
     load_inference_model w
     = (Raise NoModelsAvailable, after_events w [EvWalkModels]))
  ∧ (∀ timestamps TIMESTAMP,
       os_walk_models = Some timestamps →
       select_timestamp timestamps = Return TIMESTAMP →
       os_listdir_ckpts TIMESTAMP = Some [] →
       load_inference_model w
       = (Raise (NoCheckpointsAvailable TIMESTAMP),
          {| vars := set_timestamp (Some TIMESTAMP) (vars w);
             CONF := CONF w; files := files w;
             trace := trace w ++ [EvWalkModels; EvListdirCkpts TIMESTAMP] |})).
Proof.
  split; [|split].
  - intros Hwalk. unfold load_inference_model, bind, emit, or_raise.
    by rewrite Hwalk.
  - intros Hwalk. unfold load_inference_model, bind, emit, or_raise.
    by rewrite Hwalk.
  - intros timestamps TIMESTAMP Hwalk Hts Hckpts.
    cbv [load_inference_model bind emit or_raise lift assign get_vars put_vars
         ret raise].
    rewrite Hwalk, Hts, Hckpts. simpl. by rewrite <- app_assoc.
Qed.

End LoadedState.

(** ** Uploaded files and their extensions *)

Lemma string_app_cons (c : ascii) (s t : string) :
  (String c s ++ t)%string = String c (s ++ t)%string.
Proof. reflexivity. Qed.

Lemma contains_app (c : ascii) (s t : string) :
  Py.contains c (s ++ t)%string = Py.contains c s || Py.contains c t.
Proof.
  induction s as [|x s IH]; [done|].
  rewrite string_app_cons. simpl. rewrite IH. by rewrite orb_assoc.
Qed.

Lemma split_last_no_sep (c : ascii) (s : string) :
  Py.contains c s = false → Py.split_last c s = s.
Proof.
  destruct s as [|x s]; [done|]. simpl.
  intros [Hx Hs]%orb_false_elim. by rewrite Hs, Hx.
Qed.

Lemma split_last_app (c : ascii) (s t : string) :
  Py.contains c t = false →
  Py.split_last c (s ++ String c t)%string = t.
Proof.
  intros Ht. induction s as [|x s IH].
  - change ("" ++ String c t)%string with (String c t). simpl.
    by rewrite Ht, Ascii.eqb_refl.
  - rewrite string_app_cons. simpl.
    rewrite contains_app. simpl. rewrite Ascii.eqb_refl, orb_true_r. done.
Qed.

(** X6: The extension the validator reads off a path [dir/stem.ext] is [ext],
    and a base name without a dot is its own extension. *)
Theorem extension_of_path (dir stem ext : string) :
  Py.contains "/" stem = false → Py.contains "/" ext = false →
  Py.contains "." ext = false →
  Py.split_last "." (Py.basename (dir ++ String "/" (stem ++ String "." ext)))
  = ext
  ∧ Py.split_last "." (Py.basename (dir ++ String "/" ext)) = ext.
Proof.
  intros Hstem Hslash Hdot. unfold Py.basename. split.
  - rewrite split_last_app.
    + by apply split_last_app.
    + rewrite contains_app. simpl. by rewrite Hstem, Hslash.
  - rewrite split_last_app by done. by apply split_last_no_sep.
Qed.

Lemma extension_of_path_witness :
  Py.split_last "."
    (Py.basename ("/tmp/uploads" ++ String "/" ("cat.v2" ++ String "." "png")))
  = "png"
  ∧ Py.split_last "." (Py.basename ("/tmp/uploads" ++ String "/" "png"))
    = "png".
Proof. apply extension_of_path; reflexivity. Defined.

Section Requests.
Context `{Collab : Collaborators}.

Lemma for_each_cons {A} (x : A) (l : list A) (body : A → M unit) :
  for_each (x :: l) body = bind (body x) (λ _, for_each l body).
Proof. reflexivity. Qed.

Lemma check_extensions (file_list : list upload) (w : world) :
  for_each file_list (λ f,
    if bool_decide (Py.split_last "." (Py.basename (filename f))
                    ∉ allowed_extensions)
    then raise UnsupportedExtension else ret tt) w
  = (if bool_decide
          (Forall (λ f, Py.split_last "." (Py.basename (filename f))
                        ∈ allowed_extensions) file_list)
     then Return tt else Raise UnsupportedExtension, w).
Proof.
  induction file_list as [|f file_list IH].
  { rewrite bool_decide_eq_true_2 by constructor. done. }
  rewrite for_each_cons. unfold bind.
  destruct (decide (Py.split_last "." (Py.basename (filename f))
                    ∈ allowed_extensions)) as [Hf|Hf].
  - rewrite (bool_decide_eq_false_2 (_ ∉ _)) by (by intros ?). simpl.
    rewrite IH. f_equal.
    destruct (decide (Forall (λ f, Py.split_last "." (Py.basename (filename f))
                                   ∈ allowed_extensions) file_list))
      as [Hrest|Hrest].
    + by rewrite !bool_decide_eq_true_2 by by try constructor.
    + rewrite (bool_decide_eq_false_2 (Forall _ file_list)) by done.
      rewrite bool_decide_eq_false_2; [done|].
      intros Hall. by apply Forall_cons in Hall as [_ ?].
  - rewrite (bool_decide_eq_true_2 (_ ∉ _)) by done. simpl.
    rewrite bool_decide_eq_false_2; [done|].
    intros Hall. by apply Forall_cons in Hall as [? _].
Qed.

(** X7: The validator of uploaded files makes no call and changes nothing; on a
    list that is not empty it returns when every file has an allowed
    extension and raises UnsupportedExtension otherwise. *)
Theorem catch_localfile_error_outcome (file_list : list upload) (w : world) :
  file_list ≠ [] →
  catch_localfile_error file_list w
  = (if bool_decide
          (Forall (λ f, Py.split_last "." (Py.basename (filename f))
                        ∈ allowed_extensions) file_list)
     then Return tt else Raise UnsupportedExtension, w).
Proof.
  intros Hne. unfold catch_localfile_error.
  rewrite bool_decide_eq_false_2 by done. apply check_extensions.
Qed.

(** X8: A request that a validator rejects ends there: the error of the
    validator is what the call raises, wrapped once more, and the world is
    the one the validator left, so that the model was neither loaded nor
    run.  For uploaded files the world is the one before the call. *)
Theorem rejected_request_ends (merge : bool) (w w1 : world) (e : exn) :
  (∀ urls, catch_url_error urls w = (Raise e, w1) →
           predict_url urls merge w = (Raise (BadRequest (Cause e)), w1))
  ∧ (∀ file_list, catch_localfile_error file_list w = (Raise e, w1) →
       w1 = w
       ∧ predict_data (FileList file_list) merge w
         = (Raise (BadRequest (Cause e)), w)
       ∧ ∀ f, file_list = [f] →
              predict_data (OneFile f) merge w
              = (Raise (BadRequest (Cause e)), w)).
Proof.
  split.
  - intros urls Hcheck. unfold predict_url, catch_error, try_except, bind.
    by rewrite Hcheck.
  - intros file_list Hcheck.
    assert (w1 = w) as ->.
    { destruct (decide (file_list = [])) as [->|Hne].
      - by injection Hcheck.
      - unfold catch_localfile_error in Hcheck.
        rewrite bool_decide_eq_false_2, check_extensions in Hcheck by done.
        by injection Hcheck. }
    split; [done|]. split.
    + unfold predict_data, catch_error, try_except, bind. by rewrite Hcheck.
    + intros f ->. unfold predict_data, catch_error, try_except, bind.
      by rewrite Hcheck.
Qed.

End Requests.

(** ** Prediction calls *)

Global Instance same_vars_preorder `{Collab : Collaborators} :
  PreOrder same_vars.
Proof.
  split; [by intros w|]. unfold same_vars. intros w1 w2 w3 H12 H23. congruence.
Qed.

Section Predictions.
Context `{Collab : Collaborators}.

Lemma same_vars_emit (e : event) : stable same_vars (emit e).
Proof. by intros w. Qed.

Lemma same_vars_put_files (fs : gmap string string) :
  stable same_vars (put_files fs).
Proof. by intros w. Qed.

Lemma ensure_loaded_returns (w w' : world) :
  ensure_loaded w = (Return tt, w') → loaded (vars w') = true.
Proof.
  unfold ensure_loaded, bind, get_vars.
  destruct (loaded (vars w)) eqn:Hloaded; simpl.
  - by intros [= <-].
  - apply load_inference_model_loaded.
Qed.

(** Whatever follows the load-if-absent step without assigning a module
    variable returns with the flag set. *)
Lemma loaded_after {B} (pre : M unit) (k : M B) (w w' : world) (r : B) :
  stable same_vars k →
  catch_error (bind pre (λ _, bind ensure_loaded (λ _, k))) w
  = (Return r, w') →
  loaded (vars w') = true.
Proof.
  intros Hk. unfold catch_error, try_except, bind.
  destruct (pre w) as [[[]|e] w1]; [|done].
  destruct (ensure_loaded w1) as [[[]|e] w2] eqn:Hload; [|done].
  apply ensure_loaded_returns in Hload. specialize (Hk w2).
  destruct (k w2) as [[r'|e] w3]; [|done].
  intros [= <- <-]. unfold same_vars in Hk. simpl in Hk. by rewrite Hk.
Qed.

(** X9: When a prediction call returns a response, the model is loaded: the
    flag is set, whatever it was before the call. *)
Theorem prediction_sets_loaded (merge : bool) (w w' : world) (r : response) :
  (∀ urls, predict_url urls merge w = (Return r, w') →
           loaded (vars w') = true)
  ∧ (∀ arg, predict_data arg merge w = (Return r, w') →
            loaded (vars w') = true).
Proof.
  split.
  - intros urls. unfold predict_url. apply loaded_after.
    unfold run_predict, format_prediction.
    stable_with ltac:(apply same_vars_emit).
  - intros arg. unfold predict_data. apply loaded_after.
    unfold run_predict, format_prediction, os_remove.
    stable_with ltac:(first [ apply same_vars_emit
                            | apply same_vars_put_files
                            | apply stable_write_temp_files ]).
Qed.

Lemma item_in_range {A} (l : list A) (i : Z) :
  in_range (length l) i → ∃ x, Py.item l i = Return x.
Proof.
  unfold in_range, Py.item. cbv zeta. intros Hi.
  destruct (i <? 0)%Z eqn:Hneg.
  - apply Z.ltb_lt in Hneg.
    rewrite (proj2 (Z.ltb_ge _ _)) by lia.
    destruct (l !! _) as [x|] eqn:Hx; [by exists x|].
    apply lookup_ge_None in Hx. lia.
  - apply Z.ltb_ge in Hneg. rewrite (proj2 (Z.ltb_ge i 0)) by done.
    destruct (l !! _) as [x|] eqn:Hx; [by exists x|].
    apply lookup_ge_None in Hx. lia.
Qed.

Lemma item_out_of_range {A} (l : list A) (i : Z) :
  ¬ in_range (length l) i → Py.item l i = Raise IndexError.
Proof.
  unfold in_range, Py.item. cbv zeta. intros Hi.
  destruct (i <? 0)%Z eqn:Hneg.
  - apply Z.ltb_lt in Hneg.
    destruct (Z.of_nat (length l) + i <? 0)%Z eqn:Hlow; [done|].
    apply Z.ltb_ge in Hlow. lia.
  - apply Z.ltb_ge in Hneg. rewrite (proj2 (Z.ltb_ge i 0)) by done.
    rewrite lookup_ge_None_2; [done|]. lia.
Qed.

Lemma format_rows_spec (class_names class_info : option (list string))
    (rows : list (Z * prob)) (preds : list prediction) :
  format_rows class_names class_info rows = Return preds →
  label_id <$> preds = rows.*1
  ∧ probability <$> preds = rows.*2
  ∧ Forall (λ p, subscript class_names (label_id p) = Return (label p)
                 ∧ subscript class_info (label_id p) = Return (metadata p)
                 ∧ google_images p = image_link (label p)
                 ∧ wikipedia p = wikipedia_link (label p)) preds.
Proof.
  revert preds. induction rows as [|[i p] rows IH]; intros preds; simpl.
  - by intros [= <-].
  - destruct (subscript class_names i) as [name|] eqn:Hname; [|done].
    destruct (subscript class_info i) as [info|] eqn:Hinfo; [|done].
    destruct (format_rows _ _ rows) as [preds'|]; [|done].
    intros [= <-]. destruct (IH preds' eq_refl) as (Hids & Hprobs & Hall).
    split; [|split].
    + rewrite !fmap_cons. by rewrite Hids.
    + rewrite !fmap_cons. by rewrite Hprobs.
    + by constructor.
Qed.

(** X10: A formatted response follows the pairs of labels and probabilities, in
    their order and as far as the shorter list goes; each prediction carries
    the class name and the metadata stored at its label and the two links
    built from the class name.  Formatting changes nothing. *)
Theorem format_prediction_rows (labels : list Z) (probabilities : list prob)
    (w w' : world) (r : response) :
  format_prediction labels probabilities w = (Return r, w') →
  w' = w ∧ status r = "ok"
  ∧ label_id <$> predictions r = (zip labels probabilities).*1
  ∧ probability <$> predictions r = (zip labels probabilities).*2
  ∧ Forall (λ p,
      subscript (g_class_names (vars w)) (label_id p) = Return (label p)
      ∧ subscript (g_class_info (vars w)) (label_id p) = Return (metadata p)
      ∧ google_images p = image_link (label p)
      ∧ wikipedia p = wikipedia_link (label p)) (predictions r).
Proof.
  unfold format_prediction, bind, get_vars, lift, ret.
  destruct (format_rows _ _ _) as [preds|] eqn:Hrows; [|done].
  intros [= <- <-]. simpl.
  destruct (format_rows_spec _ _ _ _ Hrows) as (Hids & Hprobs & Hall).
  by split_and!.
Qed.

Lemma format_rows_in_range (class_names class_info : list string)
    (rows : list (Z * prob)) :
  length class_info = length class_names →
  Forall (in_range (length class_names)) rows.*1 →
  ∃ preds, format_rows (Some class_names) (Some class_info) rows
           = Return preds ∧ length preds = length rows.
Proof.
  intros Hlen. induction rows as [|[i p] rows IH]; intros Hrows; simpl.
  - by exists [].
  - rewrite fmap_cons in Hrows. apply Forall_cons in Hrows as [Hi Hrows].
    destruct (item_in_range class_names i Hi) as [name ->].
    rewrite <- Hlen in Hi. destruct (item_in_range class_info i Hi) as [info ->].
    destruct (IH Hrows) as (preds & -> & Hpreds).
    eexists. split; [done|]. simpl. by rewrite Hpreds.
Qed.

Lemma format_rows_out_of_range (class_names class_info : list string)
    (rows : list (Z * prob)) :
  length class_info = length class_names →
  Exists (λ i, ¬ in_range (length class_names) i) rows.*1 →
  format_rows (Some class_names) (Some class_info) rows = Raise IndexError.
Proof.
  intros Hlen. induction rows as [|[i p] rows IH]; intros Hrows; simpl.
  - by apply Exists_nil in Hrows.
  - rewrite fmap_cons in Hrows.
    destruct (decide (in_range (length class_names) i)) as [Hi|Hi].
    + apply Exists_cons in Hrows as [?|Hrows]; [done|].
      destruct (item_in_range class_names i Hi) as [name ->].
      rewrite <- Hlen in Hi.
      destruct (item_in_range class_info i Hi) as [info ->].
      by rewrite (IH Hrows).
    + by rewrite (item_out_of_range class_names i Hi).
Qed.

(** X11: With class names and metadata of one length, as a load leaves them,
    formatting returns one prediction per pair when every label is an index
    of the class names, counted from either end, and raises [IndexError]
    when some label is not. *)
Theorem format_prediction_labels (labels : list Z) (probabilities : list prob)
    (w : world) (class_names class_info : list string) :
  g_class_names (vars w) = Some class_names →
  g_class_info (vars w) = Some class_info →
  length class_info = length class_names →
  (Forall (in_range (length class_names)) (zip labels probabilities).*1 →
   ∃ r, format_prediction labels probabilities w = (Return r, w)
        ∧ length (predictions r)
          = min (length labels) (length probabilities))
  ∧ (Exists (λ i, ¬ in_range (length class_names) i)
            (zip labels probabilities).*1 →
     format_prediction labels probabilities w = (Raise IndexError, w)).
Proof.
  intros Hnames Hinfo Hlen.
  unfold format_prediction, bind, get_vars, lift, ret. rewrite Hnames, Hinfo.
  split.
  - intros Hrange.
    destruct (format_rows_in_range _ _ _ Hlen Hrange) as (preds & -> & Hpreds).
    eexists. split; [done|]. simpl. by rewrite Hpreds, length_zip.
  - intros Hrange. by rewrite (format_rows_out_of_range _ _ _ Hlen Hrange).
Qed.

End Predictions.

(** ** Links *)

Lemma replace_no_space (s : string) :
  Py.contains " " (Py.replace " " "_" s) = false.
Proof.
  induction s as [|c s IH]; [done|]. simpl. rewrite IH.
  destruct (Ascii.eqb c " ") eqn:Hc; [done|]. by rewrite Hc.
Qed.

Lemma replace_without (a b : ascii) (s : string) :
  Py.contains a s = false → Py.replace a b s = s.
Proof.
  induction s as [|c s IH]; [done|]. simpl.
  intros [Hc Hs]%orb_false_elim. by rewrite Hc, IH.
Qed.

(** X12: The Wikipedia link holds no space, whatever the class name; a class
    name without a space is appended as it is. *)
Theorem wikipedia_link_no_space (pred_lab : string) :
  Py.contains " " (wikipedia_link pred_lab) = false
  ∧ (Py.contains " " pred_lab = false →
     wikipedia_link pred_lab
     = ("https://en.wikipedia.org/wiki/" ++ pred_lab)%string).
Proof.
  unfold wikipedia_link. split.
  - rewrite contains_app, replace_no_space. reflexivity.
  - intros Hname. by rewrite replace_without.
Qed.

(** ** Runs of [train] *)

Global Instance same_constraints_equiv : Equivalence same_constraints.
Proof.
  unfold same_constraints. split.
  - by intros d.
  - intros d d' (?&?&?&?). by split_and!.
  - intros d1 d2 d3 (?&?&?&?) (?&?&?&?). split_and!; congruence.
Qed.

Global Instance same_shape_preorder : PreOrder same_shape.
Proof.
  unfold same_shape. split.
  - intros C group. destruct (C !! group) as [val|]; constructor.
    intros g_key. destruct (val !! g_key); by constructor.
  - intros C1 C2 C3 H12 H23 group. specialize (H12 group).
    specialize (H23 group).
    destruct H12 as [val1 val2 H12|]; inversion H23 as [? val3 H23'|];
      constructor.
    intros g_key. specialize (H12 g_key). specialize (H23' g_key).
    destruct H12 as [d1 d2 H12|]; inversion H23' as [? d3 H23''|];
      constructor.
    by etrans.
Qed.

Global Instance same_shape_symmetric : Symmetric same_shape.
Proof.
  intros C C' Hshape group. specialize (Hshape group).
  destruct Hshape as [val val' Hval|]; constructor.
  intros g_key. specialize (Hval g_key).
  destruct Hval as [d d' Hd|]; constructor. by symmetry.
Qed.

Section TrainRuns.
Context `{Collab : Collaborators}.

Global Instance keeps_shape_preorder : PreOrder keeps_shape.
Proof.
  unfold keeps_shape. split.
  - intros w. reflexivity.
  - intros w1 w2 w3 H12 H23. by etrans.
Qed.

Lemma keeps_shape_emit (e : event) : stable keeps_shape (emit e).
Proof. intros w. unfold keeps_shape. simpl. reflexivity. Qed.

Lemma same_shape_set_value (C : schema) (group g_key : string) (v : json) :
  same_shape C (alter (alter (λ g_val, set_value g_val v) g_key) group C).
Proof.
  intros group'. rewrite lookup_alter.
  case_decide as Hgroup; [|by destruct (C !! group') as [val|]; constructor;
    intros k; destruct (val !! k); constructor].
  subst group'. destruct (C !! group) as [val|]; constructor.
  intros k. rewrite lookup_alter.
  case_decide; simplify_eq; destruct (val !! k); by constructor.
Qed.

Lemma keeps_shape_update_value (user_conf : gmap string string)
    (group g_key : string) :
  stable keeps_shape (update_value user_conf group g_key).
Proof.
  intros w. unfold keeps_shape, update_value, bind, or_raise, get_CONF,
    put_CONF, ret, raise.
  destruct (user_conf !! g_key) as [raw|]; simpl; [|reflexivity].
  destruct (json_loads raw) as [v|]; simpl; [|reflexivity].
  apply same_shape_set_value.
Qed.

Lemma same_shape_keys (C C' : schema) (g_key : string) :
  same_shape C C' → schema_key C g_key → schema_key C' g_key.
Proof.
  intros Hshape (group & val & Hgroup & [d Hkey]). specialize (Hshape group).
  rewrite Hgroup in Hshape. inversion Hshape as [? val' Hval Heq Hgroup'|].
  specialize (Hval g_key). rewrite Hkey in Hval.
  inversion Hval as [? d' Hd Heq' Hkey'|]. exists group, val'. eauto.
Qed.

Lemma keeps_shape_train (user_conf : gmap string string) :
  stable keeps_shape (train user_conf).
Proof.
  unfold train, update_conf.
  stable_with ltac:(first [ apply keeps_shape_emit
                          | apply keeps_shape_update_value ]).
Qed.

(** X13: For every outcome, [train] leaves the schema with the groups, the keys
    and the declared constraints it had: only values change. *)
Theorem train_keeps_shape (user_conf : gmap string string) (w : world) :
  same_shape (CONF w) (CONF (train user_conf w).2)
  ∧ ∀ g_key, schema_key (CONF w) g_key
             ↔ schema_key (CONF (train user_conf w).2) g_key.
Proof.
  pose proof (keeps_shape_train user_conf w) as Hshape.
  split; [done|]. intros g_key. split; apply same_shape_keys; [done|].
  by symmetry.
Qed.

Lemma update_conf_returns (user_conf : gmap string string) (w : world) :
  (∀ g_key, schema_key (CONF w) g_key → ∃ v, decodes_to user_conf g_key v) →
  update_conf user_conf w
  = (Return tt, {| vars := vars w; CONF := merged user_conf (CONF w);
                   files := files w; trace := trace w |}).
Proof.
  intros Hall.
  destruct (update_conf_spec user_conf w) as [(Hvars & Hfiles & Htrace) Hres].
  destruct (update_conf user_conf w) as [[[]|e] [vars1 CONF1 files1 trace1]];
    simpl in *.
  - destruct Hres as [_ ->]. by subst.
  - destruct Hres as (k & Hk & [[_ Hnone]|(raw & _ & Hraw & Hnot)]);
      destruct (Hall _ Hk) as (v & raw' & ? & ?); congruence.
Qed.

(** X14: When every key of the schema has an override that decodes and the
    check of the configuration passes, [train] clears the session and calls
    the trainer with the time stamp and the merged configuration; when the
    trainer returns, the models are synchronised and [train] returns even if
    the synchronisation fails: its exception is printed. *)
Theorem train_runs_trainer (user_conf : gmap string string) (w : world) :
  (∀ g_key, schema_key (CONF w) g_key → ∃ v, decodes_to user_conf g_key v) →
  check_conf (merged user_conf (CONF w)) = Return tt →
  train_fn now_strftime (conf_dict (merged user_conf (CONF w))) = None →
  train user_conf w
  = (Return tt,
     {| vars := vars w; CONF := merged user_conf (CONF w); files := files w;
        trace := trace w
                 ++ [EvCheckConf; EvPrintConfTable; EvClearSession;
                     EvTrainFn now_strftime; EvMountNextcloud]
                 ++ match mount_nextcloud_models with
                    | Some _ => [EvPrint]
                    | None => []
                    end |}).
Proof.
  intros Hall Hcheck Htrain.
  unfold train, catch_error, try_except, bind. rewrite update_conf_returns by done.
  cbn -[merged]. unfold lift. rewrite Hcheck. cbn -[merged].
  rewrite Htrain. cbn -[merged].
  destruct mount_nextcloud_models; cbn -[merged];
    by rewrite <- !app_assoc.
Qed.

(** X15: In the same conditions, an exception of the trainer is what [train]
    raises, as a client error; the models are not synchronised. *)
Theorem train_trainer_fails (user_conf : gmap string string) (w : world)
    (e : exn) :
  (∀ g_key, schema_key (CONF w) g_key → ∃ v, decodes_to user_conf g_key v) →
  check_conf (merged user_conf (CONF w)) = Return tt →
  train_fn now_strftime (conf_dict (merged user_conf (CONF w))) = Some e →
  train user_conf w
  = (Raise (BadRequest (Cause e)),
     {| vars := vars w; CONF := merged user_conf (CONF w); files := files w;
        trace := trace w
                 ++ [EvCheckConf; EvPrintConfTable; EvClearSession;
                     EvTrainFn now_strftime] |}).
Proof.
  intros Hall Hcheck Htrain.
  unfold train, catch_error, try_except, bind. rewrite update_conf_returns by done.
  cbn -[merged]. unfold lift. rewrite Hcheck. cbn -[merged].
  rewrite Htrain. cbn -[merged]. by rewrite <- !app_assoc.
Qed.

Lemma train_leaves_merged (user_conf : gmap string string) (w : world) :
  (∀ g_key, schema_key (CONF w) g_key → ∃ v, decodes_to user_conf g_key v) →
  CONF (train user_conf w).2 = merged user_conf (CONF w)
  ∧ vars (train user_conf w).2 = vars w
  ∧ files (train user_conf w).2 = files w.
Proof.
  intros Hall.
  unfold train, catch_error, try_except, bind. rewrite update_conf_returns by done.
  cbn -[merged]. unfold lift.
  destruct (check_conf _); cbn -[merged]; [|done].
  destruct (train_fn _ _); cbn -[merged]; [done|].
  by destruct mount_nextcloud_models.
Qed.

(** X16: The overrides stay: when every key of the schema has an override that
    decodes, [config.CONF] holds the decoded overrides after the call,
    whether the check passed or not and whatever the trainer did; the
    module variables and the temporary directory are as they were. *)
Theorem train_overrides_persist (user_conf : gmap string string) (w : world) :
  (∀ g_key, schema_key (CONF w) g_key → ∃ v, decodes_to user_conf g_key v) →
  CONF (train user_conf w).2 = merged user_conf (CONF w)
  ∧ vars (train user_conf w).2 = vars w
  ∧ files (train user_conf w).2 = files w.
Proof. apply train_leaves_merged. Qed.

Lemma merged_idempotent (user_conf : gmap string string) (C : schema) :
  merged user_conf (merged user_conf C) = merged user_conf C.
Proof.
  unfold merged. rewrite <- map_fmap_compose. apply map_fmap_ext.
  intros group val _. simpl. apply map_eq. intros k.
  rewrite !map_lookup_imap. destruct (val !! k) as [d|]; simpl; [|done].
  f_equal. unfold override. by destruct (user_conf !! k ≫= json_loads).
Qed.

(** X17: Training again with the same overrides leaves the configuration the
    first call left. *)
Theorem train_twice (user_conf : gmap string string) (w : world) :
  (∀ g_key, schema_key (CONF w) g_key → ∃ v, decodes_to user_conf g_key v) →
  CONF (train user_conf (train user_conf w).2).2
  = CONF (train user_conf w).2.
Proof.
  intros Hall.
  destruct (train_leaves_merged user_conf w Hall) as (Hconf & _ & _).
  destruct (train_leaves_merged user_conf (train user_conf w).2)
    as (Hconf' & _ & _).
  - intros g_key Hkey. apply Hall.
    pose proof (keeps_shape_train user_conf w) as Hshape.
    unfold keeps_shape in Hshape. symmetry in Hshape.
    by apply (same_shape_keys _ _ _ Hshape).
  - by rewrite Hconf', Hconf, merged_idempotent.
Qed.

End TrainRuns.

(** ** Reading PKG-INFO *)

Lemma prefix_app (p t : string) : String.prefix p (p ++ t)%string = true.
Proof.
  induction p as [|c p IH].
  - change ("" ++ t)%string with t. destruct t; simpl; reflexivity.
  - rewrite string_app_cons. simpl. by destruct (ascii_dec c c).
Qed.

Lemma prefix_split (p s : string) :
  String.prefix p s = true →
  s = (p ++ substring (String.length p)
                      (String.length s - String.length p) s)%string.
Proof.
  revert s. induction p as [|c p IH]; intros s Hp.
  - change ("" ++ ?t)%string with t. simpl. rewrite Nat.sub_0_r.
    clear Hp. induction s as [|x s IHs]; [done|]. simpl. by rewrite <- IHs.
  - destruct s as [|x s]; [done|]. simpl in Hp.
    destruct (ascii_dec c x) as [->|]; [|done].
    rewrite string_app_cons. simpl. f_equal. by apply IH.
Qed.

Lemma split_once_unfold (sep s : string) :
  Py.split_once sep s
  = if String.prefix sep s
    then Some (EmptyString,
               substring (String.length sep)
                         (String.length s - String.length sep) s)
    else match s with
         | EmptyString => None
         | String c t =>
             match Py.split_once sep t with
             | Some (before, after) => Some (String c before, after)
             | None => None
             end
         end.
Proof. by destruct s. Qed.

(** [s.split(sep, 1)] cuts [s] at an occurrence of [sep]... *)
Lemma split_once_sound (sep s before after : string) :
  Py.split_once sep s = Some (before, after) →
  s = (before ++ sep ++ after)%string.
Proof.
  revert before. induction s as [|c s IH]; intros before;
    rewrite split_once_unfold;
    destruct (String.prefix sep _) eqn:Hp;
    try (intros [= <- <-]; exact (prefix_split _ _ Hp)).
  destruct (Py.split_once sep s) as [[b a]|]; [|done].
  intros [= <- <-]. rewrite string_app_cons. f_equal. by apply IH.
Qed.

(** ... and at the first one. *)
Lemma split_once_first (sep s before after before' after' : string) :
  Py.split_once sep s = Some (before, after) →
  s = (before' ++ sep ++ after')%string →
  (String.length before ≤ String.length before')%nat.
Proof.
  revert before before'. induction s as [|c s IH]; intros before before';
    rewrite split_once_unfold;
    destruct (String.prefix sep _) eqn:Hp;
    try (intros [= <- <-] _; simpl; lia).
  destruct (Py.split_once sep s) as [[b a]|] eqn:Hs; [|done].
  intros [= <- <-] Heq. destruct before' as [|c' before'].
  - change ("" ++ ?t)%string with t in Heq.
    rewrite Heq, prefix_app in Hp. done.
  - rewrite string_app_cons in Heq. injection Heq as -> Heq.
    simpl. apply le_n_S. by eapply IH.
Qed.

(** X18: The value of a line of PKG-INFO is the text after its first [": "]:
    a line [before: value] in which [": "] does not occur in [before] and
    which does not end [before] with a colon is cut into [before] and
    [value], whatever [value] holds. *)
Theorem split_once_value (line before value : string) :
  Py.split_once ": " line = Some (before, value) →
  line = (before ++ ": " ++ value)%string
  ∧ ∀ before' value', line = (before' ++ ": " ++ value')%string →
                      (String.length before ≤ String.length before')%nat.
Proof.
  intros Hsplit. split; [by apply split_once_sound|].
  intros before' value'. by apply (split_once_first ": " line before value).
Qed.

Lemma split_once_value_witness :
  "Summary: a tool: for images" = ("Summary" ++ ": " ++ "a tool: for images")%string
  ∧ ∀ before' value',
      "Summary: a tool: for images" = (before' ++ ": " ++ value')%string →
      (String.length "Summary" ≤ String.length before')%nat.
Proof. apply split_once_value. reflexivity. Defined.

(** X19: A line that holds [": "] gives the text after the first [": "] to
    every parameter that the line starts with, and to those only. *)
Theorem read_line_assigns (line before value : string) (pars : list string)
    (meta : gmap string (option string)) :
  Py.split_once ": " line = Some (before, value) →
  ∃ meta', read_line line pars meta = Return meta'
           ∧ ∀ par,
               (par ∈ pars → Py.startswith line par = true →
                meta' !! par = Some (Some value))
               ∧ (par ∉ pars ∨ Py.startswith line par = false →
                  meta' !! par = meta !! par).
Proof.
  intros Hsplit. revert meta.
  induction pars as [|p pars IH]; intros meta; simpl.
  - exists meta. split; [done|]. intros par. split; [|done].
    intros Hin. by apply elem_of_nil in Hin.
  - destruct (Py.startswith line p) eqn:Hp.
    + rewrite Hsplit.
      destruct (IH (<[p := Some value]> meta)) as (meta' & -> & Hmeta').
      exists meta'. split; [done|]. intros par.
      destruct (Hmeta' par) as [Hyes Hno]. split.
      * intros Hin Hpar. destruct (decide (par ∈ pars)) as [Hpars|Hpars].
        { by apply Hyes. }
        apply elem_of_cons in Hin as [->|?]; [|done].
        rewrite Hno by by left. apply lookup_insert_eq.
      * intros Hout. assert (par ≠ p) as Hne.
        { intros ->. destruct Hout as [Hout|Hout]; [|congruence].
          apply Hout. by left. }
        rewrite Hno.
        { by apply lookup_insert_ne. }
        destruct Hout as [Hout|Hout]; [left|by right].
        intros Hin. apply Hout. by right.
    + destruct (IH meta) as (meta' & -> & Hmeta').
      exists meta'. split; [done|]. intros par.
      destruct (Hmeta' par) as [Hyes Hno]. split.
      * intros Hin Hpar. apply Hyes; [|done].
        apply elem_of_cons in Hin as [->|?]; [congruence|done].
      * intros Hout. apply Hno.
        destruct Hout as [Hout|Hout]; [left|by right].
        intros Hin. apply Hout. by right.
Qed.

Lemma read_line_ignored (line : string) (pars : list string)
    (meta : gmap string (option string)) :
  Forall (λ par, Py.startswith line par = false) pars →
  read_line line pars meta = Return meta.
Proof.
  intros Hpars. induction Hpars as [|p pars Hp _ IH]; simpl; [done|].
  by rewrite Hp.
Qed.

Lemma read_lines_cons (line : string) (lines : list string)
    (meta : gmap string (option string)) :
  read_lines (line :: lines) meta
  = match read_line line meta_keys meta with
    | Return meta => read_lines lines meta
    | Raise e => Raise e
    end.
Proof. reflexivity. Qed.

(** X20: A line that starts with none of the parameters is skipped; a line that
    starts with one and holds no [": "] stops the reading with
    [ValueError], whatever the lines after it. *)
Theorem read_lines_without_value (line : string) (lines : list string)
    (meta : gmap string (option string)) :
  (Forall (λ par, Py.startswith line par = false) meta_keys →
   read_lines (line :: lines) meta = read_lines lines meta)
  ∧ (Exists (λ par, Py.startswith line par = true) meta_keys →
     Py.split_once ": " line = None →
     read_lines (line :: lines) meta = Raise ValueError).
Proof.
  split.
  - intros Hskip. by rewrite read_lines_cons, read_line_ignored.
  - intros Hstarts Hsplit. rewrite read_lines_cons.
    assert (∀ pars m, Exists (λ par, Py.startswith line par = true) pars →
              read_line line pars m = Raise ValueError) as Hraise.
    { intros pars m Hpars. revert m.
      induction Hpars as [p pars Hp|p pars _ IH]; intros m; simpl.
      - by rewrite Hp, Hsplit.
      - destruct (Py.startswith line p); [by rewrite Hsplit|apply IH]. }
    by rewrite Hraise.
Qed.

Lemma read_lines_without_value_witness :
  read_lines ["Metadata-Version: 2.1"; "Name: imgclas"] empty_meta
  = read_lines ["Name: imgclas"] empty_meta
  ∧ read_lines ["License"; "Name: imgclas"] empty_meta = Raise ValueError.
Proof.
  split.
  - apply (read_lines_without_value "Metadata-Version: 2.1").
    by repeat constructor.
  - apply (read_lines_without_value "License"); [|reflexivity].
    do 6 apply Exists_cons_tl. by apply Exists_cons_hd.
Defined.

Lemma read_line_dom (line : string) (pars : list string)
    (meta meta' : gmap string (option string)) :
  (∀ par, par ∈ pars → par ∈ dom meta) →
  read_line line pars meta = Return meta' → dom meta' = dom meta.
Proof.
  revert meta. induction pars as [|p pars IH]; intros meta Hpars; simpl.
  - by intros [= <-].
  - assert (p ∈ dom meta) as Hp by (apply Hpars; left).
    assert (∀ par, par ∈ pars → par ∈ dom meta) as Hrest
      by (intros par ?; apply Hpars; by right).
    destruct (Py.startswith line p); [|by apply IH].
    destruct (Py.split_once ": " line) as [[_ value]|]; [|done].
    intros Hread. apply IH in Hread.
    + rewrite Hread, dom_insert_L. set_solver.
    + intros par Hpar. rewrite dom_insert_L. set_solver.
Qed.

Lemma read_lines_dom (lines : list string)
    (meta meta' : gmap string (option string)) :
  (∀ par, par ∈ meta_keys → par ∈ dom meta) →
  read_lines lines meta = Return meta' → dom meta' = dom meta.
Proof.
  revert meta. induction lines as [|line lines IH]; intros meta Hkeys.
  - by intros [= <-].
  - rewrite read_lines_cons.
    destruct (read_line line meta_keys meta) as [meta1|] eqn:Hline; [|done].
    apply read_line_dom in Hline; [|done].
    intros Hrest. apply IH in Hrest; [congruence|].
    intros par Hpar. rewrite Hline. by apply Hkeys.
Qed.

Section MetadataKeys.
Context `{Collab : Collaborators}.

Lemma update_with_container_vars_dom (container_vars : list string)
    (meta : gmap string (option string)) :
  dom (update_with_container_vars container_vars meta)
  = dom meta ∪ list_to_set (Py.capitalize <$> container_vars).
Proof.
  unfold update_with_container_vars. revert meta.
  induction container_vars as [|var vars IH]; intros meta; simpl.
  - set_solver.
  - rewrite IH, dom_insert_L. set_solver.
Qed.

Lemma capitalize_container (var : string) :
  re_match_container var = true → Py.capitalize var ∉ meta_keys.
Proof.
  unfold re_match_container. intros [Hprefix _]%andb_prop.
  apply String.prefix_correct in Hprefix.
  destruct var as [|c var]; [done|]. simpl in Hprefix.
  injection Hprefix as -> _.
  unfold meta_keys. simpl. intros Hin.
  repeat (apply elem_of_cons in Hin as [Hin|Hin]; [discriminate|]).
  by apply elem_of_nil in Hin.
Qed.

(** X21: The keys of the metadata are the seven fields of the package and the
    capitalized names of the CONTAINER_ variables; the endpoint makes no
    call and changes nothing.  The variables never overwrite a field of the
    package: the seven fields are as the reading of PKG-INFO left them. *)
Theorem get_metadata_keys (w w' : world)
    (meta : gmap string (option string)) :
  get_metadata w = (Return meta, w') →
  w' = w
  ∧ dom meta
    = list_to_set meta_keys
      ∪ list_to_set
          (Py.capitalize
           <$> filter (λ var, re_match_container var = true) (os_environ.*1))
  ∧ ∃ lines meta0,
      pkg_info_lines = Return lines
      ∧ read_lines lines empty_meta = Return meta0
      ∧ ∀ par, par ∈ meta_keys → meta !! par = meta0 !! par.
Proof.
  unfold get_metadata, catch_error, try_except, bind, lift, ret.
  destruct pkg_info_lines as [lines|]; [|done].
  destruct (read_lines lines empty_meta) as [meta0|] eqn:Hread; [|done].
  intros [= <- <-]. split; [done|]. split.
  - assert (dom empty_meta = list_to_set (C := gset string) meta_keys)
      as Hempty.
    { unfold empty_meta. rewrite dom_list_to_map_L, <- list_fmap_compose.
      by rewrite list_fmap_id. }
    rewrite update_with_container_vars_dom.
    apply read_lines_dom in Hread as ->; [by rewrite Hempty|].
    intros par Hpar. rewrite Hempty. by apply elem_of_list_to_set.
  - exists lines, meta0. split; [done|]. split; [done|].
    intros par Hpar. apply update_with_container_vars_other.
    apply Forall_forall. intros var [Hmatch _]%list_elem_of_filter <-.
    by apply capitalize_container in Hmatch.
Qed.

End MetadataKeys.

(** ** The further properties on the concrete deployments *)

Lemma load_success_state_witness :
  let w' := (@load_inference_model demo demo_world).2 in
  loaded (vars w') = true
  ∧ paths_timestamp (vars w') = Some "2019-05-05"
  ∧ files w' = files demo_world ∧ CONF w' = CONF demo_world.
Proof.
  intros w'.
  assert (@load_inference_model demo demo_world = (Return tt, w')) as Hload
    by apply surjective_pairing.
  assert (paths_timestamp (vars w') = Some "2019-05-05") as Hts
    by (vm_compute; reflexivity).
  destruct (load_success_state (Collab := demo) demo_world w' Hload)
    as (Hloaded & _ & Hfiles & HCONF).
  exact (conj Hloaded (conj Hts (conj Hfiles HCONF))).
Defined.

Lemma load_class_info_applied_witness :
  let bare := site (Some ["api"]) ["final_model.h5"] ["classes.txt"] [] None None in
  let full := site (Some ["api"]) ["final_model.h5"] ["classes.txt"; "info.txt"]
                   ["a feline"; "a canine"] None None in
  g_class_info
    (vars (@load_inference_model bare (site_world bare ∅)).2)
  = Some [""; ""]
  ∧ g_class_info
      (vars (@load_inference_model full (site_world full ∅)).2)
    = Some ["a feline"; "a canine"].
Proof.
  intros bare full. split.
  - assert (@load_inference_model bare (site_world bare ∅)
            = (Return tt, (@load_inference_model bare (site_world bare ∅)).2))
      as Hload by apply surjective_pairing.
    assert (paths_timestamp
              (vars (@load_inference_model bare (site_world bare ∅)).2)
            = Some "api") as Hts by (vm_compute; reflexivity).
    assert ("info.txt" ∉ ["classes.txt"]) as Hout by compute_done.
    destruct (load_class_info_applied (Collab := bare) _ _ "api"
                ["classes.txt"] ["cat"; "dog"] Hload Hts eq_refl eq_refl)
      as [Hbare _].
    exact (Hbare Hout).
  - assert (@load_inference_model full (site_world full ∅)
            = (Return tt, (@load_inference_model full (site_world full ∅)).2))
      as Hload by apply surjective_pairing.
    assert (paths_timestamp
              (vars (@load_inference_model full (site_world full ∅)).2)
            = Some "api") as Hts by (vm_compute; reflexivity).
    assert ("info.txt" ∈ ["classes.txt"; "info.txt"]) as Hin by compute_done.
    destruct (load_class_info_applied (Collab := full) _ _ "api"
                ["classes.txt"; "info.txt"] ["cat"; "dog"] Hload Hts
                eq_refl eq_refl)
      as [_ Hfull].
    exact (Hfull ["a feline"; "a canine"] Hin eq_refl eq_refl).
Defined.

Lemma load_failure_keeps_flag_witness :
  let empty := site (Some ["api"]) [] [] [] None None in
  let w' := (@load_inference_model empty (site_world empty ∅)).2 in
  loaded (vars w') = false ∧ g_model (vars w') = None.
Proof.
  intros empty w'.
  assert (@load_inference_model empty (site_world empty ∅)
          = (Raise (NoCheckpointsAvailable "api"), w')) as Hload
    by apply surjective_pairing.
  destruct (load_failure_keeps_flag (Collab := empty) _ _ _ Hload)
    as (Hloaded & Hmodel & _).
  exact (conj Hloaded Hmodel).
Defined.

Lemma load_selection_failures_witness :
  let missing := site None [] [] [] None None in
  let none := site (Some []) [] [] [] None None in
  let empty := site (Some ["2018-01-01"; "2019-05-05"]) [] [] [] None None in
  (@load_inference_model missing (site_world missing ∅)).1
  = Raise StopIteration
  ∧ (@load_inference_model none (site_world none ∅)).1
    = Raise NoModelsAvailable
  ∧ (@load_inference_model empty (site_world empty ∅)).1
    = Raise (NoCheckpointsAvailable "2019-05-05").
Proof.
  intros missing none empty. split; [|split].
  - destruct (load_selection_failures (Collab := missing)
                (site_world missing ∅)) as (Hmissing & _ & _).
    by rewrite (Hmissing eq_refl).
  - destruct (load_selection_failures (Collab := none) (site_world none ∅))
      as (_ & Hnone & _).
    by rewrite (Hnone eq_refl).
  - destruct (load_selection_failures (Collab := empty) (site_world empty ∅))
      as (_ & _ & Hempty).
    assert (select_timestamp ["2018-01-01"; "2019-05-05"] = Return "2019-05-05")
      as Hts by (vm_compute; reflexivity).
    by rewrite (Hempty _ _ eq_refl Hts eq_refl).
Defined.

Lemma catch_localfile_error_outcome_witness :
  @catch_localfile_error demo [Upload "cat.png" "89504e47"] demo_world
  = (Return tt, demo_world)
  ∧ @catch_localfile_error demo
      [Upload "cat.png" "89504e47"; Upload "notes.txt" "hello"] demo_world
    = (Raise UnsupportedExtension, demo_world).
Proof.
  split.
  - rewrite (catch_localfile_error_outcome (Collab := demo)) by discriminate.
    rewrite bool_decide_eq_true_2; [reflexivity|].
    by repeat constructor.
  - rewrite (catch_localfile_error_outcome (Collab := demo)) by discriminate.
    rewrite bool_decide_eq_false_2; [reflexivity|].
    intros Hall. apply Forall_cons in Hall as [_ Hall].
    apply Forall_cons in Hall as [Htxt _]. revert Htxt. compute_done.
Defined.

Lemma rejected_request_ends_witness :
  (@predict_url demo ["http://b"] true demo_world).1
  = Raise (BadRequest (Cause UnreachableUrl))
  ∧ @predict_data demo (OneFile (Upload "notes.txt" "hello")) true demo_world
    = (Raise (BadRequest (Cause UnsupportedExtension)), demo_world).
Proof.
  split.
  - assert (@catch_url_error demo ["http://b"] demo_world
            = (Raise UnreachableUrl,
               (@catch_url_error demo ["http://b"] demo_world).2)) as Hcheck
      by apply surjective_pairing.
    destruct (rejected_request_ends (Collab := demo) true demo_world
                (@catch_url_error demo ["http://b"] demo_world).2
                UnreachableUrl) as [Hurl _].
    by rewrite (Hurl _ Hcheck).
  - assert (@catch_localfile_error demo [Upload "notes.txt" "hello"] demo_world
            = (Raise UnsupportedExtension,
               (@catch_localfile_error demo [Upload "notes.txt" "hello"]
                  demo_world).2)) as Hcheck
      by apply surjective_pairing.
    destruct (rejected_request_ends (Collab := demo) true demo_world
                (@catch_localfile_error demo [Upload "notes.txt" "hello"]
                   demo_world).2
                UnsupportedExtension) as [_ Hfiles].
    destruct (Hfiles _ Hcheck) as (_ & _ & Hone).
    exact (Hone _ eq_refl).
Defined.

Lemma prediction_sets_loaded_witness :
  loaded (vars demo_world) = false
  ∧ loaded (vars (@predict_url demo ["http://a/cat.png"] true demo_world).2)
    = true.
Proof.
  split; [reflexivity|].
  assert (∃ r, (@predict_url demo ["http://a/cat.png"] true demo_world).1
               = Return r) as [r Hr] by (eexists; reflexivity).
  assert (@predict_url demo ["http://a/cat.png"] true demo_world
          = (Return r,
             (@predict_url demo ["http://a/cat.png"] true demo_world).2))
    as Hrun by (rewrite <- Hr; apply surjective_pairing).
  destruct (prediction_sets_loaded (Collab := demo) true demo_world
              (@predict_url demo ["http://a/cat.png"] true demo_world).2 r)
    as [Hurl _].
  exact (Hurl _ Hrun).
Defined.

Lemma format_prediction_rows_witness :
  ∃ r, @format_prediction demo [1; 0]%Z [90; 10]%Z demo_loaded_world
       = (Return r, demo_loaded_world)
       ∧ label_id <$> predictions r = [1; 0]%Z
       ∧ Forall (λ p, wikipedia p = wikipedia_link (label p)) (predictions r).
Proof.
  assert (∃ r, (@format_prediction demo [1; 0]%Z [90; 10]%Z
                  demo_loaded_world).1 = Return r) as [r Hr]
    by (eexists; reflexivity).
  assert (@format_prediction demo [1; 0]%Z [90; 10]%Z demo_loaded_world
          = (Return r,
             (@format_prediction demo [1; 0]%Z [90; 10]%Z
                demo_loaded_world).2)) as Hrun
    by (rewrite <- Hr; apply surjective_pairing).
  destruct (format_prediction_rows (Collab := demo) _ _ _ _ _ Hrun)
    as (Hw & _ & Hids & _ & Hall).
  exists r. split; [by rewrite Hrun, Hw|]. split; [exact Hids|].
  eapply Forall_impl; [exact Hall|]. by intros p (_ & _ & _ & Hwiki).
Defined.

Lemma format_prediction_labels_witness :
  (∃ r, @format_prediction demo [1; -2]%Z [90; 10]%Z demo_loaded_world
        = (Return r, demo_loaded_world)
        ∧ length (predictions r) = 2)
  ∧ @format_prediction demo [1; 2]%Z [90; 10]%Z demo_loaded_world
    = (Raise IndexError, demo_loaded_world).
Proof.
  split.
  - destruct (format_prediction_labels (Collab := demo) [1; -2]%Z [90; 10]%Z
                demo_loaded_world ["cat"; "dog"] [""; ""]
                eq_refl eq_refl eq_refl) as [Hin _].
    apply Hin. repeat constructor; unfold in_range; simpl; lia.
  - destruct (format_prediction_labels (Collab := demo) [1; 2]%Z [90; 10]%Z
                demo_loaded_world ["cat"; "dog"] [""; ""]
                eq_refl eq_refl eq_refl) as [_ Hout].
    apply Hout. apply Exists_cons_tl, Exists_cons_hd.
    unfold in_range. simpl. lia.
Defined.

Lemma wikipedia_link_no_space_witness :
  Py.contains " " (wikipedia_link "Felis catus") = false
  ∧ wikipedia_link "Felis" = "https://en.wikipedia.org/wiki/Felis".
Proof.
  split.
  - apply (wikipedia_link_no_space "Felis catus").
  - apply (wikipedia_link_no_space "Felis"). reflexivity.
Defined.

Lemma demo_overrides_decode (S : Collaborators) :
  @json_loads S = demo_json_loads →
  let user_conf : gmap string string :=
    {[ "image_size" := "64"; "batch_size" := "2" ]} in
  ∀ g_key, schema_key demo_CONF g_key → ∃ v, @decodes_to S user_conf g_key v.
Proof.
  intros Hloads user_conf g_key [->| ->]%demo_schema_keys.
  - exists (JInt 64), "64". rewrite Hloads. split; vm_compute; reflexivity.
  - exists (JInt 2), "2". rewrite Hloads. split; vm_compute; reflexivity.
Defined.

Lemma train_runs_trainer_witness :
  let user_conf : gmap string string :=
    {[ "image_size" := "64"; "batch_size" := "2" ]} in
  (@train demo user_conf demo_world).1 = Return tt
  ∧ trace (@train demo user_conf demo_world).2
    = [EvCheckConf; EvPrintConfTable; EvClearSession;
       EvTrainFn "2019-05-06_101500"; EvMountNextcloud].
Proof.
  intros user_conf.
  pose proof (demo_overrides_decode demo eq_refl) as Hall.
  assert (check_conf (@merged demo user_conf (CONF demo_world)) = Return tt)
    as Hcheck by (vm_compute; reflexivity).
  rewrite (train_runs_trainer (Collab := demo) user_conf demo_world
             Hall Hcheck eq_refl).
  split; reflexivity.
Defined.

Lemma train_trainer_fails_witness :
  let broken := site (Some ["api"]) ["final_model.h5"] ["classes.txt"] []
                     (Some (CollaboratorError "out of memory")) None in
  let user_conf : gmap string string :=
    {[ "image_size" := "64"; "batch_size" := "2" ]} in
  (@train broken user_conf (site_world broken demo_CONF)).1
  = Raise (BadRequest (Cause (CollaboratorError "out of memory")))
  ∧ trace (@train broken user_conf (site_world broken demo_CONF)).2
    = [EvCheckConf; EvPrintConfTable; EvClearSession;
       EvTrainFn "2019-05-06_101500"].
Proof.
  intros broken user_conf.
  pose proof (demo_overrides_decode broken eq_refl) as Hall.
  assert (check_conf (@merged broken user_conf demo_CONF) = Return tt)
    as Hcheck by (vm_compute; reflexivity).
  rewrite (train_trainer_fails (Collab := broken) user_conf
             (site_world broken demo_CONF)
             (CollaboratorError "out of memory") Hall Hcheck eq_refl).
  split; reflexivity.
Defined.

Lemma train_overrides_persist_witness :
  let user_conf : gmap string string :=
    {[ "image_size" := "64"; "batch_size" := "2" ]} in
  CONF (@train demo user_conf demo_world).2 = small_CONF.
Proof.
  intros user_conf.
  destruct (train_overrides_persist (Collab := demo) user_conf demo_world
              (demo_overrides_decode demo eq_refl)) as [-> _].
  vm_compute. reflexivity.
Defined.

Lemma train_twice_witness :
  let user_conf : gmap string string :=
    {[ "image_size" := "64"; "batch_size" := "2" ]} in
  CONF (@train demo user_conf (@train demo user_conf demo_world).2).2
  = CONF (@train demo user_conf demo_world).2.
Proof.
  intros user_conf.
  exact (train_twice (Collab := demo) user_conf demo_world
           (demo_overrides_decode demo eq_refl)).
Defined.

Lemma read_line_assigns_witness :
  ∃ meta', read_line "Name: imgclas" meta_keys empty_meta = Return meta'
           ∧ meta' !! "Name" = Some (Some "imgclas")
           ∧ meta' !! "Version" = empty_meta !! "Version".
Proof.
  destruct (read_line_assigns "Name: imgclas" "Name" "imgclas" meta_keys
              empty_meta eq_refl) as (meta' & Hread & Hmeta').
  exists meta'. split; [exact Hread|]. split.
  - apply (Hmeta' "Name"); [compute_done | reflexivity].
  - apply (Hmeta' "Version"). right. reflexivity.
Defined.

Lemma get_metadata_keys_witness :
  let meta := (<["Container_foo" := Some "bar"]>
                (<["Version" := Some "0.1"]>
                   (<["Name" := Some "imgclas"]> empty_meta)))
              : gmap string (option string) in
  (@get_metadata demo demo_world).1 = Return meta
  ∧ dom meta = list_to_set meta_keys ∪ {["Container_foo"]}.
Proof.
  intros meta.
  assert ((@get_metadata demo demo_world).1 = Return meta) as Hmeta
    by (vm_compute; reflexivity).
  split; [exact Hmeta|].
  assert (@get_metadata demo demo_world
          = (Return meta, (@get_metadata demo demo_world).2)) as Hrun
    by (rewrite <- Hmeta; apply surjective_pairing).
  destruct (get_metadata_keys (Collab := demo) _ _ _ Hrun) as (_ & -> & _).
  by f_equal.
Defined.

(** ** The arguments of [train] *)

Section TrainArgsProperties.
Context `{Collab : Collaborators} `{Pr : Printers}.

Lemma opt_args_returns (group : string) (g_val : descriptor) :
  (∀ t, d_type g_val = Some t → is_Some (builtins_getattr t)) →
  ∃ opt, opt_args group g_val = Return opt.
Proof.
  intros Htype. unfold opt_args.
  destruct (d_type g_val) as [t|]; [|by eexists].
  destruct (Htype t eq_refl) as [[] ->]; by eexists.
Qed.

Lemma opt_args_raises (group : string) (g_val : descriptor) (e : exn) :
  opt_args group g_val = Raise e →
  e = AttributeError ∧ ∃ t, d_type g_val = Some t ∧ builtins_getattr t = None.
Proof.
  unfold opt_args. destruct (d_type g_val) as [t|]; [|done].
  destruct (builtins_getattr t) as [[]|] eqn:Ht; [done..|].
  intros [= <-]. split; [done|]. by exists t.
Qed.

Lemma opt_args_fields (group : string) (g_val : descriptor) (opt : train_arg) :
  opt_args group g_val = Return opt →
  arg_required opt = false
  ∧ arg_default opt = json_dumps (d_value g_val)
  ∧ ∃ rest, arg_help opt
            = (default EmptyString (d_help g_val) ++ PyFmt.nl
               ++ "Group name: **" ++ group ++ "**" ++ rest)%string.
Proof.
  unfold opt_args. generalize (default EmptyString (d_help g_val)) as help.
  intros help.
  assert (∀ a b c : string, ((a ++ b) ++ c = a ++ b ++ c)%string) as Hassoc.
  { intros a b c. induction a as [|x a IH]; [done|].
    rewrite !string_app_cons. by rewrite IH. }
  assert (∀ a : string, (a ++ "")%string = a) as Hnil.
  { intros a. induction a as [|x a IH]; [done|].
    rewrite string_app_cons. by rewrite IH. }
  destruct (d_type g_val) as [t|];
    [destruct (builtins_getattr t) as [[]|]; [| |done]|];
    destruct (d_choices g_val) as [[|c cs]|];
    intros [= <-]; cbn [arg_required arg_default arg_help];
    (split; [done|]); (split; [done|]).
  all: repeat rewrite Hassoc.
  all: try (eexists; reflexivity).
  all: exists EmptyString; by rewrite ?Hnil.
Qed.

Lemma args_of_group_entries (group : string) (val : list (string * descriptor))
    (train_args : gmap string train_arg) :
  args_of_group group val train_args
  = args_of_entries ((λ kd, (kd.1, (group, kd.2))) <$> val) train_args.
Proof.
  revert train_args. induction val as [|[g_key g_val] val IH];
    intros train_args; [done|].
  rewrite fmap_cons. simpl. destruct (opt_args group g_val); [apply IH|done].
Qed.

Lemma args_of_entries_app (es1 es2 : list (string * (string * descriptor)))
    (train_args : gmap string train_arg) :
  args_of_entries (es1 ++ es2) train_args
  = and_then (args_of_entries es1 train_args) (args_of_entries es2).
Proof.
  revert train_args. induction es1 as [|[g_key [group g_val]] es1 IH];
    intros train_args; [done|].
  simpl. destruct (opt_args group g_val); [apply IH|done].
Qed.

Lemma args_of_groups_entries (default_conf : conf_items)
    (train_args : gmap string train_arg) :
  args_of_groups default_conf train_args
  = args_of_entries (flat_items default_conf) train_args.
Proof.
  revert train_args. induction default_conf as [|[group val] default_conf IH];
    intros train_args; [done|].
  unfold flat_items. rewrite fmap_cons. simpl. rewrite args_of_entries_app.
  rewrite args_of_group_entries.
  destruct (args_of_entries _ train_args); simpl; [apply IH|done].
Qed.

Lemma args_of_entries_returns (entries : list (string * (string * descriptor)))
    (train_args : gmap string train_arg) :
  Forall known_type entries →
  ∃ m, args_of_entries entries train_args = Return m.
Proof.
  intros Hknown. revert train_args.
  induction Hknown as [|[g_key [group g_val]] entries Hk _ IH];
    intros train_args; simpl; [by eexists|].
  destruct (opt_args_returns group g_val Hk) as [opt ->]. apply IH.
Qed.

Lemma args_of_entries_raises (entries : list (string * (string * descriptor)))
    (train_args : gmap string train_arg) :
  Exists (λ e, ¬ known_type e) entries →
  args_of_entries entries train_args = Raise AttributeError.
Proof.
  intros Hbad. revert train_args.
  induction Hbad as [[g_key [group g_val]] entries Hb
                    |[g_key [group g_val]] entries _ IH];
    intros train_args; simpl.
  - destruct (opt_args group g_val) as [opt|e] eqn:Hopt.
    + exfalso. apply Hb. intros t Ht. simpl in Ht.
      unfold opt_args in Hopt. rewrite Ht in Hopt.
      by destruct (builtins_getattr t) as [[]|].
    + by apply opt_args_raises in Hopt as [-> _].
  - destruct (opt_args group g_val) as [opt|e] eqn:Hopt; [apply IH|].
    by apply opt_args_raises in Hopt as [-> _].
Qed.

Lemma args_of_entries_spec (entries : list (string * (string * descriptor)))
    (train_args m : gmap string train_arg) :
  args_of_entries entries train_args = Return m →
  dom m = dom train_args ∪ list_to_set entries.*1
  ∧ (∀ k, k ∉ entries.*1 → m !! k = train_args !! k)
  ∧ (∀ k group g_val, NoDup entries.*1 → (k, (group, g_val)) ∈ entries →
       ∃ opt, m !! k = Some opt ∧ opt_args group g_val = Return opt)
  ∧ (∀ k opt, m !! k = Some opt →
       train_args !! k = Some opt
       ∨ ∃ group g_val, (k, (group, g_val)) ∈ entries
                        ∧ opt_args group g_val = Return opt).
Proof.
  revert train_args.
  induction entries as [|[k0 [g0 d0]] entries IH]; intros train_args.
  - intros [= <-]. split_and!; [set_solver|done| |by left].
    intros k group g_val _ Hin. by apply elem_of_nil in Hin.
  - simpl. destruct (opt_args g0 d0) as [o|] eqn:Ho; [|done].
    intros Hrest. destruct (IH _ Hrest) as (Hdom & Hout & Hin & Hfrom).
    split_and!.
    + rewrite Hdom, dom_insert_L. set_solver.
    + intros k Hk. apply not_elem_of_cons in Hk as [Hne Hk].
      rewrite (Hout k Hk). by apply lookup_insert_ne.
    + intros k group g_val Hnodup Hk. apply NoDup_cons in Hnodup as [Hk0 Hnodup].
      apply elem_of_cons in Hk as [[= -> -> ->]|Hk].
      * exists o. split; [|done]. rewrite (Hout k0 Hk0).
        apply lookup_insert_eq.
      * by apply Hin.
    + intros k opt Hk. destruct (Hfrom k opt Hk) as [Hacc|(group & g_val & He & Hopt)].
      * destruct (decide (k = k0)) as [->|Hne].
        { rewrite lookup_insert_eq in Hacc. injection Hacc as <-.
          right. exists g0, d0. split; [left|done]. }
        rewrite lookup_insert_ne in Hacc by done. by left.
      * right. exists group, g_val. split; [by right|done].
Qed.

(** X22: [get_train_args] makes no call and changes nothing.  It returns one
    argument per key of the configuration when every declared type is an
    attribute of [builtins]; a declared type that is not ([NoneType], a
    misspelt name) makes the whole call fail with the [AttributeError] of
    [getattr], as a client error. *)
Theorem get_train_args_outcome (default_conf : conf_items) (w : world) :
  (Forall known_type (flat_items default_conf) →
   ∃ train_args, get_train_args default_conf w = (Return train_args, w)
                 ∧ dom train_args
                   = list_to_set (flat_items default_conf).*1)
  ∧ (Exists (λ e, ¬ known_type e) (flat_items default_conf) →
     get_train_args default_conf w
     = (Raise (BadRequest (Cause AttributeError)), w)).
Proof.
  unfold get_train_args, catch_error, try_except, lift, raise.
  rewrite args_of_groups_entries. split.
  - intros Hknown.
    destruct (args_of_entries_returns _ ∅ Hknown) as [m Hm]. rewrite Hm.
    exists m. split; [done|].
    apply args_of_entries_spec in Hm as (-> & _). set_solver.
  - intros Hbad. by rewrite args_of_entries_raises.
Qed.

(** X23: Every argument returned is optional and comes from a key of the
    configuration: its default is the JSON text of the value of that key,
    and its help starts with the declared help, if any, followed by the
    name of the group. *)
Theorem get_train_args_entry (default_conf : conf_items) (w w' : world)
    (train_args : gmap string train_arg) (g_key : string) (opt : train_arg) :
  get_train_args default_conf w = (Return train_args, w') →
  train_args !! g_key = Some opt →
  arg_required opt = false
  ∧ ∃ group g_val,
      (g_key, (group, g_val)) ∈ flat_items default_conf
      ∧ arg_default opt = json_dumps (d_value g_val)
      ∧ ∃ rest, arg_help opt
                = (default EmptyString (d_help g_val) ++ PyFmt.nl
                   ++ "Group name: **" ++ group ++ "**" ++ rest)%string.
Proof.
  unfold get_train_args, catch_error, try_except, lift, raise.
  rewrite args_of_groups_entries.
  destruct (args_of_entries _ ∅) as [m|] eqn:Hm; [|done].
  intros [= <- <-] Hopt.
  apply args_of_entries_spec in Hm as (_ & _ & _ & Hfrom).
  destruct (Hfrom _ _ Hopt) as [Hempty|(group & g_val & Hin & Hargs)];
    [by rewrite lookup_empty in Hempty|].
  destruct (opt_args_fields _ _ _ Hargs) as (Hreq & Hdef & Hhelp).
  split; [done|]. by exists group, g_val.
Qed.

Lemma lists_schema_lookup (default_conf : conf_items) (C : schema)
    (group g_key : string) (val : gmap string descriptor) (d : descriptor) :
  lists_schema default_conf C →
  C !! group = Some val → val !! g_key = Some d →
  (g_key, (group, d)) ∈ flat_items default_conf.
Proof.
  intros (Hgroups & Hkeys & ->) Hgroup Hkey.
  apply elem_of_list_to_map_2 in Hgroup.
  apply list_elem_of_fmap in Hgroup as ([group' items] & [= -> ->] & Hitems).
  simpl in Hkey. apply elem_of_list_to_map_2 in Hkey.
  unfold flat_items. apply list_elem_of_join.
  exists ((λ kd, (kd.1, (group', kd.2))) <$> items). split.
  - apply list_elem_of_fmap. by exists (g_key, d).
  - apply list_elem_of_fmap. by exists (group', items).
Qed.

(** X24: Round trip: the defaults that [get_train_args] returns, given back to
    [train] as they are, leave [config.CONF] as it was, provided no key
    occurs in two groups and [json.loads] reads back what [json.dumps]
    wrote for the values of the configuration. *)
Theorem train_with_defaults (default_conf : conf_items) (w w' : world)
    (train_args : gmap string train_arg) :
  lists_schema default_conf (CONF w) →
  NoDup (flat_items default_conf).*1 →
  Forall (λ e, json_loads (json_dumps (d_value e.2.2)) = Some (d_value e.2.2))
         (flat_items default_conf) →
  get_train_args default_conf w = (Return train_args, w') →
  w' = w ∧ CONF (train (arg_default <$> train_args) w).2 = CONF w.
Proof.
  intros Hlists Hnodup Hloads.
  unfold get_train_args, catch_error, try_except, lift, raise.
  rewrite args_of_groups_entries.
  destruct (args_of_entries _ ∅) as [m|] eqn:Hm; [|done].
  intros [= <- <-]. split; [done|].
  apply args_of_entries_spec in Hm as (_ & _ & Hin & _).
  assert (∀ group val g_key d,
            CONF w !! group = Some val → val !! g_key = Some d →
            (arg_default <$> m) !! g_key ≫= json_loads = Some (d_value d))
    as Hback.
  { intros group val g_key d Hgroup Hkey.
    pose proof (lists_schema_lookup _ _ _ _ _ _ Hlists Hgroup Hkey) as He.
    destruct (Hin _ _ _ Hnodup He) as (opt & Hopt & Hargs).
    apply opt_args_fields in Hargs as (_ & Hdef & _).
    rewrite lookup_fmap, Hopt. simpl. rewrite Hdef.
    apply (proj1 (Forall_forall _ _) Hloads _ He). }
  destruct (train_leaves_merged (arg_default <$> m) w) as (-> & _).
  { intros g_key (group & val & Hgroup & [d Hkey]).
    specialize (Hback _ _ _ _ Hgroup Hkey).
    destruct ((arg_default <$> m) !! g_key) as [raw|] eqn:Hraw; [|done].
    exists (d_value d), raw. by split. }
  unfold merged. apply map_eq. intros group. rewrite lookup_fmap.
  destruct (CONF w !! group) as [val|] eqn:Hgroup; [|done]. simpl. f_equal.
  apply map_eq. intros g_key. rewrite map_lookup_imap.
  destruct (val !! g_key) as [d|] eqn:Hkey; [|done]. simpl. f_equal.
  unfold override. rewrite (Hback _ _ _ _ Hgroup Hkey). by destruct d.
Qed.

End TrainArgsProperties.

(** ** The table of [save_conf] *)

Lemma length_times (c : ascii) (n : nat) : String.length (PyFmt.times c n) = n.
Proof. induction n as [|n IH]; simpl; [done|by rewrite IH]. Qed.

Lemma length_string_app (s t : string) :
  String.length (s ++ t) = (String.length s + String.length t)%nat.
Proof.
  induction s as [|c s IH]; [done|]. rewrite string_app_cons. simpl.
  by rewrite IH.
Qed.

Lemma length_ljust (n : nat) (s : string) :
  String.length (PyFmt.ljust n s) = (n `max` String.length s)%nat.
Proof. unfold PyFmt.ljust. rewrite length_string_app, length_times. lia. Qed.

Lemma string_app_inv_head (p s t : string) :
  (p ++ s)%string = (p ++ t)%string → s = t.
Proof.
  induction p as [|c p IH]; [done|]. rewrite !string_app_cons.
  intros [= Heq]. by apply IH.
Qed.

Lemma string_app_assoc (a b c : string) :
  ((a ++ b) ++ c)%string = (a ++ b ++ c)%string.
Proof.
  induction a as [|x a IH]; [done|]. rewrite !string_app_cons. by rewrite IH.
Qed.

Lemma path_join_prefix (a : string) :
  ∃ p, ∀ b, PyFmt.path_join a b = (p ++ b)%string.
Proof.
  unfold PyFmt.path_join. destruct (String.eqb a EmptyString).
  - by exists EmptyString.
  - destruct (Py.endswith a "/").
    + by exists a.
    + exists (a ++ "/")%string. intros b. by rewrite string_app_assoc.
Qed.

Section SaveConfProperties.
Context `{Pr : Printers}.

(** X25: A field is never cut: a row is 72 characters long, its line feed
    included, when the group, the key and the value fit their columns of
    25, 30 and 15 characters, and longer by the excess otherwise.  The
    header is 87 characters long and the rules 76: the third column of the
    header is twice as wide as the one of the rows. *)
Theorem txt_row_width (key g_key : string) (g_val : json) :
  String.length (txt_row key g_key g_val)
  = (25 `max` String.length key + 30 `max` String.length g_key
     + 15 `max` String.length (py_str g_val) + 2)%nat
  ∧ String.length txt_header = 87%nat
  ∧ String.length (PyFmt.times "=" 75 ++ PyFmt.nl) = 76%nat
  ∧ ((String.length key ≤ 25)%nat → (String.length g_key ≤ 30)%nat →
     (String.length (py_str g_val) ≤ 15)%nat →
     String.length (txt_row key g_key g_val) = 72%nat).
Proof.
  assert (String.length (txt_row key g_key g_val)
          = (25 `max` String.length key + 30 `max` String.length g_key
             + 15 `max` String.length (py_str g_val) + 2)%nat) as Hrow.
  { unfold txt_row. rewrite !length_string_app, !length_ljust. simpl. lia. }
  split_and!; [done|reflexivity|reflexivity|].
  intros Hkey Hg_key Hval. rewrite Hrow. lia.
Qed.

Lemma length_txt_group (key : string) (val : gmap string json) :
  length (txt_group key val) = S (size val).
Proof.
  unfold txt_group, Py.sorted_items.
  rewrite length_app, length_fmap, merge_sort_Permutation. simpl.
  rewrite length_map_to_list. lia.
Qed.

(** X26: The table is written with one call per row: two for the header and
    its rule, then, for each group, one per key and one for the rule that
    closes the group. *)
Theorem conf_txt_writes (conf : gmap string (gmap string json)) :
  length (conf_txt conf)
  = (2 + size conf + sum_list (size <$> (Py.sorted_items conf).*2))%nat
  ∧ (conf = ∅ → length (conf_txt conf) = 2%nat).
Proof.
  assert (length (conf_txt conf)
          = (2 + size conf
             + sum_list (size <$> (Py.sorted_items conf).*2))%nat) as Hlen.
  { unfold conf_txt. simpl. f_equal. f_equal.
    assert (size conf = length (Py.sorted_items conf)) as ->.
    { unfold Py.sorted_items.
      by rewrite merge_sort_Permutation, length_map_to_list. }
    induction (Py.sorted_items conf) as [|[key val] l IH]; [done|].
    rewrite !fmap_cons. simpl. rewrite length_app, length_txt_group, IH.
    simpl. lia. }
  split; [done|]. intros ->. rewrite Hlen. reflexivity.
Qed.

(** X27: [save_conf] writes [conf.json] and [conf.txt] in the configuration
    directory, two different files, and touches no other file; what the
    files held before is replaced, so that saving a second configuration
    leaves what saving it alone would have. *)
Theorem save_conf_files (save_dir : string)
    (conf conf' : gmap string (gmap string json)) (fs : gmap string string) :
  PyFmt.path_join save_dir "conf.json" ≠ PyFmt.path_join save_dir "conf.txt"
  ∧ save_conf save_dir conf fs !! PyFmt.path_join save_dir "conf.json"
    = Some (json_dump_sorted conf)
  ∧ save_conf save_dir conf fs !! PyFmt.path_join save_dir "conf.txt"
    = Some (PyFmt.join (conf_txt conf))
  ∧ (∀ path, path ≠ PyFmt.path_join save_dir "conf.json" →
             path ≠ PyFmt.path_join save_dir "conf.txt" →
             save_conf save_dir conf fs !! path = fs !! path)
  ∧ save_conf save_dir conf' (save_conf save_dir conf fs)
    = save_conf save_dir conf' fs.
Proof.
  assert (PyFmt.path_join save_dir "conf.json"
          ≠ PyFmt.path_join save_dir "conf.txt") as Hne.
  { destruct (path_join_prefix save_dir) as [p Hp]. rewrite !Hp.
    by intros ?%string_app_inv_head. }
  unfold save_conf. split_and!; [done|..].
  - rewrite lookup_insert_ne by done. apply lookup_insert_eq.
  - apply lookup_insert_eq.
  - intros path Hjson Htxt. by rewrite !lookup_insert_ne.
  - apply map_eq. intros path.
    destruct (decide (path = PyFmt.path_join save_dir "conf.txt")) as [->|Htxt].
    { by rewrite !lookup_insert_eq. }
    rewrite !(lookup_insert_ne _ (PyFmt.path_join save_dir "conf.txt")) by done.
    destruct (decide (path = PyFmt.path_join save_dir "conf.json")) as [->|Hjson].
    { by rewrite !lookup_insert_eq. }
    by rewrite !lookup_insert_ne.
Qed.

End SaveConfProperties.

(** ** The callbacks of a training *)

Section CallbacksProperties.
Context `{Num : Numeric}.

Ltac callbacks_cases H :=
  unfold get_callbacks, and_then in H;
  repeat (case_match; simplify_eq/=).

(** X28: The list of callbacks is never [None]: it starts with
    [TerminateOnNaN] and [LRHistory], followed by at most three optional
    callbacks, none of them mandatory; there is a scheduler among them only
    when the decay of the learning rate is asked for. *)
Theorem get_callbacks_never_none (CONF : gmap string (gmap string json))
    (use_lr_decay : bool) (r : option (list callback)) :
  get_callbacks CONF use_lr_decay = Return r →
  ∃ rest, r = Some (TerminateOnNaN :: LRHistory :: rest)
          ∧ (length rest ≤ 3)%nat
          ∧ Forall (λ c, ¬ mandatory c) rest
          ∧ (use_lr_decay = false →
             ∀ lr_decay milestones, LR_scheduler lr_decay milestones ∉ rest).
Proof.
  intros Hrun. callbacks_cases Hrun.
  all: eexists; split; [reflexivity|]; split; [simpl; lia|]; split.
  all: try (repeat constructor; by intros [|]).
  all: try done.
  all: intros _ lr_decay milestones Hin.
  all: repeat (apply elem_of_cons in Hin as [?|Hin]; [done|]).
  all: by apply elem_of_nil in Hin.
Qed.

(** X29: Early stopping is added exactly when validation is used and early
    stopping is asked for, with the patience computed from the number of
    epochs; it then comes last. *)
Theorem get_callbacks_early_stopping (CONF : gmap string (gmap string json))
    (use_lr_decay : bool) (calls : list callback) :
  get_callbacks CONF use_lr_decay = Return (Some calls) →
  ∃ use_validation,
    conf_item CONF "training" "use_validation" = Return use_validation
    ∧ ((∃ patience, EarlyStopping patience ∈ calls)
       ↔ PyFmt.truthy use_validation = true
         ∧ ∃ use_early_stopping,
             conf_item CONF "training" "use_early_stopping"
             = Return use_early_stopping
             ∧ PyFmt.truthy use_early_stopping = true)
    ∧ ∀ patience, EarlyStopping patience ∈ calls →
        last calls = Some (EarlyStopping patience)
        ∧ ∃ epochs, conf_item CONF "training" "epochs" = Return epochs
                    ∧ int_tenth epochs = Return patience.
Proof.
  intros Hrun. callbacks_cases Hrun.
  all: eexists; split; [reflexivity|]; split; [split|].
  all: lazymatch goal with
       | |- (∃ _, _ ∈ _) → _ =>
           first [ intros _; split; [assumption|];
                   eexists; split; [reflexivity|assumption]
                 | intros [patience Hin];
                   repeat (apply elem_of_cons in Hin as [?|Hin]; [done|]);
                   by apply elem_of_nil in Hin ]
       | |- _ ∧ _ → _ =>
           first [ intros [Hv (ues & Hues & Ht)]; congruence
                 | intros _; eexists; repeat constructor ]
       | |- ∀ _, _ =>
           intros patience Hin;
           repeat (apply elem_of_cons in Hin as [Hin|Hin]; simplify_eq);
           try (by apply elem_of_nil in Hin);
           try (split; [reflexivity|]; eexists; split; [reflexivity|assumption])
       end.
Qed.

(** X30: Without the decay of the learning rate and without validation, neither
    the schedule, nor the number of epochs, nor the early-stopping switch is
    read: the call returns whatever the [training] group holds besides
    [use_validation].  A configuration without the [monitor] group fails
    with its [KeyError]. *)
Theorem get_callbacks_reads (CONF : gmap string (gmap string json)) :
  (CONF !! "monitor" = None →
   get_callbacks CONF false = Raise (KeyError "monitor"))
  ∧ (∀ use_remote use_validation,
       conf_item CONF "monitor" "use_remote" = Return use_remote →
       conf_item CONF "training" "use_validation" = Return use_validation →
       PyFmt.truthy use_validation = false →
       get_callbacks CONF false
       = Return (Some ([TerminateOnNaN; LRHistory]
                       ++ if PyFmt.truthy use_remote then [RemoteMonitor]
                          else []))).
Proof.
  split.
  - intros Hmonitor. unfold get_callbacks, and_then, conf_item.
    by rewrite Hmonitor.
  - intros use_remote use_validation Hremote Hvalidation Hfalse.
    unfold get_callbacks, and_then. rewrite Hremote, Hvalidation, Hfalse.
    by destruct (PyFmt.truthy use_remote).
Qed.

End CallbacksProperties.

(** ** The arguments, the table and the callbacks on examples *)

Lemma small_items_lists : lists_schema small_items small_CONF.
Proof.
  split_and!.
  - compute_done.
  - repeat constructor; compute_done.
  - vm_compute. reflexivity.
Defined.

Lemma get_train_args_outcome_witness :
  let odd : conf_items :=
    [("model", [("num_classes",
                 {| d_value := JNull; d_help := None;
                    d_type := Some "NoneType"; d_choices := None;
                    d_range := None |})])] in
  (∃ train_args,
     @get_train_args demo demo_printers small_items demo_world
     = (Return train_args, demo_world)
     ∧ dom train_args = {["image_size"; "batch_size"]})
  ∧ @get_train_args demo demo_printers odd demo_world
    = (Raise (BadRequest (Cause AttributeError)), demo_world).
Proof.
  intros odd. split.
  - destruct (get_train_args_outcome (Collab := demo) (Pr := demo_printers)
                small_items demo_world) as [Hreturns _].
    destruct Hreturns as (train_args & Hrun & Hdom).
    + repeat constructor; intros t [= <-]; by eexists.
    + exists train_args. split; [exact Hrun|]. rewrite Hdom.
      vm_compute. reflexivity.
  - destruct (get_train_args_outcome (Collab := demo) (Pr := demo_printers)
                odd demo_world) as [_ Hraises].
    apply Hraises. apply Exists_cons_hd. intros Hknown.
    by destruct (Hknown "NoneType" eq_refl).
Defined.

Lemma get_train_args_entry_witness :
  ∃ train_args opt,
    (@get_train_args demo demo_printers small_items demo_world).1
    = Return train_args
    ∧ train_args !! "batch_size" = Some opt
    ∧ arg_required opt = false.
Proof.
  assert (∃ train_args,
            (@get_train_args demo demo_printers small_items demo_world).1
            = Return train_args) as [train_args Hargs]
    by (eexists; reflexivity).
  assert (∃ opt, train_args !! "batch_size" = Some opt) as [opt Hopt].
  { injection Hargs as <-. eexists. vm_compute. reflexivity. }
  assert (@get_train_args demo demo_printers small_items demo_world
          = (Return train_args,
             (@get_train_args demo demo_printers small_items demo_world).2))
    as Hrun by (rewrite <- Hargs; apply surjective_pairing).
  destruct (get_train_args_entry (Collab := demo) (Pr := demo_printers)
              _ _ _ _ _ _ Hrun Hopt) as [Hrequired _].
  exists train_args, opt. exact (conj Hargs (conj Hopt Hrequired)).
Defined.

Lemma train_with_defaults_witness :
  let w := site_world demo small_CONF in
  ∃ train_args,
    (@get_train_args demo demo_printers small_items w).1 = Return train_args
    ∧ CONF (@train demo (arg_default <$> train_args) w).2 = small_CONF.
Proof.
  intros w.
  assert (∃ train_args,
            (@get_train_args demo demo_printers small_items w).1
            = Return train_args) as [train_args Hargs]
    by (eexists; reflexivity).
  assert (@get_train_args demo demo_printers small_items w
          = (Return train_args,
             (@get_train_args demo demo_printers small_items w).2))
    as Hrun by (rewrite <- Hargs; apply surjective_pairing).
  assert (NoDup (flat_items small_items).*1) as Hnodup by compute_done.
  assert (Forall (λ e, @json_loads demo
                         (@json_dumps demo_printers (d_value e.2.2))
                       = Some (d_value e.2.2)) (flat_items small_items))
    as Hloads by (repeat constructor).
  destruct (train_with_defaults (Collab := demo) (Pr := demo_printers)
              small_items w _ train_args small_items_lists Hnodup Hloads Hrun)
    as [_ HCONF].
  exists train_args. exact (conj Hargs HCONF).
Defined.

Lemma txt_row_width_witness :
  String.length (@txt_row demo_printers "model" "image_size" (JInt 64)) = 72%nat
  ∧ String.length
      (@txt_row demo_printers "augmentation" "a_key_longer_than_its_column_is"
         (JInt 64)) = 73%nat.
Proof.
  split.
  - apply (txt_row_width (Pr := demo_printers)); simpl; lia.
  - destruct (txt_row_width (Pr := demo_printers) "augmentation"
                "a_key_longer_than_its_column_is" (JInt 64)) as [-> _].
    reflexivity.
Defined.

Lemma conf_txt_writes_witness :
  length (@conf_txt demo_printers ∅) = 2%nat
  ∧ length (@conf_txt demo_printers demo_train_conf) = 7%nat.
Proof.
  split.
  - by apply (conf_txt_writes (Pr := demo_printers) ∅).
  - destruct (conf_txt_writes (Pr := demo_printers) demo_train_conf)
      as [-> _].
    vm_compute. reflexivity.
Defined.

Lemma save_conf_files_witness :
  let fs : gmap string string := {[ "conf/notes" := "keep" ]} in
  @save_conf demo_printers "conf" demo_train_conf fs !! "conf/notes"
  = Some "keep"
  ∧ @save_conf demo_printers "conf" ∅
      (@save_conf demo_printers "conf" demo_train_conf fs)
    = @save_conf demo_printers "conf" ∅ fs.
Proof.
  intros fs.
  destruct (save_conf_files (Pr := demo_printers) "conf" demo_train_conf ∅ fs)
    as (_ & _ & _ & Hother & Hagain).
  split; [|exact Hagain].
  rewrite Hother; [reflexivity|discriminate|discriminate].
Defined.

Lemma get_callbacks_never_none_witness :
  ∃ rest, @get_callbacks demo_numeric demo_train_conf false
          = Return (Some (TerminateOnNaN :: LRHistory :: rest))
          ∧ (length rest ≤ 3)%nat.
Proof.
  destruct (get_callbacks_never_none (Num := demo_numeric) demo_train_conf
              false (Some [TerminateOnNaN; LRHistory; RemoteMonitor]))
    as (rest & Hrest & Hlength & _); [vm_compute; reflexivity|].
  exists rest. split; [|exact Hlength]. rewrite <- Hrest.
  vm_compute. reflexivity.
Defined.

Lemma get_callbacks_early_stopping_witness :
  let conf : gmap string (gmap string json) :=
    <["training" := {[ "use_validation" := JBool true;
                       "use_early_stopping" := JInt 1;
                       "epochs" := JInt 30 ]}]> demo_train_conf in
  @get_callbacks demo_numeric conf false
  = Return (Some [TerminateOnNaN; LRHistory; RemoteMonitor; EarlyStopping 3])
  ∧ ∃ use_validation,
      conf_item conf "training" "use_validation" = Return use_validation
      ∧ PyFmt.truthy use_validation = true.
Proof.
  intros conf.
  assert (@get_callbacks demo_numeric conf false
          = Return (Some [TerminateOnNaN; LRHistory; RemoteMonitor;
                          EarlyStopping 3])) as Hrun
    by (vm_compute; reflexivity).
  split; [exact Hrun|].
  destruct (get_callbacks_early_stopping (Num := demo_numeric) conf false _
              Hrun) as (use_validation & Hvalidation & Hiff & _).
  exists use_validation. split; [exact Hvalidation|].
  destruct (proj1 Hiff) as [Htruthy _]; [|exact Htruthy].
  exists 3%Z. repeat constructor.
Defined.

Lemma get_callbacks_reads_witness :
  @get_callbacks demo_numeric (delete "monitor" demo_train_conf) false
  = Raise (KeyError "monitor")
  ∧ @get_callbacks demo_numeric demo_train_conf false
    = Return (Some [TerminateOnNaN; LRHistory; RemoteMonitor]).
Proof.
  split.
  - apply (get_callbacks_reads (Num := demo_numeric)). vm_compute. reflexivity.
  - destruct (get_callbacks_reads (Num := demo_numeric) demo_train_conf)
      as [_ Hreturns].
    apply (Hreturns (JBool true) (JBool false)); vm_compute; reflexivity.
Defined.
